(** * doomcord-server: a shallow embedding of [main.js]

    The server turns the path of an HTTP request into a Doom demo, renders
    it with an external engine and caches the result on disk.  This file
    embeds the three functions of [main.js] that carry the logic
    ([forgeDemo], [clearOldCache], [handleRequest]) together with the
    fragments of the JavaScript library they rely on, and states the
    properties of the specification over that embedding.

    Conventions of the embedding:
    - a JavaScript string is a [string]; the paths the server sees come from
      [URL.pathname], which is ASCII;
    - an [Int8Array] is a [list Z] whose elements lie in [-128, 127];
      storing a number wraps it ([toInt8]);
    - the numbers the handler computes are integers or [NaN] ([JNum]);
    - [async] functions are functions of the world state that either
      return, throw, or exhaust the recursion budget ([Outcome]);
    - what the outside world decides (the exit status of a subprocess, the
      free space of the disk, a failing system call) is read from an
      oracle that the theorems quantify over;
    - [forgeDemo] is embedded as a function on byte lists and, with the
      typed arrays as objects of a heap, as [forgeDemo_heap];
    - the handler is embedded as [handleRequest] for the runs in which the
      file-system calls outside of the five stages succeed, and as
      [handleRequest_io] with the rejections of these calls. *)

From Stdlib Require Import ZArith Lia String Ascii DecimalString.
From stdpp Require Import base list strings sorting.

Open Scope Z_scope.

(** ** JavaScript library fragments *)

(** The numbers that occur in the handler: integers and [NaN]. *)
Inductive JNum : Type :=
| JNaN
| JInt (z : Z).

(** Conversion of a number stored into an [Int8Array] (ToInt8): [NaN]
    becomes [0], an integer is reduced modulo 256 into [-128, 127]. *)
Definition toInt8 (x : JNum) : Z :=
  match x with
  | JNaN => 0
  | JInt z => (z + 128) mod 256 - 128
  end.

(** [new Int8Array(n)]: [n] zero bytes. *)
Definition new_Int8Array (n : nat) : list Z := replicate n 0.

(** [buffer[i] = v] on a typed array: an index out of range is ignored. *)
Definition store (i : nat) (v : Z) (buffer : list Z) : list Z :=
  <[i := toInt8 (JInt v)]> buffer.

(** [buffer.set(source, offset)]: a [TypeError] when [source] is
    [undefined], a [RangeError] when it does not fit; [None] stands for
    either exception. *)
Definition typed_set (source : option (list Z)) (offset : nat)
    (buffer : list Z) : option (list Z) :=
  match source with
  | None => None
  | Some src =>
      if (offset + length src <=? length buffer)%nat
      then Some (list_inserts offset src buffer)
      else None
  end.

(** [s.replaceAll(c, rep)] for a pattern [c] of one character. *)
Fixpoint replaceAll_char (c : ascii) (rep : string) (s : string) : string :=
  match s with
  | EmptyString => EmptyString
  | String x r =>
      if Ascii.eqb x c then rep +:+ replaceAll_char c rep r
      else String x (replaceAll_char c rep r)
  end.

(** ** [forgeDemo] (main.js, lines 5-68) *)

Definition INPUT_DURATION : nat := 15.

(** The [switch] of the loop body: the tic of an input character, and
    [undefined] ([None]) in the [default] case. *)
Definition tic_of (c : ascii) : option (list Z) :=
  match c with
  | "w"%char => Some [50; 0; 0; 0]
  | "s"%char => Some [-50; 0; 0; 0]
  | "a"%char => Some [0; 0; 1; 0]
  | "d"%char => Some [0; 0; -1; 0]
  | "q"%char => Some [0; 0; 0; 1]
  | "e"%char => Some [0; 0; 0; 2]
  | _ => None
  end.

(** The inner loop, [for (let j = 0; j < INPUT_DURATION; j ++)], run for
    the values of [j] in [js]. *)
Fixpoint set_tics (tic : option (list Z)) (i : nat) (js : list nat)
    (buffer : list Z) : option (list Z) :=
  match js with
  | [] => Some buffer
  | j :: js' =>
      match typed_set tic (13 + i * INPUT_DURATION * 4 + j * 4)%nat buffer with
      | None => None
      | Some buffer' => set_tics tic i js' buffer'
      end
  end.

(** The outer loop, [for (let i = 0; i < inputs.length; i ++)], from index
    [i] on; [rest] holds the characters [inputs[i]], [inputs[i+1]], ... *)
Fixpoint forge_loop (i : nat) (rest : string) (buffer : list Z)
    : option (list Z) :=
  match rest with
  | EmptyString => Some buffer
  | String c rest' =>
      match set_tics (tic_of c) i (seq 0 INPUT_DURATION) buffer with
      | None => None
      | Some buffer' => forge_loop (S i) rest' buffer'
      end
  end.

(** [forgeDemo(inputs, episode, map)]; [None] when the function throws. *)
Definition forgeDemo (inputs : string) (episode map : JNum)
    : option (list Z) :=
  let inputs := replaceAll_char "e" "eee" inputs in
  let buffer := new_Int8Array (14 + String.length inputs * INPUT_DURATION * 4) in
  let buffer := store 0 109 buffer in
  let buffer := store 1 0 buffer in
  let buffer := <[2%nat := toInt8 episode]> buffer in
  let buffer := <[3%nat := toInt8 map]> buffer in
  let buffer := store 4 0 buffer in
  let buffer := store 5 0 buffer in
  let buffer := store 6 0 buffer in
  let buffer := store 7 0 buffer in
  let buffer := store 8 0 buffer in
  let buffer := store 9 1 buffer in
  let buffer := store 10 0 buffer in
  let buffer := store 11 0 buffer in
  let buffer := store 12 0 buffer in
  let buffer := store (length buffer - 1) 128 buffer in
  forge_loop 0 inputs buffer.

(** The alphabet of input tokens. *)
Definition is_token (c : ascii) : bool :=
  match c with
  | "w"%char | "a"%char | "s"%char | "d"%char | "q"%char | "e"%char => true
  | _ => false
  end.

Fixpoint tokens_only (s : string) : bool :=
  match s with
  | EmptyString => true
  | String c r => is_token c && tokens_only r
  end.

(** The demo as the specification words it: every action-b token tripled,
    a 13-byte header, 15 equal tick records per expanded token, one
    terminator byte. *)
Fixpoint expand_spec (s : string) : list ascii :=
  match s with
  | EmptyString => []
  | String c r =>
      if Ascii.eqb c "e" then "e"%char :: "e"%char :: "e"%char :: expand_spec r
      else c :: expand_spec r
  end.

(** Forward/back delta, strafe, turn delta and action bitmask of a token. *)
Definition tick_spec (c : ascii) : list Z :=
  match c with
  | "w"%char => [50; 0; 0; 0]
  | "s"%char => [-50; 0; 0; 0]
  | "a"%char => [0; 0; 1; 0]
  | "d"%char => [0; 0; -1; 0]
  | "q"%char => [0; 0; 0; 1]
  | "e"%char => [0; 0; 0; 2]
  | _ => [0; 0; 0; 0]
  end.

Definition header_spec (episode map : Z) : list Z :=
  [109; 0; episode; map; 0; 0; 0; 0; 0; 1; 0; 0; 0].

Definition ticks_spec (cs : list ascii) : list Z :=
  concat (List.map (fun c => concat (replicate 15 (tick_spec c))) cs).

(** ** [forgeDemo] on the heap *)

(** The typed arrays of a run live in a heap and are handled by reference;
    the heap holds whatever the program has allocated before the call. *)
Definition Ref : Type := nat.
Definition Heap : Type := list (list Z).

(** [new Int8Array(...)]: a fresh object holding [a]. *)
Definition heap_new (a : list Z) (h : Heap) : Ref * Heap :=
  (length h, h ++ [a]).

(** [r.length]. *)
Definition heap_length (r : Ref) (h : Heap) : nat :=
  match h !! r with
  | Some a => length a
  | None => 0%nat
  end.

(** [r[i] = v]. *)
Definition heap_store (r : Ref) (i : nat) (v : JNum) (h : Heap) : Heap :=
  match h !! r with
  | Some a => <[r := <[i := toInt8 v]> a]> h
  | None => h
  end.

(** [r.set(source, offset)], [source] being a reference or [undefined]. *)
Definition heap_set (r : Ref) (source : option Ref) (offset : nat) (h : Heap)
    : option Heap :=
  match h !! r with
  | None => None
  | Some a =>
      match typed_set (source ≫= (h !!.)) offset a with
      | None => None
      | Some a' => Some (<[r := a']> h)
      end
  end.

(** Lines 38-60: [let tic] and the [switch]; a case allocates its array,
    the [default] case leaves [tic] undefined. *)
Definition heap_tic (c : ascii) (h : Heap) : option Ref * Heap :=
  match tic_of c with
  | Some a => let '(r, h) := heap_new a h in (Some r, h)
  | None => (None, h)
  end.

(** Lines 61-63. *)
Fixpoint heap_set_tics (buffer : Ref) (tic : option Ref) (i : nat)
    (js : list nat) (h : Heap) : option Heap :=
  match js with
  | [] => Some h
  | j :: js' =>
      match heap_set buffer tic (13 + i * INPUT_DURATION * 4 + j * 4)%nat h with
      | None => None
      | Some h' => heap_set_tics buffer tic i js' h'
      end
  end.

(** Lines 37-64. *)
Fixpoint heap_forge_loop (buffer : Ref) (i : nat) (rest : string) (h : Heap)
    : option Heap :=
  match rest with
  | EmptyString => Some h
  | String c rest' =>
      let '(tic, h) := heap_tic c h in
      match heap_set_tics buffer tic i (seq 0 INPUT_DURATION) h with
      | None => None
      | Some h' => heap_forge_loop buffer (S i) rest' h'
      end
  end.

(** Lines 16-68: the call [forgeDemo(inputs, episode, map)] in the heap
    [h]; the reference it returns and the heap it leaves, [None] when it
    throws. *)
Definition forgeDemo_heap (inputs : string) (episode map : JNum) (h : Heap)
    : option (Ref * Heap) :=
  let inputs := replaceAll_char "e" "eee" inputs in
  let '(buffer, h) :=
    heap_new (new_Int8Array (14 + String.length inputs * INPUT_DURATION * 4)) h in
  let h := heap_store buffer 0 (JInt 109) h in
  let h := heap_store buffer 1 (JInt 0) h in
  let h := heap_store buffer 2 episode h in
  let h := heap_store buffer 3 map h in
  let h := heap_store buffer 4 (JInt 0) h in
  let h := heap_store buffer 5 (JInt 0) h in
  let h := heap_store buffer 6 (JInt 0) h in
  let h := heap_store buffer 7 (JInt 0) h in
  let h := heap_store buffer 8 (JInt 0) h in
  let h := heap_store buffer 9 (JInt 1) h in
  let h := heap_store buffer 10 (JInt 0) h in
  let h := heap_store buffer 11 (JInt 0) h in
  let h := heap_store buffer 12 (JInt 0) h in
  let h := heap_store buffer (heap_length buffer h - 1) (JInt 128) h in
  match heap_forge_loop buffer 0 inputs h with
  | None => None
  | Some h => Some (buffer, h)
  end.

(** ** More of the JavaScript library: strings and numbers *)

Definition nl : string := String (ascii_of_nat 10) "".

(** [s.slice(start, stop)]; [stop = None] when the second argument is
    omitted.  Negative indices count from the end. *)
Definition slice (s : string) (start : Z) (stop : option Z) : string :=
  let len := Z.of_nat (String.length s) in
  let clamp := fun k => if k <? 0 then Z.max (len + k) 0 else Z.min k len in
  let from := clamp start in
  let to := match stop with None => len | Some k => clamp k end in
  substring (Z.to_nat from) (Z.to_nat (to - from)) s.

(** [s[i]]: the character at index [i], [undefined] ([None]) out of range. *)
Definition charAt (s : string) (i : nat) : option ascii := String.get i s.

(** [s.includes(sub)]. *)
Fixpoint includes (s sub : string) : bool :=
  String.prefix sub s ||
  match s with
  | EmptyString => false
  | String _ r => includes r sub
  end.

(** [s.endsWith(suffix)]. *)
Definition endsWith (s suffix : string) : bool :=
  let n := String.length s in
  let m := String.length suffix in
  (m <=? n)%nat && String.eqb (substring (n - m) m s) suffix.

(** [s.toLowerCase()] on ASCII text. *)
Definition lower (c : ascii) : ascii :=
  let n := nat_of_ascii c in
  if (65 <=? n)%nat && (n <=? 90)%nat then ascii_of_nat (n + 32) else c.

Fixpoint toLowerCase (s : string) : string :=
  match s with
  | EmptyString => EmptyString
  | String c r => String (lower c) (toLowerCase r)
  end.

(** [s.replace(/[^wasdqe]/g, "")]: the characters outside the class are
    removed. *)
Fixpoint keep_tokens (s : string) : string :=
  match s with
  | EmptyString => EmptyString
  | String c r => if is_token c then String c (keep_tokens r) else keep_tokens r
  end.

(** *** [isNaN] of a string: the StringToNumber grammar of ECMAScript *)

Definition is_digit (c : ascii) : bool :=
  let n := nat_of_ascii c in (48 <=? n)%nat && (n <=? 57)%nat.

(** StrWhiteSpaceChar among the code units below 256: TAB, LF, VT, FF, CR,
    SP and NBSP. *)
Definition is_space (c : ascii) : bool :=
  let n := nat_of_ascii c in
  ((9 <=? n)%nat && (n <=? 13)%nat) || (n =? 32)%nat || (n =? 160)%nat.

Fixpoint trimStart (s : string) : string :=
  match s with
  | EmptyString => EmptyString
  | String c r => if is_space c then trimStart r else s
  end.

(** [trimEnd s] is [None] when [s] is all white space. *)
Fixpoint trimEnd (s : string) : option string :=
  match s with
  | EmptyString => None
  | String c r =>
      match trimEnd r with
      | Some r' => Some (String c r')
      | None => if is_space c then None else Some (String c "")
      end
  end.

Definition trim (s : string) : string :=
  match trimEnd (trimStart s) with
  | Some t => t
  | None => ""
  end.

Fixpoint skip_digits (s : string) : string :=
  match s with
  | EmptyString => EmptyString
  | String c r => if is_digit c then skip_digits r else s
  end.

Definition starts_with_digit (s : string) : bool :=
  match s with
  | EmptyString => false
  | String c _ => is_digit c
  end.

(** What may follow the mantissa: nothing, or an ExponentPart. *)
Definition exponent_ok (s : string) : bool :=
  match s with
  | EmptyString => true
  | String c r =>
      if Ascii.eqb c "e" || Ascii.eqb c "E" then
        let r' :=
          match r with
          | String sg r2 => if Ascii.eqb sg "+" || Ascii.eqb sg "-" then r2 else r
          | EmptyString => r
          end in
        starts_with_digit r' && String.eqb (skip_digits r') ""
      else false
  end.

(** StrUnsignedDecimalLiteral. *)
Definition unsigned_decimal (s : string) : bool :=
  if String.eqb s "Infinity" then true else
  match s with
  | String "."%char r => starts_with_digit r && exponent_ok (skip_digits r)
  | _ =>
      starts_with_digit s &&
      match skip_digits s with
      | String "."%char r => exponent_ok (skip_digits r)
      | r => exponent_ok r
      end
  end.

Fixpoint all_chars (p : ascii -> bool) (s : string) : bool :=
  match s with
  | EmptyString => true
  | String c r => p c && all_chars p r
  end.

Definition is_hex (c : ascii) : bool :=
  let n := nat_of_ascii c in
  is_digit c || ((65 <=? n)%nat && (n <=? 70)%nat) || ((97 <=? n)%nat && (n <=? 102)%nat).

Definition is_bin (c : ascii) : bool := Ascii.eqb c "0" || Ascii.eqb c "1".

Definition is_oct (c : ascii) : bool :=
  let n := nat_of_ascii c in (48 <=? n)%nat && (n <=? 55)%nat.

(** NonDecimalIntegerLiteral: [0x], [0b] or [0o] and at least one digit. *)
Definition non_decimal (s : string) : bool :=
  match s with
  | String "0"%char (String k (String d r)) =>
      if Ascii.eqb k "x" || Ascii.eqb k "X" then all_chars is_hex (String d r)
      else if Ascii.eqb k "b" || Ascii.eqb k "B" then all_chars is_bin (String d r)
      else if Ascii.eqb k "o" || Ascii.eqb k "O" then all_chars is_oct (String d r)
      else false
  | _ => false
  end.

(** StrNumericLiteral. *)
Definition numeric_literal (s : string) : bool :=
  non_decimal s ||
  match s with
  | String sg r =>
      if Ascii.eqb sg "+" || Ascii.eqb sg "-" then unsigned_decimal r
      else unsigned_decimal s
  | EmptyString => false
  end.

(** [isNaN(s)] for a string [s]: white space is trimmed, the empty string
    converts to [0], everything that is not a numeric literal to [NaN]. *)
Definition isNaN (s : string) : bool :=
  let t := trim s in
  negb (String.eqb t "" || numeric_literal t).

(** ToNumber of [s[i]], a string of one character or [undefined]. *)
Definition toNumber_char (c : option ascii) : JNum :=
  match c with
  | None => JNaN
  | Some c =>
      if is_digit c then JInt (Z.of_nat (nat_of_ascii c) - 48)
      else if is_space c then JInt 0
      else JNaN
  end.

(** [Math.min(x, k)] and [Math.max(x, k)] for an integer [k]. *)
Definition Math_min (x : JNum) (k : Z) : JNum :=
  match x with
  | JNaN => JNaN
  | JInt z => JInt (Z.min z k)
  end.

Definition Math_max (x : JNum) (k : Z) : JNum :=
  match x with
  | JNaN => JNaN
  | JInt z => JInt (Z.max z k)
  end.

(** [`${x}`] for a number. *)
Definition toString (x : JNum) : string :=
  match x with
  | JNaN => "NaN"
  | JInt z => NilZero.string_of_int (Z.to_int z)
  end.

(** ** Path decoding (main.js, lines 225-250) *)

Definition SAVE_THRESHOLD : Z := 1.

(** Lines 226-241: episode, map and the filtered input sequence. *)
Definition decode (path : string) : JNum * JNum * string :=
  let inputs := toLowerCase (slice path 1 (Some (-6))) in
  let '(episode, map, inputs) :=
    if negb (isNaN (slice inputs 0 (Some 2))) then
      (Math_max (Math_min (toNumber_char (charAt inputs 0)) 3) 1,
       Math_max (Math_min (toNumber_char (charAt inputs 1)) 8) 1,
       slice inputs 2 None)
    else (JInt 1, JInt 1, inputs) in
  let inputs := keep_tokens inputs in
  let inputs := if String.eqb inputs "" then "e" else inputs in
  (episode, map, inputs).

(** The decoding as the specification words it: the first two characters
    are consumed exactly when both are decimal digits, and are then clamped
    into [1,3] and [1,8]. *)
Definition clamp (lo hi z : Z) : Z := Z.max lo (Z.min hi z).

Definition digit_value (c : ascii) : Z := Z.of_nat (nat_of_ascii c) - 48.

Definition decode_spec (path : string) : Z * Z * string :=
  let inputs := toLowerCase (slice path 1 (Some (-6))) in
  let '(episode, map, rest) :=
    match inputs with
    | String c1 (String c2 r) =>
        if is_digit c1 && is_digit c2
        then (clamp 1 3 (digit_value c1), clamp 1 8 (digit_value c2), r)
        else (1, 1, inputs)
    | _ => (1, 1, inputs)
    end in
  let tokens := keep_tokens rest in
  (episode, map, if String.eqb tokens "" then "e" else tokens).

(** ** The world: file system, log, counters *)

(** What a rejected promise carries.  [e_stdout] and [e_stderr] are the
    properties a failed subprocess has and other errors lack. *)
Record Err : Type := {
  e_message : string;
  e_stdout : option string;
  e_stderr : option string
}.

Definition plain_error (msg : string) : Err :=
  {| e_message := msg; e_stdout := None; e_stderr := None |}.

Inductive Outcome (A : Type) : Type :=
| Ret (a : A)          (* the promise resolves *)
| Throw (e : Err)      (* the promise rejects *)
| NoFuel.              (* the recursion budget of the model ran out *)
Arguments Ret {A} a.
Arguments Throw {A} e.
Arguments NoFuel {A}.

(** A child of the cache root or of the scratch root, as [readdir] and
    [stat] show it, with the names of the files it holds. *)
Record Entry : Type := {
  isDirectory : bool;
  birthtime : Z;
  files : list string
}.

(** The children of a directory, in [readdir] order. *)
Definition Listing : Type := list (string * Entry).

Fixpoint lookup_entry (name : string) (l : Listing) : option Entry :=
  match l with
  | [] => None
  | (n, e) :: l' => if String.eqb n name then Some e else lookup_entry name l'
  end.

(** [fs.exists] of a child, and of a file inside a child. *)
Definition exists_entry (name : string) (l : Listing) : bool :=
  match lookup_entry name l with
  | Some _ => true
  | None => false
  end.

Definition has_file (name file : string) (l : Listing) : bool :=
  match lookup_entry name l with
  | Some e => existsb (String.eqb file) (files e)
  | None => false
  end.

Definition with_file (file : string) (e : Entry) : Entry :=
  {| isDirectory := isDirectory e;
     birthtime := birthtime e;
     files := if existsb (String.eqb file) (files e) then files e
              else file :: files e |}.

Definition without_file (file : string) (e : Entry) : Entry :=
  {| isDirectory := isDirectory e;
     birthtime := birthtime e;
     files := List.filter (fun f => negb (String.eqb file f)) (files e) |}.

Fixpoint update_entry (name : string) (f : Entry -> Entry) (l : Listing)
    : Listing :=
  match l with
  | [] => []
  | (n, e) :: l' =>
      if String.eqb n name then (n, f e) :: update_entry name f l'
      else (n, e) :: update_entry name f l'
  end.

Definition mkdir (name : string) (birth : Z) (l : Listing) : Listing :=
  l ++ [(name, {| isDirectory := true; birthtime := birth; files := [] |})].

(** [fs.rm(path, { recursive: true, force: true })] of a child. *)
Definition rm_rf (name : string) (l : Listing) : Listing :=
  List.filter (fun p => negb (String.eqb (fst p) name)) l.

Inductive Area : Type := Cache | Tmp.

(** The atomic effects on the world. *)
Inductive Event : Type :=
| EvMkdir (a : Area) (name : string) (birth : Z)
| EvWrite (a : Area) (name file : string)
| EvRename (tmpdir file : string) (key file' : string)
| EvRm (a : Area) (name : string)
| EvAppendLog (record : string)
| EvStats (text : string).

Record World : Type := {
  cache : Listing;            (* the children of [cache/] *)
  tmp : Listing;              (* the children of [tmp/] *)
  errors_log : list string;   (* the records of [errors.log] *)
  stats_txt : option string;  (* the content of [stats.txt] *)
  requestCount : Z;
  renderCount : Z;
  trace : list Event          (* the effects so far, oldest first *)
}.

Definition set_cache (f : Listing -> Listing) (w : World) : World :=
  {| cache := f (cache w); tmp := tmp w; errors_log := errors_log w;
     stats_txt := stats_txt w; requestCount := requestCount w;
     renderCount := renderCount w; trace := trace w |}.

Definition set_tmp (f : Listing -> Listing) (w : World) : World :=
  {| cache := cache w; tmp := f (tmp w); errors_log := errors_log w;
     stats_txt := stats_txt w; requestCount := requestCount w;
     renderCount := renderCount w; trace := trace w |}.

Definition set_area (a : Area) (f : Listing -> Listing) (w : World) : World :=
  match a with
  | Cache => set_cache f w
  | Tmp => set_tmp f w
  end.

Definition apply_event (ev : Event) (w : World) : World :=
  match ev with
  | EvMkdir a name birth => set_area a (mkdir name birth) w
  | EvWrite a name file => set_area a (update_entry name (with_file file)) w
  | EvRename t file key file' =>
      set_cache (update_entry key (with_file file'))
        (set_tmp (update_entry t (without_file file)) w)
  | EvRm a name => set_area a (rm_rf name) w
  | EvAppendLog record =>
      {| cache := cache w; tmp := tmp w;
         errors_log := errors_log w ++ [record];
         stats_txt := stats_txt w; requestCount := requestCount w;
         renderCount := renderCount w; trace := trace w |}
  | EvStats text =>
      {| cache := cache w; tmp := tmp w; errors_log := errors_log w;
         stats_txt := Some text; requestCount := requestCount w;
         renderCount := renderCount w; trace := trace w |}
  end.

(** Perform an effect and record it. *)
Definition emit (ev : Event) (w : World) : World :=
  let w' := apply_event ev w in
  {| cache := cache w'; tmp := tmp w'; errors_log := errors_log w';
     stats_txt := stats_txt w'; requestCount := requestCount w';
     renderCount := renderCount w'; trace := trace w ++ [ev] |}.

Definition replay (evs : list Event) (w : World) : World :=
  fold_left (fun w ev => emit ev w) evs w.

(** ** [clearOldCache] (main.js, lines 84-144) *)

Definition CACHE_CLEAR_HIGH_THRESHOLD : Z := 1024 * 1024 * 1024.
Definition CACHE_CLEAR_LOW_THRESHOLD : Z := 1024 * 1024 * 1024 * 2.
Definition CACHE_DEPTH_THRESHOLD : nat := 5.

(** What the disk decides during one call: the free space each successive
    [diskusage.checkSync] reports ([None]: it throws), and which system
    calls fail. *)
Record Disk : Type := {
  d_free : nat -> option Z;
  d_readdir_fails : bool;
  d_stat_fails : string -> bool;
  d_rm_fails : string -> bool
}.

(** An element of [dirs]; [fullPath] is kept as the entry name, the parent
    directory being fixed. *)
Record Candidate : Type := {
  fullPath : string;
  c_birthtime : Z
}.

(** Lines 111-124: the scan of the directory entries. *)
Fixpoint scan (disk : Disk) (entries : Listing) : list Candidate :=
  match entries with
  | [] => []
  | (name, entry) :: entries' =>
      if isDirectory entry
         && (CACHE_DEPTH_THRESHOLD + 2 <? String.length name)%nat
      then
        if d_stat_fails disk name then scan disk entries'
        else {| fullPath := name; c_birthtime := birthtime entry |}
               :: scan disk entries'
      else scan disk entries'
  end.

(** Lines 129-131: [dirs.sort] by [birthtime]; the sort of JavaScript is
    stable. *)
Fixpoint insert_sorted (c : Candidate) (l : list Candidate) : list Candidate :=
  match l with
  | [] => [c]
  | x :: l' =>
      if c_birthtime c <=? c_birthtime x then c :: l
      else x :: insert_sorted c l'
  end.

Fixpoint sort_dirs (l : list Candidate) : list Candidate :=
  match l with
  | [] => []
  | c :: l' => insert_sorted c (sort_dirs l')
  end.

(** What a call leaves behind: the cache root, the candidates it deleted
    (oldest first, the last one last) and the last value of [info.free]. *)
Record Evicted : Type := {
  ev_cache : Listing;
  ev_deleted : list Candidate;
  ev_free : Z
}.

(** Lines 134-142: the [while] loop; [k] counts the disk probes made. *)
Fixpoint evict_loop (disk : Disk) (dirs : list Candidate) (k : nat)
    (st : Evicted) : Evicted :=
  match dirs with
  | [] => st
  | oldest :: dirs' =>
      if d_rm_fails disk (fullPath oldest) then evict_loop disk dirs' k st
      else
        let st' := {| ev_cache := rm_rf (fullPath oldest) (ev_cache st);
                      ev_deleted := ev_deleted st ++ [oldest];
                      ev_free := ev_free st |} in
        match d_free disk k with
        | None => evict_loop disk dirs' (S k) st'
        | Some free =>
            let st'' := {| ev_cache := ev_cache st';
                           ev_deleted := ev_deleted st';
                           ev_free := free |} in
            if CACHE_CLEAR_LOW_THRESHOLD <? free then st''
            else evict_loop disk dirs' (S k) st''
        end
  end.

(** [clearOldCache(parentDir)] on the children [entries] of [parentDir]. *)
Definition clearOldCache_fs (disk : Disk) (entries : Listing)
    : Outcome Evicted :=
  match d_free disk 0 with
  | None => Throw (plain_error "diskusage.checkSync")
  | Some free =>
      let st := {| ev_cache := entries; ev_deleted := []; ev_free := free |} in
      if CACHE_CLEAR_HIGH_THRESHOLD <? free then Ret st
      else if d_readdir_fails disk then Throw (plain_error "fs.readdir")
      else
        let dirs := scan disk entries in
        if (length dirs =? 0)%nat then Ret st
        else Ret (evict_loop disk (sort_dirs dirs) 1 st)
  end.

(** [clearOldCache] as an effect on the world: the deletions are performed
    one by one. *)
Definition clearOldCache (disk : Disk) (w : World) : Outcome unit * World :=
  match clearOldCache_fs disk (cache w) with
  | Ret r =>
      (Ret tt,
       replay (List.map (fun c => EvRm Cache (fullPath c)) (ev_deleted r)) w)
  | Throw e => (Throw e, w)
  | NoFuel => (NoFuel, w)
  end.

(** An entry is evictable when the scan of [clearOldCache] selects it. *)
Definition evictable (name : string) (entry : Entry) : bool :=
  isDirectory entry && (CACHE_DEPTH_THRESHOLD + 2 <? String.length name)%nat.

(** ** [handleRequest] (main.js, lines 146-378) *)

Record Request : Type := {
  pathname : string          (* [new URL(req.url).pathname] *)
}.

Inductive Body : Type :=
| BText (text : string)
| BFile (path : string).     (* [Bun.file(path)], relative to [__dirname] *)

Record Response : Type := {
  body : Body;
  status : Z;
  headers : list (string * string)
}.

(** [new Response(Bun.file(path))]. *)
Definition file_response (path : string) : Response :=
  {| body := BFile path; status := 200; headers := [] |}.

Definition NOCACHE_HEADERS : list (string * string) :=
  [("Content-Disposition", "inline");
   ("Cache-Control", "no-store, no-cache, must-revalidate, max-age=0");
   ("Pragma", "no-cache");
   ("Expires", "0")].

Definition checkRequestOrigin (req : Request) : bool := true.

(** Lines 202-223: the answers that do not depend on the cache. *)
Definition staticResponse (path : string) : option Response :=
  if (220 <? String.length path)%nat
  then Some (file_response "messages/charlimit.webp")
  else if includes path "i.wxbp"
  then Some (file_response "messages/doomkisser2.jpg")
  else if String.eqb path "/i.webp"
  then Some (file_response "messages/start.webp")
  else if String.eqb path "/favicon.ico"
  then Some {| body := BText ""; status := 404; headers := [] |}
  else if negb (endsWith path "i.webp")
  then Some (file_response "messages/404.webp")
  else None.

(** Lines 226-250: the constants of one request. *)
Record Job : Type := {
  inputs : string;
  episode : JNum;
  map : JNum;
  save : string;             (* the sequence to load from *)
  em : string
}.

Definition job_of (path : string) : Job :=
  let '(episode, map, inputs) := decode path in
  {| inputs := inputs; episode := episode; map := map;
     save := slice inputs 0 (Some (- SAVE_THRESHOLD));
     em := toString episode +:+ toString map |}.

(** The name of the cache entry of a job, and of the entry it resumes
    from. *)
Definition cacheKey (j : Job) : string := em j +:+ inputs j.
Definition saveKey (j : Job) : string := em j +:+ save j.

Definition outputPathWEBP (j : Job) : string :=
  "cache/" +:+ cacheKey j +:+ "/output.webp".

(** A string is truthy when it is not empty. *)
Definition truthy (s : string) : bool := negb (String.eqb s "").

(** What the engine does in one run: whether the promise rejects, what it
    printed, and which files it left in the scratch directory. *)
Record Doom : Type := {
  doom_exit : option Err;
  doom_stdout : string;
  doom_render : bool;
  doom_save : bool
}.

(** What the outside world decides during one invocation of the handler;
    [None] for an operation means that it succeeds. *)
Record Oracle : Type := {
  o_tmpnames : list string;  (* the names [createTempDir] draws, in order *)
  o_birth : Z;               (* creation time of a directory made now *)
  o_write_demo : option Err;
  o_doom : Doom;
  o_write_concat : option Err;
  o_ffconcat : option Err;
  o_fftrim : option Err;
  o_ffwebp : option Err;
  o_now : string;            (* [new Date().toISOString()] *)
  o_mapinfo : bool;          (* the transition image of the level exists *)
  o_disk : Disk
}.

(** Lines 76-82: [createTempDir]; the recursion ends at the first name that
    is free, and does not end when every name drawn is taken. *)
Fixpoint createTempDir (names : list string) (birth : Z) (w : World)
    : option (string * World) :=
  match names with
  | [] => None
  | name :: names' =>
      if exists_entry name (tmp w) then createTempDir names' birth w
      else Some (name, emit (EvMkdir Tmp name birth) w)
  end.

(** The variables [err], [err2] and [stdout] of the handler. *)
Record Locals : Type := {
  err : option Err;
  err2 : option Err;
  stdout : string
}.

(** Line 283: the demo of the newest tokens is written to the scratch
    directory. *)
Definition forging (o : Oracle) (j : Job) (t : string) (w : World)
    : option Err * World :=
  match forgeDemo (slice (inputs j) (- SAVE_THRESHOLD) None)
          (episode j) (map j) with
  | None => (Some (plain_error "TypeError"), w)
  | Some _ =>
      match o_write_demo o with
      | Some e => (Some e, w)
      | None => (None, emit (EvWrite Tmp t "demo.lmp") w)
      end
  end.

(** Lines 285-300: the engine runs; a rejection is kept in [err] and the
    output of the engine is read from it. *)
Definition simulating (o : Oracle) (t : string) (w : World)
    : Locals * option Err * World :=
  let d := o_doom o in
  let w := if doom_render d then emit (EvWrite Tmp t "render.mp4") w else w in
  let w := if doom_save d then emit (EvWrite Tmp t "doomsav0.dsg") w else w in
  match doom_exit d with
  | None => ({| err := None; err2 := None; stdout := doom_stdout d |}, None, w)
  | Some e =>
      match e_stdout e with
      | Some out => ({| err := Some e; err2 := None; stdout := out |}, None, w)
      | None =>
          ({| err := Some e; err2 := None; stdout := "" |},
           Some (plain_error "TypeError"), w)
      end
  end.

(** Lines 304-313: the archival video of the entry. *)
Definition concatenating (o : Oracle) (j : Job) (t : string) (w : World)
    : option Err * World :=
  if truthy (save j) then
    match o_write_concat o with
    | Some e => (Some e, w)
    | None =>
        let w := emit (EvWrite Tmp t "concat.txt") w in
        match o_ffconcat o with
        | Some e => (Some e, w)
        | None =>
            let w := emit (EvWrite Tmp t "concat.mp4") w in
            match o_fftrim o with
            | Some e => (Some e, w)
            | None => (None, emit (EvWrite Cache (cacheKey j) "output.mp4") w)
            end
        end
    end
  else if has_file t "render.mp4" (tmp w)
  then (None, emit (EvRename t "render.mp4" (cacheKey j) "output.mp4") w)
  else (Some (plain_error "ENOENT"), w).

(** Lines 326-327: the failure that is taken for a lost race. *)
Definition raceCollision (e : Err) : bool :=
  match e_stdout e with
  | None => false
  | Some out => includes out "already exists. Overwrite?"
  end.

(** Lines 315-328: the preview of the entry. *)
Definition transcoding (o : Oracle) (j : Job) (w : World)
    : option Err * World :=
  match o_ffwebp o with
  | None => (None, emit (EvWrite Cache (cacheKey j) "output.webp") w)
  | Some e => if raceCollision e then (None, w) else (Some e, w)
  end.

(** Line 335: the snapshot moves from the scratch directory into the
    entry. *)
Definition promoting (j : Job) (t : string) (w : World)
    : option Err * World :=
  if has_file t "doomsav0.dsg" (tmp w)
  then (None, emit (EvRename t "doomsav0.dsg" (cacheKey j) "doomsav0.dsg") w)
  else (Some (plain_error "ENOENT"), w).

Definition no_locals : Locals := {| err := None; err2 := None; stdout := "" |}.

Definition set_err2 (e : Err) (l : Locals) : Locals :=
  {| err := err l; err2 := Some e; stdout := stdout l |}.

(** Lines 280-335: the [try] block; the second component is the exception
    it ends with, if any. *)
Definition tryBlock (o : Oracle) (j : Job) (t : string) (w : World)
    : Locals * option Err * World :=
  match forging o j t w with
  | (Some e, w) => (no_locals, Some e, w)
  | (None, w) =>
      match simulating o t w with
      | (l, Some e, w) => (l, Some e, w)
      | (l, None, w) =>
          match concatenating o j t w with
          | (Some e, w) => (set_err2 e l, Some e, w)
          | (None, w) =>
              match transcoding o j w with
              | (Some e, w) => (set_err2 e l, Some e, w)
              | (None, w) =>
                  match promoting j t w with
                  | (Some e, w) => (l, Some e, w)
                  | (None, w) => (l, None, w)
                  end
              end
          end
      end
  end.

(** Lines 340-342: the record written to the error log. *)
Definition err_str (e : option Err) : string :=
  match e with
  | None => ""
  | Some e =>
      match e_stdout e, e_stderr e with
      | Some out, Some errout => out +:+ nl +:+ errout
      | _, _ => e_message e
      end
  end.

Definition errstr (o : Oracle) (retry : bool) (l : Locals) : string :=
  "[" +:+ o_now o +:+ "] retry = " +:+ (if retry then "true" else "false")
  +:+ nl +:+ err_str (err l) +:+ nl +:+ err_str (err2 l) +:+ nl +:+ nl.

Definition error_response : Response :=
  {| body := BFile "messages/error.webp"; status := 200;
     headers := NOCACHE_HEADERS |}.

(** Lines 353-357: the [finally] block, in runs where [fs.rm(tmp)]
    succeeds; [finallyBlock_io] has its rejection. *)
Definition finallyBlock (o : Oracle) (t : string) (w : World)
    : Outcome unit * World :=
  clearOldCache (o_disk o) (emit (EvRm Tmp t) w).

(** Lines 359-367: the transition image and the statistics, in runs where
    [fs.copyFile] succeeds, which needs the directory of the entry;
    [epilogue_io] has its rejection. *)
Definition epilogue (o : Oracle) (j : Job) (l : Locals) (w : World) : World :=
  let w :=
    if includes (stdout l) "DOOMCORD G_ExitLevel" && o_mapinfo o
    then emit (EvWrite Cache (cacheKey j) "output.webp") w
    else w in
  let w :=
    {| cache := cache w; tmp := tmp w; errors_log := errors_log w;
       stats_txt := stats_txt w; requestCount := requestCount w;
       renderCount := renderCount w + 1; trace := trace w |} in
  emit (EvStats ("requests: " +:+ toString (JInt (requestCount w)) +:+ nl
                 +:+ "renders: " +:+ toString (JInt (renderCount w)))) w.

Definition count_request (w : World) : World :=
  {| cache := cache w; tmp := tmp w; errors_log := errors_log w;
     stats_txt := stats_txt w; requestCount := requestCount w + 1;
     renderCount := renderCount w; trace := trace w |}.

Definition webp_response (j : Job) : Response :=
  {| body := BFile (outputPathWEBP j); status := 200;
     headers := NOCACHE_HEADERS |}.

(** Lines 267-270: the directory of the entry is created when missing, in
    runs where [fs.mkdir(cachePath)] succeeds; [ensureDir_io] has its
    rejection. *)
Definition ensureDir (o : Oracle) (j : Job) (w : World) : World :=
  if negb (exists_entry (cacheKey j) (cache w))
  then emit (EvMkdir Cache (cacheKey j) (o_birth o)) w
  else w.

(** Lines 278-357: the [try] statement with its [catch] and [finally]
    blocks.  [again] is the handler called once more with
    [retry = true].  The result is [Ret (Some r)] when the handler returns
    [r] from the [catch] block and [Ret None] when control leaves the
    statement at its end.  This is the statement in runs where
    [fs.appendFile] and [fs.rm(tmp)] succeed; [render_io] has their
    rejections. *)
Definition render (o : Oracle) (retry : bool) (j : Job) (t : string)
    (again : World -> Outcome Response * World) (w : World)
    : Outcome (option Response * Locals) * World :=
  let '(l, thrown, w) := tryBlock o j t w in
  let '(completion, w) :=
    match thrown with
    | None => (Ret None, w)
    | Some _ =>
        let w := emit (EvAppendLog (errstr o retry l)) w in
        if retry then (Ret (Some error_response), w)
        else
          match again w with
          | (Ret r, w) => (Ret (Some r), w)
          | (Throw e, w) => (Throw e, w)
          | (NoFuel, w) => (NoFuel, w)
          end
    end in
  match finallyBlock o t w with
  | (Throw e, w) => (Throw e, w)
  | (NoFuel, w) => (NoFuel, w)
  | (Ret _, w) =>
      match completion with
      | Ret r => (Ret (r, l), w)
      | Throw e => (Throw e, w)
      | NoFuel => (NoFuel, w)
      end
  end.

(** [handleRequest(req, retry)]; [env retry] is the oracle of the
    invocation with that flag, [fuel] bounds the depth of the recursion.
    The calls outside of the five stages ([fs.mkdir], [fs.rm],
    [fs.appendFile], [fs.copyFile]) succeed here; [handleRequest_io] below
    has their rejections, and [handleRequest_io_agrees] relates the two. *)
Fixpoint handleRequest (fuel : nat) (env : bool -> Oracle) (req : Request)
    (retry : bool) (w : World) : Outcome Response * World :=
  match fuel with
  | O => (NoFuel, w)
  | S fuel' =>
      let o := env retry in
      if negb (checkRequestOrigin req)
      then (Ret {| body := BText "Forbidden"; status := 403; headers := [] |}, w)
      else
        let w := count_request w in
        let path := pathname req in
        match staticResponse path with
        | Some r => (Ret r, w)
        | None =>
            let j := job_of path in
            if negb (has_file (cacheKey j) "output.webp" (cache w)) then
              match createTempDir (o_tmpnames o) (o_birth o) w with
              | None => (NoFuel, w)
              | Some (t, w) =>
                  if truthy (save j)
                     && negb (has_file (saveKey j) "doomsav0.dsg" (cache w))
                  then
                    (Ret {| body := BText ""; status := 500;
                            headers := NOCACHE_HEADERS |},
                     emit (EvRm Tmp t) w)
                  else
                    match render o retry j t
                            (handleRequest fuel' env req true)
                            (ensureDir o j w) with
                    | (Ret (Some r, _), w) => (Ret r, w)
                    | (Ret (None, l), w) =>
                        (Ret (webp_response j), epilogue o j l w)
                    | (Throw e, w) => (Throw e, w)
                    | (NoFuel, w) => (NoFuel, w)
                    end
              end
            else (Ret (webp_response j), w)
        end
  end.

(** The world in which the [try] block of an invocation starts, with the
    scratch directory it uses; [None] when the invocation answers before
    (static answer, cache hit, continuity failure). *)
Definition entersTry (o : Oracle) (req : Request) (w : World)
    : option (string * World) :=
  let j := job_of (pathname req) in
  match staticResponse (pathname req) with
  | Some _ => None
  | None =>
      if has_file (cacheKey j) "output.webp" (cache w) then None
      else
        match createTempDir (o_tmpnames o) (o_birth o) (count_request w) with
        | None => None
        | Some (t, w1) =>
            if truthy (save j)
               && negb (has_file (saveKey j) "doomsav0.dsg" (cache w1))
            then None
            else Some (t, ensureDir o j w1)
        end
  end.

Definition continuity_response : Response :=
  {| body := BText ""; status := 500; headers := NOCACHE_HEADERS |}.

(** ** The handler with the failures of its unguarded calls *)

(** The file-system calls that the handler makes outside of the five
    stages can reject as well; [None] for a call means that it succeeds. *)
Record Faults : Type := {
  f_mktmp : option Err;      (* line 80, [fs.mkdir(path)] *)
  f_rm : option Err;         (* lines 263 and 355, [fs.rm(tmp)] *)
  f_mkdir : option Err;      (* line 269, [fs.mkdir(cachePath)] *)
  f_append : option Err;     (* line 346, [fs.appendFile] *)
  f_copy : option Err        (* line 363, [fs.copyFile] *)
}.

Definition no_faults : Faults :=
  {| f_mktmp := None; f_rm := None; f_mkdir := None; f_append := None;
     f_copy := None |}.

(** Lines 76-82 with the rejection of [fs.mkdir]. *)
Fixpoint createTempDir_io (f : Faults) (names : list string) (birth : Z)
    (w : World) : Outcome string * World :=
  match names with
  | [] => (NoFuel, w)
  | name :: names' =>
      if exists_entry name (tmp w) then createTempDir_io f names' birth w
      else
        match f_mktmp f with
        | Some e => (Throw e, w)
        | None => (Ret name, emit (EvMkdir Tmp name birth) w)
        end
  end.

(** Lines 267-270 with the rejection of [fs.mkdir]. *)
Definition ensureDir_io (f : Faults) (o : Oracle) (j : Job) (w : World)
    : Outcome unit * World :=
  if negb (exists_entry (cacheKey j) (cache w))
  then
    match f_mkdir f with
    | Some e => (Throw e, w)
    | None => (Ret tt, emit (EvMkdir Cache (cacheKey j) (o_birth o)) w)
    end
  else (Ret tt, w).

(** Lines 353-357 with the rejection of [fs.rm]: [clearOldCache] is not
    reached then. *)
Definition finallyBlock_io (f : Faults) (o : Oracle) (t : string) (w : World)
    : Outcome unit * World :=
  match f_rm f with
  | Some e => (Throw e, w)
  | None => clearOldCache (o_disk o) (emit (EvRm Tmp t) w)
  end.

(** Lines 359-367 with the rejection of [fs.copyFile], which also rejects
    when the directory of the entry is gone. *)
Definition epilogue_io (f : Faults) (o : Oracle) (j : Job) (l : Locals)
    (w : World) : Outcome unit * World :=
  if includes (stdout l) "DOOMCORD G_ExitLevel" && o_mapinfo o
  then
    if negb (exists_entry (cacheKey j) (cache w))
    then (Throw (plain_error "ENOENT"), w)
    else
      match f_copy f with
      | Some e => (Throw e, w)
      | None => (Ret tt, epilogue o j l w)
      end
  else (Ret tt, epilogue o j l w).

(** Lines 278-357 with the rejections of [fs.appendFile] and [fs.rm]: an
    exception of the [catch] block is the completion of the statement
    unless the [finally] block throws itself. *)
Definition render_io (f : Faults) (o : Oracle) (retry : bool) (j : Job)
    (t : string) (again : World -> Outcome Response * World) (w : World)
    : Outcome (option Response * Locals) * World :=
  let '(l, thrown, w) := tryBlock o j t w in
  let '(completion, w) :=
    match thrown with
    | None => (Ret None, w)
    | Some _ =>
        match f_append f with
        | Some e => (Throw e, w)
        | None =>
            let w := emit (EvAppendLog (errstr o retry l)) w in
            if retry then (Ret (Some error_response), w)
            else
              match again w with
              | (Ret r, w) => (Ret (Some r), w)
              | (Throw e, w) => (Throw e, w)
              | (NoFuel, w) => (NoFuel, w)
              end
        end
    end in
  match finallyBlock_io f o t w with
  | (Throw e, w) => (Throw e, w)
  | (NoFuel, w) => (NoFuel, w)
  | (Ret _, w) =>
      match completion with
      | Ret r => (Ret (r, l), w)
      | Throw e => (Throw e, w)
      | NoFuel => (NoFuel, w)
      end
  end.

(** [handleRequest(req, retry)] with these rejections; [faults retry]
    holds those of the invocation with that flag. *)
Fixpoint handleRequest_io (fuel : nat) (env : bool -> Oracle)
    (faults : bool -> Faults) (req : Request) (retry : bool) (w : World)
    : Outcome Response * World :=
  match fuel with
  | O => (NoFuel, w)
  | S fuel' =>
      let o := env retry in
      let f := faults retry in
      if negb (checkRequestOrigin req)
      then (Ret {| body := BText "Forbidden"; status := 403; headers := [] |}, w)
      else
        let w := count_request w in
        let path := pathname req in
        match staticResponse path with
        | Some r => (Ret r, w)
        | None =>
            let j := job_of path in
            if negb (has_file (cacheKey j) "output.webp" (cache w)) then
              match createTempDir_io f (o_tmpnames o) (o_birth o) w with
              | (NoFuel, w) => (NoFuel, w)
              | (Throw e, w) => (Throw e, w)
              | (Ret t, w) =>
                  if truthy (save j)
                     && negb (has_file (saveKey j) "doomsav0.dsg" (cache w))
                  then
                    match f_rm f with
                    | Some e => (Throw e, w)
                    | None =>
                        (Ret {| body := BText ""; status := 500;
                                headers := NOCACHE_HEADERS |},
                         emit (EvRm Tmp t) w)
                    end
                  else
                    match ensureDir_io f o j w with
                    | (NoFuel, w) => (NoFuel, w)
                    | (Throw e, w) => (Throw e, w)
                    | (Ret _, w) =>
                        match render_io f o retry j t
                                (handleRequest_io fuel' env faults req true)
                                w with
                        | (Ret (Some r, _), w) => (Ret r, w)
                        | (Ret (None, l), w) =>
                            match epilogue_io f o j l w with
                            | (Ret _, w) => (Ret (webp_response j), w)
                            | (Throw e, w) => (Throw e, w)
                            | (NoFuel, w) => (NoFuel, w)
                            end
                        | (Throw e, w) => (Throw e, w)
                        | (NoFuel, w) => (NoFuel, w)
                        end
                    end
              end
            else (Ret (webp_response j), w)
        end
  end.

(** ** Vocabulary of the statements *)

(** Creation-time order on candidates. *)
Definition older (a b : Candidate) : Prop := c_birthtime a <= c_birthtime b.

(** The cache root after the deletion of the candidates [del]. *)
Definition rm_all (del : list Candidate) (l : Listing) : Listing :=
  fold_left (fun l c => rm_rf (fullPath c) l) del l.

(** [frame w w']: the counters and the error log are the same in [w] and
    [w']. *)
Definition frame (w w' : World) : Prop :=
  requestCount w' = requestCount w /\
  renderCount w' = renderCount w /\
  errors_log w' = errors_log w.

Definition quiet (ev : Event) : bool :=
  match ev with
  | EvAppendLog _ => false
  | _ => true
  end.

(** The effects of the stages that precede the transcoding: files of the
    scratch directory and the archival video of the entry. *)
Definition early_event (ev : Event) : bool :=
  match ev with
  | EvWrite Tmp _ _ => true
  | EvWrite Cache _ file => String.eqb file "output.mp4"
  | EvRename _ _ _ file' => String.eqb file' "output.mp4"
  | _ => false
  end.

(** [early w w']: [w'] is reached from [w] by early effects only. *)
Definition early (w w' : World) : Prop :=
  exists evs, forallb early_event evs = true /\ w' = replay evs w.

(** The test of the specification for a numeric prefix. *)
Definition two_digits (s : string) : bool :=
  match s with
  | String c1 (String c2 _) => is_digit c1 && is_digit c2
  | _ => false
  end.

(** ** Concrete worlds *)

Definition GB : Z := 1024 * 1024 * 1024.

Definition empty_world : World :=
  {| cache := []; tmp := []; errors_log := []; stats_txt := None;
     requestCount := 0; renderCount := 0; trace := [] |}.

(** A disk with plenty of room and no failing call. *)
Definition roomy_disk : Disk :=
  {| d_free := fun _ => Some (4 * GB);
     d_readdir_fails := false;
     d_stat_fails := fun _ => false;
     d_rm_fails := fun _ => false |}.

(** A disk that stays at [free] bytes and refuses to delete [stuck]. *)
Definition tight_disk (free : Z) (stuck : string) : Disk :=
  {| d_free := fun _ => Some free;
     d_readdir_fails := false;
     d_stat_fails := fun _ => false;
     d_rm_fails := String.eqb stuck |}.

(** A disk whose probe throws. *)
Definition unreadable_disk : Disk :=
  {| d_free := fun _ => None;
     d_readdir_fails := false;
     d_stat_fails := fun _ => false;
     d_rm_fails := fun _ => false |}.

Definition complete_entry (birth : Z) : Entry :=
  {| isDirectory := true; birthtime := birth;
     files := ["doomsav0.dsg"; "output.webp"; "output.mp4"] |}.

(** A cache with one shallow entry and two deep ones. *)
Definition three_entries : Listing :=
  [("11www", complete_entry 5);
   ("11wwwwwwww", complete_entry 10);
   ("11wwwwwwwd", complete_entry 20)].

Definition world_of (entries : Listing) : World :=
  {| cache := entries; tmp := []; errors_log := []; stats_txt := None;
     requestCount := 0; renderCount := 0; trace := [] |}.

(** An engine run that leaves a video and a snapshot, and one that leaves
    nothing. *)
Definition good_run : Doom :=
  {| doom_exit := None; doom_stdout := "";
     doom_render := true; doom_save := true |}.

Definition empty_run : Doom :=
  {| doom_exit := Some {| e_message := "ShellError"; e_stdout := Some "";
                          e_stderr := Some "" |};
     doom_stdout := ""; doom_render := false; doom_save := false |}.

Definition oracle_with (t : string) (d : Doom) (webp : option Err) : Oracle :=
  {| o_tmpnames := [t]; o_birth := 100; o_write_demo := None; o_doom := d;
     o_write_concat := None; o_ffconcat := None; o_fftrim := None;
     o_ffwebp := webp; o_now := "2025-01-01T00:00:00.000Z";
     o_mapinfo := false; o_disk := roomy_disk |}.

(** Every attempt succeeds; every attempt fails. *)
Definition fair_env (retry : bool) : Oracle :=
  oracle_with (if retry then "tmp2" else "tmp1") good_run None.

Definition foul_env (retry : bool) : Oracle :=
  oracle_with (if retry then "tmp2" else "tmp1") empty_run None.

(** The transcoder failures of the two kinds. *)
Definition race_error : Err :=
  {| e_message := "ShellError";
     e_stdout := Some "File 'output.webp' already exists. Overwrite? [y/N]";
     e_stderr := Some "" |}.

Definition codec_error : Err :=
  {| e_message := "ShellError"; e_stdout := Some "Unknown encoder";
     e_stderr := Some "" |}.

(** The engine leaves a video and no snapshot. *)
Definition nosave_env (retry : bool) : Oracle :=
  oracle_with (if retry then "tmp2" else "tmp1")
    {| doom_exit := None; doom_stdout := "";
       doom_render := true; doom_save := false |} None.

(** ** Vocabulary of the further properties *)

Definition within (lo hi : Z) (x : JNum) : Prop :=
  match x with
  | JNaN => True
  | JInt z => lo <= z <= hi
  end.

Definition or_placeholder (s : string) : string :=
  if String.eqb s "" then "e" else s.

Definition healthy (d : Disk) : Prop :=
  exists free, d_free d 0 = Some free /\
               (CACHE_CLEAR_HIGH_THRESHOLD < free \/ d_readdir_fails d = false).

(** [scratch t w w']: apart from the directory [t], the scratch root is the
    same in [w] and [w']. *)
Definition scratch (t : string) (w w' : World) : Prop :=
  rm_rf t (tmp w') = rm_rf t (tmp w).

Definition accounted (k : Z) (w w' : World) : Prop :=
  (exists recs : list string,
      errors_log w' = errors_log w ++ recs /\ Z.of_nat (length recs) <= k) /\
  requestCount w <= requestCount w' <= requestCount w + k /\
  renderCount w <= renderCount w' <= renderCount w + 1.

Definition resolved (o : Oracle) (out : string) : Oracle :=
  {| o_tmpnames := o_tmpnames o; o_birth := o_birth o;
     o_write_demo := o_write_demo o;
     o_doom := {| doom_exit := None; doom_stdout := out;
                  doom_render := doom_render (o_doom o);
                  doom_save := doom_save (o_doom o) |};
     o_write_concat := o_write_concat o; o_ffconcat := o_ffconcat o;
     o_fftrim := o_fftrim o; o_ffwebp := o_ffwebp o; o_now := o_now o;
     o_mapinfo := o_mapinfo o; o_disk := o_disk o |}.

Fixpoint count_char (c : ascii) (s : string) : nat :=
  match s with
  | EmptyString => 0%nat
  | String x r => ((if Ascii.eqb x c then 1 else 0) + count_char c r)%nat
  end.

(** An engine run that rejects although it left a video and a snapshot. *)
Definition noisy_run : Doom :=
  {| doom_exit := Some {| e_message := "ShellError";
                          e_stdout := Some "DOOMCORD started";
                          e_stderr := Some "" |};
     doom_stdout := ""; doom_render := true; doom_save := true |}.

Definition noisy_env (retry : bool) : Oracle :=
  oracle_with (if retry then "tmp2" else "tmp1") noisy_run None.

Definition quiet_env (retry : bool) : Oracle :=
  resolved (noisy_env retry) "DOOMCORD started".

(** A full disk that has 3 GB free after the first deletion. *)
Definition relieved_disk : Disk :=
  {| d_free := fun k => match k with O => Some 0 | S _ => Some (3 * GB) end;
     d_readdir_fails := false;
     d_stat_fails := fun _ => false;
     d_rm_fails := fun _ => false |}.

(** A world in which the scratch name [tmp1] is taken. *)
Definition busy_world : World :=
  {| cache := [];
     tmp := [("tmp1", {| isDirectory := true; birthtime := 1; files := [] |})];
     errors_log := []; stats_txt := None;
     requestCount := 0; renderCount := 0; trace := [] |}.

(** A path of 237 characters. *)
Definition long_path : string :=
  "/" +:+ string_of_list_ascii (replicate 230 "w"%char) +:+ "i.webp".

(** ** Vocabulary of the handler with failures *)

(** The calls that decide whether a scratch directory stays behind. *)
Definition tidy (f : Faults) : Prop := f_rm f = None /\ f_mkdir f = None.

(** No call around the [try] block fails. *)
Definition calm (f : Faults) : Prop :=
  f_mktmp f = None /\ f_rm f = None /\ f_mkdir f = None /\ f_append f = None.

(** The transition image is not copied, or the copy works and the disk has
    room enough for the clean-up to delete nothing. *)
Definition copy_ok (f : Faults) (o : Oracle) : Prop :=
  o_mapinfo o = false \/
  (f_copy f = None /\
   exists free, d_free (o_disk o) 0 = Some free /\
                CACHE_CLEAR_HIGH_THRESHOLD < free).

(** A name of [names] is free in the scratch root of [w]. *)
Definition fresh_in (names : list string) (w : World) : Prop :=
  exists n, In n names /\ exists_entry n (tmp w) = false.

(** The answers of the handler. *)
Definition answer_of (req : Request) (r : Response) : Prop :=
  staticResponse (pathname req) = Some r \/
  r = continuity_response \/
  r = webp_response (job_of (pathname req)) \/
  r = error_response.

(** The oracle [o] with another verdict of the transcoder. *)
Definition with_ffwebp (webp : option Err) (o : Oracle) : Oracle :=
  {| o_tmpnames := o_tmpnames o; o_birth := o_birth o;
     o_write_demo := o_write_demo o; o_doom := o_doom o;
     o_write_concat := o_write_concat o; o_ffconcat := o_ffconcat o;
     o_fftrim := o_fftrim o; o_ffwebp := webp; o_now := o_now o;
     o_mapinfo := o_mapinfo o; o_disk := o_disk o |}.

(** Every attempt fails and the disk cannot be probed. *)
Definition stranded_env (retry : bool) : Oracle :=
  {| o_tmpnames := [if retry then "tmp2" else "tmp1"]; o_birth := 100;
     o_write_demo := None; o_doom := empty_run;
     o_write_concat := None; o_ffconcat := None; o_fftrim := None;
     o_ffwebp := None; o_now := "2025-01-01T00:00:00.000Z";
     o_mapinfo := false; o_disk := unreadable_disk |}.

(** A failure that carries no output. *)
Definition spawn_error : Err := plain_error "ENOENT: ffmpeg".

(** [fs.mkdir(cachePath)] is refused. *)
Definition readonly_cache (retry : bool) : Faults :=
  {| f_mktmp := None; f_rm := None;
     f_mkdir := Some (plain_error "EACCES"); f_append := None;
     f_copy := None |}.

(** [fs.appendFile] is refused. *)
Definition readonly_log (retry : bool) : Faults :=
  {| f_mktmp := None; f_rm := None; f_mkdir := None;
     f_append := Some (plain_error "EACCES"); f_copy := None |}.

(** The engine reports the end of the level, the transition image of the
    level exists, and the disk is full. *)
Definition exit_env (retry : bool) : Oracle :=
  {| o_tmpnames := [if retry then "tmp2" else "tmp1"]; o_birth := 100;
     o_write_demo := None;
     o_doom := {| doom_exit := None; doom_stdout := "DOOMCORD G_ExitLevel";
                  doom_render := true; doom_save := true |};
     o_write_concat := None; o_ffconcat := None; o_fftrim := None;
     o_ffwebp := None; o_now := "2025-01-01T00:00:00.000Z";
     o_mapinfo := true; o_disk := tight_disk 0 "" |}.

(** A cache that holds the sequence of five tokens. *)
Definition deep_world : World := world_of [("11wwwww", complete_entry 5)].

(** * Properties of [forgeDemo] *)

Lemma list_inserts_exact {A} (t old pre post : list A) (off : nat) :
  length pre = off -> length old = length t ->
  list_inserts off t (pre ++ old ++ post) = pre ++ t ++ post.
Proof.
  intros <- Hlen.
  replace (length pre) with (length pre + 0)%nat by lia.
  rewrite list_inserts_app_r. f_equal.
  now apply list_inserts_0_r.
Qed.

Lemma token_cases (c : ascii) :
  is_token c = true ->
  c = "w"%char \/ c = "a"%char \/ c = "s"%char \/ c = "d"%char \/
  c = "q"%char \/ c = "e"%char.
Proof.
  destruct c as [[] [] [] [] [] [] [] []]; simpl; intros H;
    try discriminate H; auto 10.
Qed.

Lemma tic_of_token (c : ascii) :
  is_token c = true -> tic_of c = Some (tick_spec c) /\ length (tick_spec c) = 4%nat.
Proof.
  intros H. destruct (token_cases c H) as [-> | [-> | [-> | [-> | [-> | ->]]]]];
    split; reflexivity.
Qed.

Lemma set_tics_fill (t : list Z) (i : nat) (k : nat) :
  length t = 4%nat ->
  forall (j0 : nat) (pre done old post : list Z),
    length pre = (13 + 60 * i)%nat ->
    length done = (4 * j0)%nat ->
    length old = (4 * k)%nat ->
    set_tics (Some t) i (seq j0 k) (pre ++ done ++ old ++ post)
    = Some (pre ++ done ++ concat (replicate k t) ++ post).
Proof.
  intros Ht. induction k as [|k IH]; intros j0 pre done old post Hpre Hdone Hold.
  - destruct old; [reflexivity | simpl in Hold; lia].
  - cbn [seq set_tics typed_set].
    assert (Hsplit : old = take 4 old ++ drop 4 old) by (symmetry; apply take_drop).
    assert (Hl4 : length (take 4 old) = 4%nat) by (rewrite length_take; lia).
    assert (Hld : length (drop 4 old) = (4 * k)%nat) by (rewrite length_drop; lia).
    rewrite Hsplit.
    destruct (Nat.leb_spec (13 + i * INPUT_DURATION * 4 + j0 * 4 + length t)
                (length (pre ++ done ++ (take 4 old ++ drop 4 old) ++ post))) as [_|Hbad].
    2:{ rewrite !length_app in Hbad. unfold INPUT_DURATION in Hbad. lia. }
    replace (pre ++ done ++ (take 4 old ++ drop 4 old) ++ post)
      with ((pre ++ done) ++ take 4 old ++ (drop 4 old ++ post))
      by (now rewrite <- !app_assoc).
    rewrite list_inserts_exact.
    2:{ rewrite length_app. unfold INPUT_DURATION. lia. }
    2:{ lia. }
    replace ((pre ++ done) ++ t ++ drop 4 old ++ post)
      with (pre ++ (done ++ t) ++ drop 4 old ++ post)
      by (now rewrite <- !app_assoc).
    rewrite (IH (S j0) pre (done ++ t) (drop 4 old) post); try assumption.
    2:{ rewrite length_app. lia. }
    cbn [replicate concat]. now rewrite <- !app_assoc.
Qed.

Lemma ticks_spec_cons c cs :
  ticks_spec (c :: cs) = concat (replicate 15 (tick_spec c)) ++ ticks_spec cs.
Proof. reflexivity. Qed.

Lemma ticks_spec_app cs1 cs2 :
  ticks_spec (cs1 ++ cs2) = ticks_spec cs1 ++ ticks_spec cs2.
Proof. unfold ticks_spec. now rewrite map_app, concat_app. Qed.

Lemma length_concat_replicate {A} (n : nat) (t : list A) :
  length (concat (replicate n t)) = (n * length t)%nat.
Proof. induction n; simpl; [reflexivity | rewrite length_app; lia]. Qed.

Lemma length_ticks_spec cs :
  Forall (fun c => is_token c = true) cs ->
  length (ticks_spec cs) = (60 * length cs)%nat.
Proof.
  induction 1 as [|c cs Hc _ IH]; [reflexivity|].
  rewrite ticks_spec_cons, length_app, length_concat_replicate, IH.
  destruct (tic_of_token c Hc) as [_ ->]. simpl. lia.
Qed.

Lemma forge_loop_fill (rest : string) :
  tokens_only rest = true ->
  forall (i : nat) (pre post : list Z),
    length pre = (13 + 60 * i)%nat ->
    forge_loop i rest (pre ++ replicate (60 * String.length rest) 0 ++ post)
    = Some (pre ++ ticks_spec (list_ascii_of_string rest) ++ post).
Proof.
  induction rest as [|c rest IH]; intros Htok i pre post Hpre.
  - reflexivity.
  - cbn [tokens_only] in Htok. apply andb_prop in Htok as [Hc Hrest].
    destruct (tic_of_token c Hc) as [Htic Hlen].
    cbn [forge_loop String.length list_ascii_of_string]. rewrite Htic.
    replace (60 * S (String.length rest))%nat
      with (60 + 60 * String.length rest)%nat by lia.
    rewrite replicate_add, <- app_assoc.
    pose proof (set_tics_fill (tick_spec c) i 15 Hlen 0 pre []
                  (replicate 60 0) (replicate (60 * String.length rest) 0 ++ post))
      as Hfill.
    cbn [app] in Hfill. unfold INPUT_DURATION. rewrite Hfill; try assumption; try reflexivity.
    replace (pre ++ concat (replicate 15 (tick_spec c))
                 ++ replicate (60 * String.length rest) 0 ++ post)
      with ((pre ++ concat (replicate 15 (tick_spec c)))
                 ++ replicate (60 * String.length rest) 0 ++ post)
      by (now rewrite <- !app_assoc).
    rewrite IH; try assumption.
    + rewrite ticks_spec_cons. now rewrite <- !app_assoc.
    + rewrite length_app, length_concat_replicate, Hlen. lia.
Qed.

Lemma append_cons (c : ascii) (s1 s2 : string) :
  String c s1 +:+ s2 = String c (s1 +:+ s2).
Proof. reflexivity. Qed.

Lemma append_nil_l (s : string) : "" +:+ s = s.
Proof. reflexivity. Qed.

Lemma append_assoc (s1 s2 s3 : string) :
  (s1 +:+ s2) +:+ s3 = s1 +:+ (s2 +:+ s3).
Proof.
  induction s1 as [|c s1 IH]; [reflexivity|].
  rewrite !append_cons. now rewrite IH.
Qed.

Lemma replaceAll_expand (s : string) :
  list_ascii_of_string (replaceAll_char "e" "eee" s) = expand_spec s.
Proof.
  induction s as [|c s IH]; [reflexivity|].
  cbn [replaceAll_char expand_spec].
  destruct (Ascii.eqb c "e"); rewrite ?append_cons, ?append_nil_l; cbn [list_ascii_of_string]; now rewrite IH.
Qed.

Lemma replaceAll_tokens (s : string) :
  tokens_only s = true -> tokens_only (replaceAll_char "e" "eee" s) = true.
Proof.
  induction s as [|c s IH]; [reflexivity|].
  cbn [tokens_only replaceAll_char]. intros H. apply andb_prop in H as [Hc Hs].
  destruct (Ascii.eqb c "e"); rewrite ?append_cons, ?append_nil_l; cbn [tokens_only is_token]; rewrite IH by assumption;
    [reflexivity|].
  now rewrite Hc.
Qed.

Lemma init_buffer (k : nat) (episode map : JNum) :
  let buffer := new_Int8Array (14 + k) in
  let buffer := store 0 109 buffer in
  let buffer := store 1 0 buffer in
  let buffer := <[2%nat := toInt8 episode]> buffer in
  let buffer := <[3%nat := toInt8 map]> buffer in
  let buffer := store 4 0 buffer in
  let buffer := store 5 0 buffer in
  let buffer := store 6 0 buffer in
  let buffer := store 7 0 buffer in
  let buffer := store 8 0 buffer in
  let buffer := store 9 1 buffer in
  let buffer := store 10 0 buffer in
  let buffer := store 11 0 buffer in
  let buffer := store 12 0 buffer in
  store (length buffer - 1) 128 buffer
  = header_spec (toInt8 episode) (toInt8 map) ++ replicate k 0 ++ [-128].
Proof.
  cbv zeta. unfold new_Int8Array, store.
  replace (14 + k)%nat with (13 + (k + 1))%nat by lia.
  rewrite replicate_add. cbn [replicate app insert list_insert].
  change (toInt8 (JInt 109)) with 109. change (toInt8 (JInt 0)) with 0.
  change (toInt8 (JInt 1)) with 1. change (toInt8 (JInt 128)) with (-128).
  cbn [length]. rewrite length_replicate.
  replace (S (S (S (S (S (S (S (S (S (S (S (S (S (k + 1))))))))))))) - 1)%nat
    with (13 + k)%nat by lia.
  unfold header_spec. rewrite replicate_add. cbn. repeat f_equal.
  replace k with (length (replicate k 0%Z) + 0)%nat at 1 by (rewrite length_replicate; lia).
  apply (insert_app_r (replicate k 0) [0] 0 (-128)).
Qed.

Lemma tokens_only_Forall (s : string) :
  tokens_only s = true ->
  Forall (fun c => is_token c = true) (list_ascii_of_string s).
Proof.
  induction s as [|c s IH]; cbn [tokens_only list_ascii_of_string]; intros H.
  - constructor.
  - apply andb_prop in H as [Hc Hs]. constructor; auto.
Qed.

Lemma length_list_ascii (s : string) :
  length (list_ascii_of_string s) = String.length s.
Proof. induction s; simpl; congruence. Qed.

Lemma forgeDemo_closed (inputs : string) (episode map : JNum) :
  tokens_only inputs = true ->
  forgeDemo inputs episode map
  = Some (header_spec (toInt8 episode) (toInt8 map)
            ++ ticks_spec (expand_spec inputs) ++ [-128]).
Proof.
  intros Htok. unfold forgeDemo. cbv zeta.
  pose proof (init_buffer (String.length (replaceAll_char "e" "eee" inputs)
                             * INPUT_DURATION * 4) episode map) as Hinit.
  cbv zeta in Hinit. rewrite Hinit. clear Hinit.
  replace (String.length (replaceAll_char "e" "eee" inputs) * INPUT_DURATION * 4)%nat
    with (60 * String.length (replaceAll_char "e" "eee" inputs))%nat
    by (unfold INPUT_DURATION; lia).
  rewrite forge_loop_fill.
  - now rewrite replaceAll_expand.
  - now apply replaceAll_tokens.
  - reflexivity.
Qed.

Lemma tick_in_ticks_spec (cs : list ascii) (i j : nat) (c : ascii) (post : list Z) :
  Forall (fun c => is_token c = true) cs ->
  cs !! i = Some c -> (j < 15)%nat ->
  take 4 (drop (60 * i + 4 * j) (ticks_spec cs ++ post)) = tick_spec c.
Proof.
  intros Hall Hi Hj.
  assert (Hc : is_token c = true).
  { rewrite Forall_forall in Hall. apply Hall. eapply list_elem_of_lookup_2; eauto. }
  destruct (tic_of_token c Hc) as [_ Hlen].
  pose proof (take_drop_middle cs i c Hi) as Hsplit.
  assert (Hpre : Forall (fun c => is_token c = true) (take i cs)) by now apply Forall_take.
  assert (Hli : length (take i cs) = i).
  { rewrite length_take. apply lookup_lt_Some in Hi. lia. }
  rewrite <- Hsplit, ticks_spec_app, ticks_spec_cons, <- !app_assoc.
  rewrite drop_app_add'.
  2:{ rewrite length_ticks_spec by assumption. lia. }
  replace 15%nat with (j + S (15 - S j))%nat by lia.
  rewrite replicate_add, concat_app. cbn [replicate concat]. rewrite <- !app_assoc.
  rewrite drop_app_length'.
  2:{ rewrite length_concat_replicate. lia. }
  rewrite take_app_length'; [reflexivity | now symmetry].
Qed.

(** C7.  For every token string over the alphabet w, a, s, d, q, e and
    every episode and map, [forgeDemo] first replaces each [e] by [eee]
    and leaves the other tokens as they are, then returns a buffer of
    exactly [14 + 60 * n] bytes, [n] being the number of expanded tokens.
    Its first 13 bytes are version 109, skill 0, the episode and the map
    (as an [Int8Array] stores them, hence unchanged when they fit in a
    signed byte) and the single-player flags; for the [i]-th expanded
    token the 15 records of 4 bytes from offset [13 + 60 * i] on all hold
    the tick of that token; the last byte is the terminator [0x80].  The
    last conjunct gives the whole buffer in closed form. *)
Theorem forgeDemo_layout (inputs : string) (episode map : Z) :
  tokens_only inputs = true ->
  let expanded := replaceAll_char "e" "eee" inputs in
  let n := String.length expanded in
  exists buffer : list Z,
    forgeDemo inputs (JInt episode) (JInt map) = Some buffer /\
    list_ascii_of_string expanded = expand_spec inputs /\
    length buffer = (14 + 60 * n)%nat /\
    take 13 buffer
      = header_spec (toInt8 (JInt episode)) (toInt8 (JInt map)) /\
    (-128 <= episode < 128 -> -128 <= map < 128 ->
     take 13 buffer = header_spec episode map) /\
    (forall (i j : nat) (c : ascii),
        expand_spec inputs !! i = Some c -> (j < 15)%nat ->
        tic_of c = Some (tick_spec c) /\
        take 4 (drop (13 + 60 * i + 4 * j) buffer) = tick_spec c) /\
    buffer !! (length buffer - 1)%nat = Some (toInt8 (JInt 0x80)) /\
    buffer = header_spec (toInt8 (JInt episode)) (toInt8 (JInt map))
               ++ ticks_spec (expand_spec inputs) ++ [-128].
Proof.
  intros Htok expanded n.
  pose proof (replaceAll_expand inputs) as Hexp. fold expanded in Hexp.
  assert (Hall : Forall (fun c => is_token c = true) (expand_spec inputs)).
  { rewrite <- Hexp. apply tokens_only_Forall. now apply replaceAll_tokens. }
  assert (Hn : length (expand_spec inputs) = n).
  { rewrite <- Hexp. apply length_list_ascii. }
  pose proof (length_ticks_spec _ Hall) as Hlt. rewrite Hn in Hlt.
  eexists. split; [now apply forgeDemo_closed|].
  split; [assumption|].
  assert (Hlen : length (header_spec (toInt8 (JInt episode)) (toInt8 (JInt map))
                         ++ ticks_spec (expand_spec inputs) ++ [-128])
                 = (14 + 60 * n)%nat).
  { rewrite !length_app, Hlt. cbn [header_spec length]. lia. }
  split; [assumption|].
  split; [reflexivity|].
  split.
  { intros He Hm. cbn [header_spec app take]. unfold toInt8.
    replace ((episode + 128) mod 256) with (episode + 128) by (symmetry; apply Z.mod_small; lia).
    replace ((map + 128) mod 256) with (map + 128) by (symmetry; apply Z.mod_small; lia).
    unfold header_spec. repeat f_equal; lia. }
  split.
  { intros i j c Hi Hj. split.
    - apply tic_of_token. rewrite Forall_forall in Hall. apply Hall.
      eapply list_elem_of_lookup_2; eauto.
    - replace (13 + 60 * i + 4 * j)%nat
        with (length (header_spec (toInt8 (JInt episode)) (toInt8 (JInt map)))
              + (60 * i + 4 * j))%nat by (cbn [header_spec length]; lia).
      rewrite drop_app_add. now apply tick_in_ticks_spec. }
  split; [|reflexivity].
  rewrite Hlen.
  replace (14 + 60 * n - 1)%nat
    with (length (header_spec (toInt8 (JInt episode)) (toInt8 (JInt map)))
          + (length (ticks_spec (expand_spec inputs)) + 0))%nat
    by (rewrite Hlt; cbn [header_spec length]; lia).
  rewrite lookup_app_r by lia.
  replace (length (header_spec (toInt8 (JInt episode)) (toInt8 (JInt map))) +
   (length (ticks_spec (expand_spec inputs)) + 0) -
   length (header_spec (toInt8 (JInt episode)) (toInt8 (JInt map))))%nat
   with (length (ticks_spec (expand_spec inputs)) + 0)%nat by lia.
  rewrite lookup_app_r by lia.
  replace (length (ticks_spec (expand_spec inputs)) + 0 - length (ticks_spec (expand_spec inputs)))%nat with 0%nat by lia.
  reflexivity.
Qed.

Lemma forgeDemo_layout_witness :
  exists buffer : list Z,
    forgeDemo "we" (JInt 2) (JInt 5) = Some buffer /\ length buffer = 254%nat.
Proof.
  destruct (forgeDemo_layout "we" 2 5 eq_refl) as (buffer & Hf & _ & Hlen & _).
  exists buffer. split; [exact Hf | exact Hlen].
Defined.

(** ** [forgeDemo] on the heap *)

Lemma lookup_own {A} (h0 : list A) (x : A) (extra : list A) :
  (h0 ++ x :: extra) !! length h0 = Some x.
Proof. now rewrite list_lookup_middle. Qed.

Lemma insert_own {A} (h0 : list A) (x y : A) (extra : list A) :
  <[length h0 := y]> (h0 ++ x :: extra) = h0 ++ y :: extra.
Proof.
  replace (length h0) with (length h0 + 0)%nat by lia.
  now rewrite insert_app_r.
Qed.

Lemma heap_store_own (h0 : Heap) (buf : list Z) (extra : Heap) (i : nat)
    (v : JNum) :
  heap_store (length h0) i v (h0 ++ buf :: extra)
  = h0 ++ <[i := toInt8 v]> buf :: extra.
Proof. unfold heap_store, Heap, Ref. now rewrite lookup_own, insert_own. Qed.

Lemma heap_length_own (h0 : Heap) (buf : list Z) (extra : Heap) :
  heap_length (length h0) (h0 ++ buf :: extra) = length buf.
Proof. unfold heap_length, Heap, Ref. now rewrite lookup_own. Qed.

Lemma heap_set_tics_own (h0 : Heap) (extra : Heap) (tic : option Ref)
    (val : option (list Z)) (i : nat) (js : list nat) :
  (forall buf, tic ≫= ((h0 ++ buf :: extra) !!.) = val) ->
  forall buf,
    heap_set_tics (length h0) tic i js (h0 ++ buf :: extra)
    = match set_tics val i js buf with
      | Some buf' => Some (h0 ++ buf' :: extra)
      | None => None
      end.
Proof.
  intros Hval. induction js as [|j js IH]; intros buf; simpl; [reflexivity|].
  unfold heap_set, Heap, Ref in *. rewrite lookup_own, Hval.
  destruct (typed_set val _ buf) as [buf'|]; [|reflexivity].
  rewrite insert_own. apply IH.
Qed.

Lemma heap_forge_loop_own (h0 : Heap) (rest : string) :
  forall (i : nat) (buf : list Z) (extra : Heap),
    match heap_forge_loop (length h0) i rest (h0 ++ buf :: extra) with
    | Some h' =>
        exists buf' extra',
          h' = h0 ++ buf' :: extra' /\ forge_loop i rest buf = Some buf'
    | None => forge_loop i rest buf = None
    end.
Proof.
  induction rest as [|c rest IH]; intros i buf extra.
  - simpl. now exists buf, extra.
  - cbn [heap_forge_loop forge_loop]. unfold heap_tic, heap_new.
    destruct (tic_of c) as [a|] eqn:Hc.
    + assert (Hval : forall b, Some (length (h0 ++ buf :: extra))
                               ≫= ((h0 ++ b :: (extra ++ [a])) !!.) = Some a).
      { intros b. simpl.
        replace (h0 ++ b :: extra ++ [a]) with ((h0 ++ b :: extra) ++ [a])
          by now rewrite <- app_assoc.
        replace (length (h0 ++ buf :: extra))
          with (length (h0 ++ b :: extra))
          by (rewrite !length_app; simpl; lia).
        apply lookup_own. }
      replace ((h0 ++ buf :: extra) ++ [a]) with (h0 ++ buf :: (extra ++ [a]))
        by now rewrite <- app_assoc.
      rewrite (heap_set_tics_own h0 (extra ++ [a]) _ (Some a) i _ Hval).
      destruct (set_tics (Some a) i (seq 0 INPUT_DURATION) buf) as [buf'|];
        [|reflexivity].
      apply IH.
    + assert (Hval : forall b, (None : option Ref)
                               ≫= ((h0 ++ b :: extra) !!.) = None)
        by reflexivity.
      rewrite (heap_set_tics_own h0 extra _ None i _ Hval).
      destruct (set_tics None i (seq 0 INPUT_DURATION) buf) as [buf'|];
        [|reflexivity].
      apply IH.
Qed.

Lemma forgeDemo_heap_spec (inputs : string) (episode map : JNum) (h : Heap) :
  match forgeDemo_heap inputs episode map h with
  | Some (r, h') =>
      r = length h /\
      exists buffer extra,
        h' = h ++ buffer :: extra /\
        forgeDemo inputs episode map = Some buffer
  | None => forgeDemo inputs episode map = None
  end.
Proof.
  unfold forgeDemo_heap, forgeDemo, heap_new, store. cbv beta iota zeta.
  rewrite !heap_store_own, heap_length_own.
  match goal with
  | |- context [heap_forge_loop (length h) 0 ?s (h ++ ?b :: [])] =>
      pose proof (heap_forge_loop_own h s 0%nat b []) as H;
      destruct (heap_forge_loop (length h) 0 s (h ++ b :: [])) as [h'|]
  end.
  - destruct H as (buf' & extra' & -> & H). split; [reflexivity|].
    now exists buf', extra'.
  - exact H.
Qed.

(** C9.  [forgeDemo] is pure: called with the same arguments in two heaps
    whatever they hold, it throws in both or returns in both, the two
    arrays returned hold the same bytes, which are those of the function
    of the arguments alone, each array is a fresh object and no object
    that existed before the call is changed. *)
Theorem forgeDemo_pure (inputs : string) (episode map : JNum) (h1 h2 : Heap) :
  match forgeDemo_heap inputs episode map h1,
        forgeDemo_heap inputs episode map h2 with
  | Some (r1, h1'), Some (r2, h2') =>
      (exists buffer,
          h1' !! r1 = Some buffer /\ h2' !! r2 = Some buffer /\
          forgeDemo inputs episode map = Some buffer) /\
      h1 !! r1 = None /\ h2 !! r2 = None /\
      take (length h1) h1' = h1 /\ take (length h2) h2' = h2
  | None, None => forgeDemo inputs episode map = None
  | _, _ => False
  end.
Proof.
  pose proof (forgeDemo_heap_spec inputs episode map h1) as H1.
  pose proof (forgeDemo_heap_spec inputs episode map h2) as H2.
  destruct (forgeDemo_heap inputs episode map h1) as [[r1 h1']|];
    destruct (forgeDemo_heap inputs episode map h2) as [[r2 h2']|].
  - destruct H1 as (-> & b1 & x1 & -> & E1), H2 as (-> & b2 & x2 & -> & E2).
    assert (b2 = b1) as -> by congruence.
    split; [exists b1; repeat split; [apply lookup_own | apply lookup_own | exact E1]|].
    rewrite !take_app_length.
    repeat split; now apply lookup_ge_None_2.
  - destruct H1 as (_ & b1 & _ & _ & E1). congruence.
  - destruct H2 as (_ & b2 & _ & _ & E2). congruence.
  - exact H1.
Qed.

(** * The continuity gate *)

Lemma createTempDir_Some (names : list string) (birth : Z) (w w1 : World) (t : string) :
  createTempDir names birth w = Some (t, w1) ->
  exists_entry t (tmp w) = false /\ w1 = emit (EvMkdir Tmp t birth) w.
Proof.
  induction names as [|n names IH]; cbn [createTempDir]; [discriminate|].
  destruct (exists_entry n (tmp w)) eqn:Hn; [exact IH|].
  intros [= <- <-]. auto.
Qed.

Lemma rm_rf_fresh (name : string) (l : Listing) :
  exists_entry name l = false -> rm_rf name l = l.
Proof.
  unfold exists_entry, rm_rf. induction l as [|[n e] l IH]; cbn [lookup_entry List.filter fst];
    [reflexivity|].
  destruct (String.eqb n name); [discriminate|]. intros H. cbn [negb]. now rewrite IH.
Qed.

Lemma rm_rf_mkdir_fresh (name : string) (birth : Z) (l : Listing) :
  exists_entry name l = false -> rm_rf name (mkdir name birth l) = l.
Proof.
  intros H. unfold rm_rf, mkdir. rewrite List.filter_app. cbn [List.filter fst].
  rewrite String.eqb_refl. cbn [negb]. rewrite app_nil_r. now apply rm_rf_fresh.
Qed.

Lemma substring_0_cons (n : nat) (c : ascii) (s : string) :
  substring 0 (S n) (String c s) = String c (substring 0 n s).
Proof. reflexivity. Qed.

Lemma save_truthy (s : string) :
  Z.of_nat (String.length s) > SAVE_THRESHOLD ->
  truthy (slice s 0 (Some (- SAVE_THRESHOLD))) = true.
Proof.
  unfold SAVE_THRESHOLD, slice. intros Hlen.
  destruct s as [|c s]; [cbn in Hlen; lia|].
  cbn [String.length] in *.
  destruct (Z.ltb_spec (- (1)) 0); [|lia].
  destruct (Z.ltb_spec 0 0); [lia|].
  replace (Z.to_nat (Z.min 0 (Z.of_nat (S (String.length s))))) with 0%nat by lia.
  remember (Z.to_nat _) as n eqn:Hn.
  destruct n as [|n]; [lia | reflexivity].
Qed.

(** The continuity gate, for any invocation that misses the cache. *)
Lemma gate_closed (fuel : nat) (env : bool -> Oracle) (req : Request) (retry : bool)
    (w w1 : World) (t : string) :
  let j := job_of (pathname req) in
  let o := env retry in
  staticResponse (pathname req) = None ->
  has_file (cacheKey j) "output.webp" (cache w) = false ->
  truthy (save j) = true ->
  has_file (saveKey j) "doomsav0.dsg" (cache w) = false ->
  createTempDir (o_tmpnames o) (o_birth o) (count_request w) = Some (t, w1) ->
  handleRequest (S fuel) env req retry w
  = (Ret continuity_response,
     {| cache := cache w; tmp := tmp w; errors_log := errors_log w;
        stats_txt := stats_txt w; requestCount := requestCount w + 1;
        renderCount := renderCount w;
        trace := trace w ++ [EvMkdir Tmp t (o_birth o); EvRm Tmp t] |}).
Proof.
  intros j o Hstatic Hmiss Hsave Hsnap Htmp.
  apply createTempDir_Some in Htmp as Htmp'. destruct Htmp' as [Hfresh ->].
  cbn [handleRequest]. unfold checkRequestOrigin. cbn [negb].
  rewrite Hstatic. fold j. fold o.
  change (cache (count_request w)) with (cache w). rewrite Hmiss. cbn [negb].
  rewrite Htmp. fold j.
  change (cache (emit (EvMkdir Tmp t (o_birth o)) (count_request w))) with (cache w).
  rewrite Hsave, Hsnap. cbn [negb andb].
  unfold continuity_response. f_equal.
  unfold emit, apply_event, set_area, set_tmp, count_request;
    cbn [cache tmp errors_log stats_txt requestCount renderCount trace].
  rewrite rm_rf_mkdir_fresh by exact Hfresh. rewrite <- app_assoc. reflexivity.
Qed.

(** C2.  A request whose sequence is longer than [SAVE_THRESHOLD], whose
    preview is not cached and whose predecessor has no snapshot is answered
    with status 500 and the no-cache headers.  The cache root is unchanged
    (no entry is created), the scratch directory that was made is removed
    (the scratch root is what it was), nothing is logged, and the handler
    ran once: the answer needs no recursion budget beyond the first call,
    and the only effects are the creation and the removal of the scratch
    directory. *)
Theorem continuity_gate (fuel : nat) (env : bool -> Oracle) (req : Request)
    (retry : bool) (w w1 : World) (t : string) :
  let j := job_of (pathname req) in
  let o := env retry in
  staticResponse (pathname req) = None ->
  Z.of_nat (String.length (inputs j)) > SAVE_THRESHOLD ->
  has_file (cacheKey j) "output.webp" (cache w) = false ->
  has_file (saveKey j) "doomsav0.dsg" (cache w) = false ->
  createTempDir (o_tmpnames o) (o_birth o) (count_request w) = Some (t, w1) ->
  exists w' : World,
    handleRequest (S fuel) env req retry w
    = (Ret {| body := BText ""; status := 500; headers := NOCACHE_HEADERS |}, w') /\
    cache w' = cache w /\
    exists_entry t (tmp w') = false /\ tmp w' = tmp w /\
    errors_log w' = errors_log w /\
    requestCount w' = requestCount w + 1 /\
    trace w' = trace w ++ [EvMkdir Tmp t (o_birth o); EvRm Tmp t].
Proof.
  intros j o Hstatic Hlen Hmiss Hsnap Htmp.
  assert (Hsave : truthy (save j) = true).
  { unfold j, job_of. destruct (decode (pathname req)) as [[ep mp] ins] eqn:Hd.
    cbn [save]. apply save_truthy. unfold j, job_of in Hlen. rewrite Hd in Hlen. exact Hlen. }
  eexists. split; [eapply gate_closed; eassumption|].
  cbn. apply createTempDir_Some in Htmp as [Hfresh _]. auto 10.
Qed.

(** * Eviction *)

Section Eviction.
Variable disk : Disk.

Lemma In_rm_rf (name n : string) (e : Entry) (l : Listing) :
  In (n, e) l -> n <> name -> In (n, e) (rm_rf name l).
Proof.
  intros Hin Hne. unfold rm_rf. apply filter_In. split; [assumption|].
  cbn [fst]. apply negb_true_iff, String.eqb_neq. exact Hne.
Qed.

Lemma exists_entry_In (name : string) (l : Listing) :
  exists_entry name l = true <-> exists e, In (name, e) l.
Proof.
  unfold exists_entry. induction l as [|[n e] l IH]; cbn [lookup_entry].
  - split; [discriminate | intros [e []]].
  - destruct (String.eqb_spec n name) as [->|Hne].
    + split; [intros _; exists e; now left | reflexivity].
    + rewrite IH. split; intros [e' He']; exists e'.
      * now right.
      * destruct He' as [Heq|Hin]; [congruence | assumption].
Qed.

Lemma exists_entry_rm_rf (name n : string) (l : Listing) :
  exists_entry n (rm_rf name l)
  = negb (String.eqb n name) && exists_entry n l.
Proof.
  apply eq_true_iff_eq. rewrite andb_true_iff, negb_true_iff, String.eqb_neq.
  rewrite !exists_entry_In. split.
  - intros [e He]. apply filter_In in He as [Hin Hne]. cbn [fst] in Hne.
    apply negb_true_iff, String.eqb_neq in Hne. split; [assumption | now exists e].
  - intros [Hne [e He]]. exists e. now apply In_rm_rf.
Qed.

Lemma exists_entry_rm_all (del : list Candidate) (n : string) (l : Listing) :
  exists_entry n (rm_all del l) = true ->
  exists_entry n l = true /\ ~ In n (List.map fullPath del).
Proof.
  revert l. induction del as [|c del IH]; intros l; cbn [rm_all fold_left List.map].
  - intros H. split; [assumption | intros []].
  - intros H. apply IH in H as [H Hnot]. rewrite exists_entry_rm_rf in H.
    apply andb_prop in H as [Hne H]. apply negb_true_iff, String.eqb_neq in Hne.
    split; [assumption|]. intros [Heq|Hin]; [congruence | contradiction].
Qed.

Lemma In_rm_all (del : list Candidate) (n : string) (e : Entry) (l : Listing) :
  In (n, e) l -> ~ In n (List.map fullPath del) -> In (n, e) (rm_all del l).
Proof.
  revert l. induction del as [|c del IH]; intros l Hin Hnot; cbn [rm_all fold_left].
  - assumption.
  - apply IH.
    + apply In_rm_rf; [assumption|]. intros ->. apply Hnot. now left.
    + intros H. apply Hnot. now right.
Qed.

(** The scan selects exactly the evictable entries whose [stat] works. *)
Lemma In_scan (entries : Listing) (c : Candidate) :
  In c (scan disk entries) <->
  exists entry, In (fullPath c, entry) entries /\
                evictable (fullPath c) entry = true /\
                d_stat_fails disk (fullPath c) = false /\
                c_birthtime c = birthtime entry.
Proof.
  induction entries as [|[n e] entries IH]; cbn [scan].
  - split; [intros [] | intros (? & [] & _)].
  - fold (evictable n e).
    destruct (evictable n e) eqn:Hev; [destruct (d_stat_fails disk n) eqn:Hst|].
    + rewrite IH. split; intros (entry & Hin & H1 & H2 & H3); exists entry.
      * split; [now right | auto].
      * destruct Hin as [Heq|Hin]; [|auto]. inversion Heq; subst. congruence.
    + cbn [In]. rewrite IH. split.
      * intros [<- | (entry & Hin & H)].
        -- exists e. cbn. split; [now left | auto].
        -- exists entry. split; [now right | assumption].
      * intros (entry & [Heq|Hin] & H1 & H2 & H3).
        -- inversion Heq; subst. left. destruct c; cbn in *. now subst.
        -- right. exists entry. auto.
    + rewrite IH. split; intros (entry & Hin & H1 & H2 & H3); exists entry.
      * split; [now right | auto].
      * destruct Hin as [Heq|Hin]; [|auto]. inversion Heq; subst. congruence.
Qed.

Lemma insert_sorted_perm (c : Candidate) (l : list Candidate) :
  Permutation (insert_sorted c l) (c :: l).
Proof.
  induction l as [|x l IH]; cbn [insert_sorted]; [reflexivity|].
  destruct (c_birthtime c <=? c_birthtime x); [reflexivity|].
  rewrite IH. apply perm_swap.
Qed.

Lemma sort_dirs_perm (l : list Candidate) : Permutation (sort_dirs l) l.
Proof.
  induction l as [|c l IH]; cbn [sort_dirs]; [reflexivity|].
  now rewrite insert_sorted_perm, IH.
Qed.

Lemma insert_sorted_sorted (c : Candidate) (l : list Candidate) :
  StronglySorted older l -> StronglySorted older (insert_sorted c l).
Proof.
  induction 1 as [|x l Hs IH Hx]; cbn [insert_sorted].
  - repeat constructor.
  - destruct (Z.leb_spec (c_birthtime c) (c_birthtime x)) as [Hle|Hlt].
    + constructor; [now constructor|].
      constructor; [exact Hle|].
      eapply Forall_impl; [exact Hx|]. unfold older. intros; lia.
    + constructor; [assumption|].
      eapply Permutation_Forall; [symmetry; apply insert_sorted_perm|].
      constructor; [unfold older; lia | assumption].
Qed.

Lemma sort_dirs_sorted (l : list Candidate) : StronglySorted older (sort_dirs l).
Proof.
  induction l as [|c l IH]; cbn [sort_dirs]; [constructor|].
  now apply insert_sorted_sorted.
Qed.

Lemma sublist_sorted (l k : list Candidate) :
  l `sublist_of` k -> StronglySorted older k -> StronglySorted older l.
Proof.
  induction 1 as [|x l k Hsub IH|x l k Hsub IH]; intros Hs.
  - constructor.
  - apply StronglySorted_inv in Hs as [Hs Hx].
    constructor; [auto|]. rewrite Forall_forall in Hx |- *.
    intros y Hy. apply Hx. eapply elem_of_sublist; eauto.
  - apply StronglySorted_inv in Hs as [Hs _]. auto.
Qed.

(** The loop deletes a subsequence of [dirs], in order, and stops early
    only with enough free space. *)
Lemma evict_loop_spec (dirs : list Candidate) (k : nat) (st : Evicted) :
  exists del,
    del `sublist_of` dirs /\
    ev_deleted (evict_loop disk dirs k st) = ev_deleted st ++ del /\
    ev_cache (evict_loop disk dirs k st) = rm_all del (ev_cache st) /\
    (ev_free (evict_loop disk dirs k st) = ev_free st \/
     exists i, d_free disk i = Some (ev_free (evict_loop disk dirs k st))) /\
    (CACHE_CLEAR_LOW_THRESHOLD < ev_free (evict_loop disk dirs k st) \/
     forall c, In c dirs -> d_rm_fails disk (fullPath c) = false -> In c del).
Proof.
  revert k st. induction dirs as [|c dirs IH]; intros k st; cbn [evict_loop].
  - exists []. rewrite app_nil_r. repeat split; auto.
  - destruct (d_rm_fails disk (fullPath c)) eqn:Hrm.
    + destruct (IH k st) as (del & Hsub & Hdel & Hcache & Hfree & Hend).
      exists del. repeat split; auto.
      * now apply sublist_cons.
      * destruct Hend as [Hend|Hend]; [now left | right].
        intros c' [<-|Hin] Hok; [congruence | auto].
    + destruct (d_free disk k) as [free|] eqn:Hfree.
      * destruct (Z.ltb_spec CACHE_CLEAR_LOW_THRESHOLD free) as [Hlow|Hlow].
        -- exists [c]. cbn. repeat split; auto.
           ++ apply sublist_skip, sublist_nil_l.
           ++ right. now exists k.
        -- match goal with |- context [evict_loop disk dirs (S k) ?s] =>
             destruct (IH (S k) s) as (del & Hsub & Hdel & Hcache & Hfr & Hend)
           end.
           cbn [ev_deleted ev_cache ev_free] in *.
           exists (c :: del). repeat split.
           ++ now apply sublist_skip.
           ++ now rewrite Hdel, <- app_assoc.
           ++ exact Hcache.
           ++ destruct Hfr as [Hfr|Hfr]; [right; exists k; congruence | now right].
           ++ destruct Hend as [Hend|Hend]; [now left | right].
              intros c' [<-|Hin] Hok; [now left | right; auto].
      * match goal with |- context [evict_loop disk dirs (S k) ?s] =>
          destruct (IH (S k) s) as (del & Hsub & Hdel & Hcache & Hfr & Hend)
        end.
        cbn [ev_deleted ev_cache ev_free] in *.
        exists (c :: del). repeat split.
        ++ now apply sublist_skip.
        ++ now rewrite Hdel, <- app_assoc.
        ++ exact Hcache.
        ++ exact Hfr.
        ++ destruct Hend as [Hend|Hend]; [now left | right].
           intros c' [<-|Hin] Hok; [now left | right; auto].
Qed.
End Eviction.

Lemma clearOldCache_fs_spec (disk : Disk) (entries : Listing) (r : Evicted) :
  clearOldCache_fs disk entries = Ret r ->
  ev_deleted r `sublist_of` sort_dirs (scan disk entries) /\
  ev_cache r = rm_all (ev_deleted r) entries.
Proof.
  unfold clearOldCache_fs. destruct (d_free disk 0) as [free|]; [|discriminate].
  destruct (CACHE_CLEAR_HIGH_THRESHOLD <? free).
  { intros [= <-]. split; [apply sublist_nil_l | reflexivity]. }
  destruct (d_readdir_fails disk); [discriminate|].
  destruct (length (scan disk entries) =? 0)%nat.
  { intros [= <-]. split; [apply sublist_nil_l | reflexivity]. }
  intros [= <-].
  match goal with |- context [evict_loop disk ?d ?k ?s] =>
    destruct (evict_loop_spec disk d k s) as (del & Hsub & Hdel & Hcache & _)
  end.
  cbn [ev_deleted ev_cache app] in *. rewrite Hdel, Hcache. auto.
Qed.

Lemma deleted_evictable (disk : Disk) (entries : Listing) (r : Evicted) (c : Candidate) :
  clearOldCache_fs disk entries = Ret r -> In c (ev_deleted r) ->
  exists entry, In (fullPath c, entry) entries /\
                evictable (fullPath c) entry = true /\
                c_birthtime c = birthtime entry.
Proof.
  intros Hr Hin. apply clearOldCache_fs_spec in Hr as [Hsub _].
  assert (Hs : In c (scan disk entries)).
  { apply list_elem_of_In. rewrite <- (sort_dirs_perm (scan disk entries)).
    eapply elem_of_sublist; [|exact Hsub]. now apply list_elem_of_In. }
  apply In_scan in Hs as (entry & H1 & H2 & _ & H3). eauto.
Qed.

Lemma cache_replay_rm (del : list Candidate) (w : World) :
  cache (replay (List.map (fun c => EvRm Cache (fullPath c)) del) w)
  = rm_all del (cache w).
Proof.
  revert w. induction del as [|c del IH]; intros w; [reflexivity|].
  cbn [List.map replay fold_left rm_all]. fold (replay (List.map (fun c => EvRm Cache (fullPath c)) del)).
  fold (rm_all del). now rewrite IH.
Qed.

(** C1.  Whatever the disk probe reports and whichever system calls fail,
    [clearOldCache] leaves in place every child of the cache root whose
    name has at most [CACHE_DEPTH_THRESHOLD + 2] characters (a sequence of
    at most five tokens after the episode and map digits), with the files
    it holds. *)
Theorem clearOldCache_protects (disk : Disk) (w : World) (name : string) (entry : Entry) :
  In (name, entry) (cache w) ->
  (String.length name <= CACHE_DEPTH_THRESHOLD + 2)%nat ->
  In (name, entry) (cache (snd (clearOldCache disk w))).
Proof.
  intros Hin Hlen. unfold clearOldCache.
  destruct (clearOldCache_fs disk (cache w)) as [r| |] eqn:Hr; cbn [snd]; try assumption.
  rewrite cache_replay_rm. apply In_rm_all; [assumption|].
  intros Hdel. apply in_map_iff in Hdel as (c & <- & Hc).
  destruct (deleted_evictable disk (cache w) r c Hr Hc) as (e & _ & Hev & _).
  unfold evictable in Hev. apply andb_prop in Hev as [_ Hlong].
  apply Nat.ltb_lt in Hlong. lia.
Qed.

(** C4.  [clearOldCache] does raise: when the first disk probe throws, or
    when the free space is at most the high threshold and [readdir] fails,
    the exception leaves the function, against the comment at its head
    ("This function should never throw").  Only the calls inside the two
    [try] blocks ([stat], [rm] and the probes of the loop) are absorbed,
    see [clearOldCache_returns]. *)
Theorem clearOldCache_throws (disk : Disk) (w : World) :
  d_free disk 0 = None \/
  (exists free, d_free disk 0 = Some free /\ free <= CACHE_CLEAR_HIGH_THRESHOLD /\
                d_readdir_fails disk = true) ->
  exists e, clearOldCache disk w = (Throw e, w).
Proof.
  unfold clearOldCache, clearOldCache_fs.
  intros [H0|(free & H0 & Hfree & Hrd)]; rewrite H0.
  - eauto.
  - rewrite Hrd. destruct (Z.ltb_spec CACHE_CLEAR_HIGH_THRESHOLD free); [lia | eauto].
Qed.

Lemma clearOldCache_returns (disk : Disk) (w : World) (free : Z) :
  d_free disk 0 = Some free ->
  (CACHE_CLEAR_HIGH_THRESHOLD < free \/ d_readdir_fails disk = false) ->
  fst (clearOldCache disk w) = Ret tt.
Proof.
  unfold clearOldCache, clearOldCache_fs. intros -> Hok.
  destruct (Z.ltb_spec CACHE_CLEAR_HIGH_THRESHOLD free); [reflexivity|].
  destruct Hok as [Hok | ->]; [lia|].
  now destruct (length (scan disk (cache w)) =? 0)%nat.
Qed.

(** C5, as amended.  [clearOldCache] deletes nothing when the free space is
    above the high threshold.  Whenever it returns, what it deleted are
    evictable entries only, in ascending order of creation time, and the
    cache root is what it was without them.  When the free space was below
    the high threshold, at its return either the last free space it read is
    at least the low threshold, or every evictable entry whose [stat] and
    whose deletion did not fail is gone. *)
Theorem clearOldCache_eviction (disk : Disk) (entries : Listing) (free : Z) :
  d_free disk 0 = Some free ->
  (CACHE_CLEAR_HIGH_THRESHOLD < free ->
   clearOldCache_fs disk entries
   = Ret {| ev_cache := entries; ev_deleted := []; ev_free := free |}) /\
  (forall r : Evicted,
      clearOldCache_fs disk entries = Ret r ->
      Forall (fun c => exists entry,
                  In (fullPath c, entry) entries /\
                  evictable (fullPath c) entry = true /\
                  c_birthtime c = birthtime entry) (ev_deleted r) /\
      StronglySorted older (ev_deleted r) /\
      ev_cache r = rm_all (ev_deleted r) entries /\
      (free < CACHE_CLEAR_HIGH_THRESHOLD ->
       CACHE_CLEAR_LOW_THRESHOLD <= ev_free r \/
       forall name entry,
         In (name, entry) entries -> evictable name entry = true ->
         d_stat_fails disk name = false -> d_rm_fails disk name = false ->
         exists_entry name (ev_cache r) = false)).
Proof.
  intros Hfree. split.
  { intros Hhigh. unfold clearOldCache_fs. rewrite Hfree.
    destruct (Z.ltb_spec CACHE_CLEAR_HIGH_THRESHOLD free); [reflexivity | lia]. }
  intros r Hr. pose proof (clearOldCache_fs_spec disk entries r Hr) as [Hsub Hcache].
  split.
  { apply Forall_forall. intros c Hc. apply list_elem_of_In in Hc.
    eapply deleted_evictable; eauto. }
  split.
  { eapply sublist_sorted; [exact Hsub | apply sort_dirs_sorted]. }
  split; [exact Hcache|].
  intros Hlow.
  assert (Hgone : forall c, In c (ev_deleted r) ->
                            exists_entry (fullPath c) (ev_cache r) = false).
  { intros c Hc. destruct (exists_entry (fullPath c) (ev_cache r)) eqn:Hex; [|reflexivity].
    rewrite Hcache in Hex. apply exists_entry_rm_all in Hex as [_ Hnot].
    exfalso. apply Hnot. now apply in_map. }
  assert (Hcand : forall name entry,
             In (name, entry) entries -> evictable name entry = true ->
             d_stat_fails disk name = false ->
             In {| fullPath := name; c_birthtime := birthtime entry |}
                (sort_dirs (scan disk entries))).
  { intros name entry Hin Hev Hst. apply list_elem_of_In.
    rewrite (sort_dirs_perm (scan disk entries)). apply list_elem_of_In.
    apply In_scan. exists entry. cbn. auto. }
  revert Hr. unfold clearOldCache_fs. rewrite Hfree.
  destruct (Z.ltb_spec CACHE_CLEAR_HIGH_THRESHOLD free); [lia|].
  destruct (d_readdir_fails disk); [discriminate|].
  destruct (length (scan disk entries) =? 0)%nat eqn:Hlen.
  { intros _. right. intros name entry Hin Hev Hst _.
    apply Nat.eqb_eq in Hlen. pose proof (Hcand name entry Hin Hev Hst) as Hc.
    apply list_elem_of_In in Hc. rewrite (sort_dirs_perm (scan disk entries)) in Hc.
    destruct (scan disk entries); [inversion Hc | discriminate Hlen]. }
  intros [= Hr].
  match type of Hr with evict_loop disk ?d ?k ?s = _ =>
    destruct (evict_loop_spec disk d k s) as (del & _ & Hdel & _ & _ & Hend)
  end.
  rewrite Hr in Hdel, Hend. cbn [ev_deleted app] in Hdel.
  destruct Hend as [Hend|Hend]; [left; lia | right].
  intros name entry Hin Hev Hst Hrm.
  apply (Hgone {| fullPath := name; c_birthtime := birthtime entry |}).
  rewrite Hdel. apply Hend; [now apply Hcand | exact Hrm].
Qed.

(** * The handler *)

Lemma frame_refl (w : World) : frame w w.
Proof. now repeat split. Qed.

Lemma frame_trans (w1 w2 w3 : World) : frame w1 w2 -> frame w2 w3 -> frame w1 w3.
Proof. unfold frame. intros (? & ? & ?) (? & ? & ?). repeat split; congruence. Qed.

Lemma frame_emit (ev : Event) (w : World) : quiet ev = true -> frame w (emit ev w).
Proof. destruct ev as [[]| []| |[]| |]; try discriminate; intros _; now repeat split. Qed.

Lemma frame_emit_r (ev : Event) (w w' : World) :
  quiet ev = true -> frame w w' -> frame w (emit ev w').
Proof. intros Hq Hf. eapply frame_trans; [exact Hf | now apply frame_emit]. Qed.

Create HintDb frame.
#[local] Hint Resolve frame_refl frame_emit frame_emit_r : frame.

Lemma frame_replay (evs : list Event) (w : World) :
  forallb quiet evs = true -> frame w (replay evs w).
Proof.
  revert w. induction evs as [|ev evs IH]; intros w; cbn [forallb replay fold_left].
  - auto with frame.
  - intros H. apply andb_prop in H as [Hev Hevs].
    eapply frame_trans; [apply frame_emit, Hev | apply IH, Hevs].
Qed.

Lemma frame_clearOldCache (disk : Disk) (w : World) :
  frame w (snd (clearOldCache disk w)).
Proof.
  unfold clearOldCache. destruct (clearOldCache_fs disk (cache w)); cbn [snd];
    auto with frame.
  apply frame_replay. now induction (ev_deleted a).
Qed.

Lemma frame_finallyBlock (o : Oracle) (t : string) (w : World) :
  frame w (snd (finallyBlock o t w)).
Proof.
  unfold finallyBlock. eapply frame_trans; [|apply frame_clearOldCache].
  now apply frame_emit.
Qed.

Lemma frame_forging o j t w : frame w (snd (forging o j t w)).
Proof.
  unfold forging. destruct (forgeDemo _ _ _); [|apply frame_refl].
  destruct (o_write_demo o); cbn [snd]; auto with frame.
Qed.

Lemma frame_simulating o t w : frame w (snd (simulating o t w)).
Proof.
  unfold simulating.
  destruct (doom_render (o_doom o)), (doom_save (o_doom o)),
    (doom_exit (o_doom o)) as [e|]; try destruct (e_stdout e);
    cbn [snd]; auto 6 with frame.
Qed.

Lemma frame_concatenating o j t w : frame w (snd (concatenating o j t w)).
Proof.
  unfold concatenating.
  destruct (truthy (save j)), (o_write_concat o), (o_ffconcat o), (o_fftrim o),
    (has_file t "render.mp4" (tmp w)); cbn [snd]; auto 6 with frame.
Qed.

Lemma frame_transcoding o j w : frame w (snd (transcoding o j w)).
Proof.
  unfold transcoding. destruct (o_ffwebp o) as [e|]; [destruct (raceCollision e)|];
    cbn [snd]; auto with frame.
Qed.

Lemma frame_promoting j t w : frame w (snd (promoting j t w)).
Proof.
  unfold promoting. destruct (has_file t "doomsav0.dsg" (tmp w)); cbn [snd];
    auto with frame.
Qed.

Lemma frame_tryBlock o j t w : frame w (snd (tryBlock o j t w)).
Proof.
  unfold tryBlock.
  pose proof (frame_forging o j t w) as H1.
  destruct (forging o j t w) as [[e1|] w1]; cbn [snd] in *; [exact H1|].
  pose proof (frame_simulating o t w1) as H2.
  destruct (simulating o t w1) as [[l [e2|]] w2]; cbn [snd] in *;
    [eapply frame_trans; eassumption|].
  pose proof (frame_concatenating o j t w2) as H3.
  destruct (concatenating o j t w2) as [[e3|] w3]; cbn [snd] in *;
    [eauto using frame_trans|].
  pose proof (frame_transcoding o j w3) as H4.
  destruct (transcoding o j w3) as [[e4|] w4]; cbn [snd] in *;
    [eauto using frame_trans|].
  pose proof (frame_promoting j t w4) as H5.
  destruct (promoting j t w4) as [[e5|] w5]; cbn [snd] in *;
    eauto 6 using frame_trans.
Qed.

Lemma entersTry_inv (o : Oracle) (req : Request) (w w0 : World) (t : string) :
  entersTry o req w = Some (t, w0) ->
  let j := job_of (pathname req) in
  staticResponse (pathname req) = None /\
  has_file (cacheKey j) "output.webp" (cache w) = false /\
  createTempDir (o_tmpnames o) (o_birth o) (count_request w)
  = Some (t, emit (EvMkdir Tmp t (o_birth o)) (count_request w)) /\
  exists_entry t (tmp w) = false /\
  (truthy (save j) && negb (has_file (saveKey j) "doomsav0.dsg" (cache w))) = false /\
  w0 = ensureDir o j (emit (EvMkdir Tmp t (o_birth o)) (count_request w)).
Proof.
  intros H j. unfold entersTry in H. fold j in H.
  destruct (staticResponse (pathname req)); [discriminate|].
  destruct (has_file (cacheKey j) "output.webp" (cache w)); [discriminate|].
  destruct (createTempDir _ _ _) as [[t' w1]|] eqn:Htmp; [|discriminate].
  pose proof (createTempDir_Some _ _ _ _ _ Htmp) as [Hfresh ->].
  change (cache (emit (EvMkdir Tmp t' (o_birth o)) (count_request w))) with (cache w) in H.
  destruct (truthy (save j) && negb (has_file (saveKey j) "doomsav0.dsg" (cache w)));
    [discriminate|].
  injection H as <- <-. auto 10.
Qed.

Lemma handleRequest_enters (fuel : nat) (env : bool -> Oracle) (req : Request)
    (retry : bool) (w w0 : World) (t : string) :
  entersTry (env retry) req w = Some (t, w0) ->
  handleRequest (S fuel) env req retry w
  = match render (env retry) retry (job_of (pathname req)) t
            (handleRequest fuel env req true) w0 with
    | (Ret (Some r, _), w') => (Ret r, w')
    | (Ret (None, l), w') =>
        (Ret (webp_response (job_of (pathname req))),
         epilogue (env retry) (job_of (pathname req)) l w')
    | (Throw e, w') => (Throw e, w')
    | (NoFuel, w') => (NoFuel, w')
    end.
Proof.
  intros H. apply entersTry_inv in H as (Hs & Hmiss & Htmp & _ & Hgate & ->).
  cbn [handleRequest]. unfold checkRequestOrigin. cbn [negb].
  rewrite Hs. change (cache (count_request w)) with (cache w). rewrite Hmiss. cbn [negb].
  rewrite Htmp.
  change (cache (emit (EvMkdir Tmp t (o_birth (env retry))) (count_request w)))
    with (cache w).
  rewrite Hgate. reflexivity.
Qed.

Lemma render_again (o : Oracle) (j : Job) (t : string)
    (again again' : World -> Outcome Response * World) (w : World) :
  render o true j t again w = render o true j t again' w.
Proof. unfold render. destruct (tryBlock o j t w) as [[l [e|]] w']; reflexivity. Qed.

(** The invocation with [retry = true] does not call the handler again. *)
Lemma retry_fuel (fuel : nat) (env : bool -> Oracle) (req : Request) (w : World) :
  handleRequest (S fuel) env req true w = handleRequest 1 env req true w.
Proof.
  cbn [handleRequest].
  destruct (negb (checkRequestOrigin req)); [reflexivity|].
  destruct (staticResponse (pathname req)); [reflexivity|].
  destruct (negb (has_file _ _ _)); [|reflexivity].
  destruct (createTempDir _ _ _) as [[t w1]|]; [|reflexivity].
  destruct (truthy _ && negb _); [reflexivity|].
  now rewrite (render_again _ _ _ (handleRequest fuel env req true)
                 (handleRequest 0 env req true)).
Qed.

(** The [catch] block, when the [try] block throws. *)
Lemma render_catch (o : Oracle) (retry : bool) (j : Job) (t : string)
    (again : World -> Outcome Response * World) (w w2 : World) (l : Locals) (e : Err) :
  tryBlock o j t w = (l, Some e, w2) ->
  render o retry j t again w
  = let w3 := emit (EvAppendLog (errstr o retry l)) w2 in
    let '(completion, w4) :=
      if retry then (Ret (Some error_response), w3)
      else match again w3 with
           | (Ret r, w4) => (Ret (Some r), w4)
           | (Throw e, w4) => (Throw e, w4)
           | (NoFuel, w4) => (NoFuel, w4)
           end in
    match finallyBlock o t w4 with
    | (Throw e, w5) => (Throw e, w5)
    | (NoFuel, w5) => (NoFuel, w5)
    | (Ret _, w5) =>
        match completion with
        | Ret r => (Ret (r, l), w5)
        | Throw e => (Throw e, w5)
        | NoFuel => (NoFuel, w5)
        end
    end.
Proof. intros H. unfold render. rewrite H. reflexivity. Qed.

Lemma errors_log_entersTry (o : Oracle) (req : Request) (w w0 : World) (t : string) :
  entersTry o req w = Some (t, w0) ->
  errors_log w0 = errors_log w /\ requestCount w0 = requestCount w + 1.
Proof.
  intros H. apply entersTry_inv in H as (_ & _ & _ & _ & _ & ->).
  unfold ensureDir. destruct (negb _); split; reflexivity.
Qed.

(** What the retry does when the clean-up of each invocation returns
    ([finallyBlock]; it need not, see below).  When the [try]
    block of the first invocation throws (in forging, simulating,
    concatenating, transcoding or promoting), the handler appends a record
    that starts with the time stamp and [retry = false] to the error log
    and calls itself again from the top with [retry = true]; that second
    invocation needs no recursion budget, so there is no third one, and
    its outcome is the outcome of the handler.  When the [try] block of
    the second invocation throws as well, the handler returns the error
    image with the no-cache headers; both records are in the log and the
    request counter has advanced by two. *)
Lemma retry_once (fuel : nat) (env : bool -> Oracle) (req : Request)
    (w w0 w2 : World) (t : string) (l : Locals) (e : Err) :
  let j := job_of (pathname req) in
  let o := env false in
  entersTry o req w = Some (t, w0) ->
  tryBlock o j t w0 = (l, Some e, w2) ->
  let w3 := emit (EvAppendLog (errstr o false l)) w2 in
  errors_log w3 = errors_log w ++ [errstr o false l] /\
  (exists rest : string,
      errstr o false l = "[" +:+ o_now o +:+ "] retry = false" +:+ rest) /\
  handleRequest (S fuel) env req true w3 = handleRequest 1 env req true w3 /\
  (forall (out : Outcome Response) (w4 w5 : World),
      handleRequest 1 env req true w3 = (out, w4) ->
      finallyBlock o t w4 = (Ret tt, w5) ->
      handleRequest (S (S fuel)) env req false w = (out, w5)) /\
  (forall (t' : string) (w0' w2' w4 w5 : World) (l' : Locals) (e' : Err),
      entersTry (env true) req w3 = Some (t', w0') ->
      tryBlock (env true) j t' w0' = (l', Some e', w2') ->
      finallyBlock (env true) t'
        (emit (EvAppendLog (errstr (env true) true l')) w2') = (Ret tt, w4) ->
      finallyBlock o t w4 = (Ret tt, w5) ->
      handleRequest (S (S fuel)) env req false w = (Ret error_response, w5) /\
      errors_log w5
      = errors_log w ++ [errstr o false l; errstr (env true) true l'] /\
      requestCount w5 = requestCount w + 2).
Proof.
  intros j o Henter Htry w3.
  pose proof (errors_log_entersTry _ _ _ _ _ Henter) as [Hlog0 Hcnt0].
  pose proof (frame_tryBlock o j t w0) as Hf. rewrite Htry in Hf. cbn [snd] in Hf.
  destruct Hf as (Hcnt2 & _ & Hlog2).
  assert (Hrerun : forall out w4 w5,
             handleRequest 1 env req true w3 = (out, w4) ->
             finallyBlock o t w4 = (Ret tt, w5) ->
             handleRequest (S (S fuel)) env req false w = (out, w5)).
  { intros out w4 w5 Hout Hfin.
    rewrite (handleRequest_enters (S fuel) env req false w w0 t Henter).
    fold j. fold o. rewrite (render_catch o false j t _ w0 w2 l e Htry).
    cbv zeta. fold w3. rewrite retry_fuel, Hout.
    destruct out as [r|e'|]; rewrite Hfin; reflexivity. }
  split; [|split; [|split; [|split]]].
  - subst w3. cbn [emit apply_event errors_log]. now rewrite Hlog2, Hlog0.
  - exists (nl +:+ err_str (err l) +:+ nl +:+ err_str (err2 l) +:+ nl +:+ nl).
    reflexivity.
  - apply retry_fuel.
  - exact Hrerun.
  - intros t' w0' w2' w4 w5 l' e' Henter' Htry' Hfin' Hfin.
    pose proof (errors_log_entersTry _ _ _ _ _ Henter') as [Hlog0' Hcnt0'].
    pose proof (frame_tryBlock (env true) j t' w0') as Hf'. rewrite Htry' in Hf'.
    cbn [snd] in Hf'. destruct Hf' as (Hcnt2' & _ & Hlog2').
    pose proof (frame_finallyBlock (env true) t'
                  (emit (EvAppendLog (errstr (env true) true l')) w2')) as Hf4.
    rewrite Hfin' in Hf4. cbn [snd] in Hf4. destruct Hf4 as (Hcnt4 & _ & Hlog4).
    pose proof (frame_finallyBlock o t w4) as Hf5.
    rewrite Hfin in Hf5. cbn [snd] in Hf5. destruct Hf5 as (Hcnt5 & _ & Hlog5).
    assert (Hsecond : handleRequest 1 env req true w3 = (Ret error_response, w4)).
    { rewrite (handleRequest_enters 0 env req true w3 w0' t' Henter').
      fold j. rewrite (render_catch (env true) true j t' _ w0' w2' l' e' Htry').
      cbv zeta. rewrite Hfin'. reflexivity. }
    split; [exact (Hrerun _ _ _ Hsecond Hfin)|]. split.
    + rewrite Hlog5, Hlog4. cbn [emit apply_event errors_log].
      rewrite Hlog2', Hlog0'. subst w3. cbn [emit apply_event errors_log].
      rewrite Hlog2, Hlog0, <- app_assoc. reflexivity.
    + rewrite Hcnt5, Hcnt4. cbn [emit apply_event requestCount].
      rewrite Hcnt2', Hcnt0'. subst w3. cbn [emit apply_event requestCount].
      rewrite Hcnt2, Hcnt0. lia.
Qed.

(** ** The retry when the clean-up throws *)

Lemma finallyBlock_fuel (o : Oracle) (t : string) (w : World) :
  fst (finallyBlock o t w) <> NoFuel.
Proof.
  unfold finallyBlock, clearOldCache, clearOldCache_fs.
  destruct (d_free (o_disk o) 0) as [free|]; [|discriminate].
  destruct (CACHE_CLEAR_HIGH_THRESHOLD <? free); [discriminate|].
  destruct (d_readdir_fails (o_disk o)); [discriminate|].
  destruct (length _ =? 0)%nat; discriminate.
Qed.

Lemma finallyBlock_probe (o : Oracle) (t : string) (w : World) :
  d_free (o_disk o) 0 = None ->
  finallyBlock o t w
  = (Throw (plain_error "diskusage.checkSync"), emit (EvRm Tmp t) w).
Proof.
  intros H. unfold finallyBlock, clearOldCache, clearOldCache_fs. now rewrite H.
Qed.

(** C3.  The handler does raise after two failed attempts: when the [try]
    blocks of both invocations throw and the first disk probe of the
    clean-up of the second invocation throws ([clearOldCache] in the
    [finally] block, see C4), both records are in the error log, and the
    handler rejects instead of returning the error image. *)
Theorem retry_raises (fuel : nat) (env : bool -> Oracle) (req : Request)
    (w w0 w2 w0' w2' : World) (t t' : string) (l l' : Locals) (e e' : Err) :
  let j := job_of (pathname req) in
  entersTry (env false) req w = Some (t, w0) ->
  tryBlock (env false) j t w0 = (l, Some e, w2) ->
  entersTry (env true) req (emit (EvAppendLog (errstr (env false) false l)) w2)
  = Some (t', w0') ->
  tryBlock (env true) j t' w0' = (l', Some e', w2') ->
  d_free (o_disk (env true)) 0 = None ->
  exists (thrown : Err) (w5 : World),
    handleRequest (S (S fuel)) env req false w = (Throw thrown, w5) /\
    errors_log w5
    = errors_log w ++ [errstr (env false) false l; errstr (env true) true l'].
Proof.
  intros j Henter Htry Henter' Htry' Hprobe.
  pose proof (errors_log_entersTry _ _ _ _ _ Henter) as [Hlog0 _].
  pose proof (frame_tryBlock (env false) j t w0) as Hf. rewrite Htry in Hf.
  cbn [snd] in Hf. destruct Hf as (_ & _ & Hlog2).
  pose proof (errors_log_entersTry _ _ _ _ _ Henter') as [Hlog0' _].
  pose proof (frame_tryBlock (env true) j t' w0') as Hf'. rewrite Htry' in Hf'.
  cbn [snd] in Hf'. destruct Hf' as (_ & _ & Hlog2').
  set (w3 := emit (EvAppendLog (errstr (env false) false l)) w2) in *.
  set (w4 := emit (EvRm Tmp t')
               (emit (EvAppendLog (errstr (env true) true l')) w2')).
  assert (Hlog4 : errors_log w4
                  = errors_log w
                    ++ [errstr (env false) false l; errstr (env true) true l']).
  { subst w4. cbn [emit apply_event set_area set_tmp errors_log].
    rewrite Hlog2', Hlog0'. subst w3. cbn [emit apply_event errors_log].
    now rewrite Hlog2, Hlog0, <- app_assoc. }
  assert (Hsecond : handleRequest (S fuel) env req true w3
                    = (Throw (plain_error "diskusage.checkSync"), w4)).
  { rewrite retry_fuel.
    rewrite (handleRequest_enters 0 env req true w3 w0' t' Henter').
    fold j. rewrite (render_catch (env true) true j t' _ w0' w2' l' e' Htry').
    cbv zeta. now rewrite (finallyBlock_probe _ _ _ Hprobe). }
  rewrite (handleRequest_enters (S fuel) env req false w w0 t Henter).
  fold j. rewrite (render_catch (env false) false j t _ w0 w2 l e Htry).
  cbv zeta. fold w3. rewrite Hsecond.
  pose proof (frame_finallyBlock (env false) t w4) as (_ & _ & Hlog5).
  pose proof (finallyBlock_fuel (env false) t w4) as Hfuel.
  destruct (finallyBlock (env false) t w4) as [[[]|e5|] w5]; cbn [fst snd] in *.
  - exists (plain_error "diskusage.checkSync"), w5. now rewrite Hlog5.
  - exists e5, w5. now rewrite Hlog5.
  - contradiction.
Qed.

(** * Order of the preview and the snapshot *)

Lemma replay_app (evs1 evs2 : list Event) (w : World) :
  replay (evs1 ++ evs2) w = replay evs2 (replay evs1 w).
Proof. unfold replay. apply fold_left_app. Qed.

Lemma trace_replay (evs : list Event) (w : World) :
  trace (replay evs w) = trace w ++ evs.
Proof.
  revert w. induction evs as [|ev evs IH]; intros w; cbn [replay fold_left].
  - now rewrite app_nil_r.
  - fold (replay evs (emit ev w)). rewrite IH. cbn [emit trace].
    now rewrite <- app_assoc.
Qed.

Lemma lookup_update_entry (k n : string) (f : Entry -> Entry) (l : Listing) :
  lookup_entry k (update_entry n f l)
  = if String.eqb n k then option_map f (lookup_entry k l) else lookup_entry k l.
Proof.
  induction l as [|[m e] l IH]; cbn [update_entry lookup_entry].
  - now destruct (String.eqb n k).
  - destruct (String.eqb_spec m n) as [->|Hmn]; cbn [lookup_entry].
    + destruct (String.eqb_spec n k) as [->|Hnk]; [reflexivity|].
      rewrite IH. destruct (String.eqb_spec n k); [contradiction | reflexivity].
    + destruct (String.eqb_spec m k) as [->|Hmk].
      * destruct (String.eqb_spec n k); [congruence | reflexivity].
      * exact IH.
Qed.

Lemma existsb_with_file (file f : string) (e : Entry) :
  existsb (String.eqb file) (files (with_file f e))
  = String.eqb file f || existsb (String.eqb file) (files e).
Proof.
  unfold with_file. cbn [files].
  destruct (existsb (String.eqb f) (files e)) eqn:Hf; [|reflexivity].
  destruct (String.eqb_spec file f) as [->|Hne]; [|reflexivity].
  now rewrite Hf.
Qed.

Lemma has_file_with_file (k n file f : string) (l : Listing) :
  has_file k file (update_entry n (with_file f) l)
  = (String.eqb n k && String.eqb file f && exists_entry k l) || has_file k file l.
Proof.
  unfold has_file, exists_entry. rewrite lookup_update_entry.
  destruct (String.eqb n k); cbn [andb orb]; [|reflexivity].
  destruct (lookup_entry k l) as [e|]; cbn [option_map].
  - rewrite existsb_with_file. now rewrite andb_true_r.
  - now rewrite andb_false_r.
Qed.

Lemma exists_entry_update (k n : string) (f : Entry -> Entry) (l : Listing) :
  exists_entry k (update_entry n f l) = exists_entry k l.
Proof.
  unfold exists_entry. rewrite lookup_update_entry.
  destruct (String.eqb n k); [|reflexivity]. now destruct (lookup_entry k l).
Qed.

Lemma early_emit (ev : Event) (k : string) (w : World) :
  early_event ev = true ->
  has_file k "doomsav0.dsg" (cache (emit ev w)) = has_file k "doomsav0.dsg" (cache w) /\
  exists_entry k (cache (emit ev w)) = exists_entry k (cache w).
Proof.
  destruct ev as [a n b|a n f|t f n f'|a n|r|s]; cbn [early_event]; try discriminate.
  - destruct a; intros Hf; cbn [emit apply_event set_area set_cache set_tmp cache];
      [|auto].
    apply String.eqb_eq in Hf as ->. rewrite has_file_with_file, exists_entry_update.
    change (String.eqb "doomsav0.dsg" "output.mp4") with false.
    now rewrite andb_false_r.
  - intros Hf. apply String.eqb_eq in Hf as ->.
    cbn [emit apply_event set_area set_cache set_tmp cache].
    rewrite has_file_with_file, exists_entry_update.
    change (String.eqb "doomsav0.dsg" "output.mp4") with false.
    now rewrite andb_false_r.
Qed.

Lemma early_replay (evs : list Event) (k : string) (w : World) :
  forallb early_event evs = true ->
  has_file k "doomsav0.dsg" (cache (replay evs w)) = has_file k "doomsav0.dsg" (cache w) /\
  exists_entry k (cache (replay evs w)) = exists_entry k (cache w).
Proof.
  revert w. induction evs as [|ev evs IH]; intros w; cbn [forallb replay fold_left].
  - auto.
  - intros H. apply andb_prop in H as [Hev Hevs].
    fold (replay evs (emit ev w)).
    destruct (IH (emit ev w) Hevs) as [-> ->]. now apply early_emit.
Qed.

Lemma early_refl (w : World) : early w w.
Proof. now exists []. Qed.

Lemma early_step (ev : Event) (w w' : World) :
  early_event ev = true -> early w w' -> early w (emit ev w').
Proof.
  intros Hev (evs & Hevs & ->). exists (evs ++ [ev]). split.
  - rewrite forallb_app, Hevs. cbn. now rewrite Hev.
  - now rewrite replay_app.
Qed.

Lemma early_trans (w1 w2 w3 : World) : early w1 w2 -> early w2 w3 -> early w1 w3.
Proof.
  intros (e1 & H1 & ->) (e2 & H2 & ->). exists (e1 ++ e2). split.
  - now rewrite forallb_app, H1, H2.
  - now rewrite replay_app.
Qed.

Lemma early_forging o j t w : early w (snd (forging o j t w)).
Proof.
  unfold forging. destruct (forgeDemo _ _ _); [|apply early_refl].
  destruct (o_write_demo o); cbn [snd]; auto using early_refl, early_step.
Qed.

Lemma early_simulating o t w : early w (snd (simulating o t w)).
Proof.
  unfold simulating.
  destruct (doom_render (o_doom o)), (doom_save (o_doom o)),
    (doom_exit (o_doom o)) as [e|]; try destruct (e_stdout e);
    cbn [snd]; auto 6 using early_refl, early_step.
Qed.

Lemma early_concatenating o j t w : early w (snd (concatenating o j t w)).
Proof.
  unfold concatenating.
  destruct (truthy (save j)), (o_write_concat o), (o_ffconcat o), (o_fftrim o),
    (has_file t "render.mp4" (tmp w)); cbn [snd];
    auto 6 using early_refl, early_step.
Qed.

Lemma tryBlock_success (o : Oracle) (j : Job) (t : string) (w0 w' : World) (l : Locals) :
  tryBlock o j t w0 = (l, None, w') ->
  exists wa wb wc wd,
    forging o j t w0 = (None, wa) /\
    simulating o t wa = (l, None, wb) /\
    concatenating o j t wb = (None, wc) /\
    transcoding o j wc = (None, wd) /\
    promoting j t wd = (None, w').
Proof.
  unfold tryBlock.
  destruct (forging o j t w0) as [[e1|] wa] eqn:H1; [discriminate|].
  destruct (simulating o t wa) as [[l2 [e2|]] wb] eqn:H2; [discriminate|].
  destruct (concatenating o j t wb) as [[e3|] wc] eqn:H3; [discriminate|].
  destruct (transcoding o j wc) as [[e4|] wd] eqn:H4; [discriminate|].
  destruct (promoting j t wd) as [[e5|] w5] eqn:H5; [discriminate|].
  intros [= -> ->]. exists wa, wb, wc, wd. auto.
Qed.

Lemma substring_prefix (s x : string) :
  substring 0 (String.length s) (s +:+ x) = s.
Proof.
  induction s as [|c s IH]; cbn [String.length].
  - now destruct x.
  - rewrite append_cons, substring_0_cons. now rewrite IH.
Qed.

Lemma length_append (s x : string) :
  String.length (s +:+ x) = (String.length s + String.length x)%nat.
Proof.
  induction s as [|c s IH]; [reflexivity|].
  rewrite append_cons. cbn [String.length]. now rewrite IH.
Qed.

Lemma slice_drop_last (s : string) (c : ascii) :
  slice (s +:+ String c "") 0 (Some (- SAVE_THRESHOLD)) = s.
Proof.
  unfold SAVE_THRESHOLD, slice. rewrite length_append. cbn [String.length].
  destruct (Z.ltb_spec (- (1)) 0); [|lia].
  destruct (Z.ltb_spec 0 0); [lia|].
  replace (Z.to_nat (Z.min 0 (Z.of_nat (String.length s + 1)))) with 0%nat by lia.
  replace (Z.to_nat _) with (String.length s) by lia.
  apply substring_prefix.
Qed.

Lemma keep_tokens_tokens (s : string) : tokens_only (keep_tokens s) = true.
Proof.
  induction s as [|c s IH]; [reflexivity|]. cbn [keep_tokens].
  destruct (is_token c) eqn:Hc; [|exact IH]. cbn [tokens_only]. now rewrite Hc, IH.
Qed.

(** The input sequence of a job is never empty, and holds tokens only. *)
Lemma inputs_job_of (path : string) :
  inputs (job_of path) <> "" /\ tokens_only (inputs (job_of path)) = true /\
  save (job_of path) = slice (inputs (job_of path)) 0 (Some (- SAVE_THRESHOLD)).
Proof.
  unfold job_of, decode.
  destruct (negb (isNaN _)); cbn [inputs save];
    match goal with |- context [keep_tokens ?s] =>
      pose proof (keep_tokens_tokens s) as Hk; destruct (String.eqb_spec (keep_tokens s) "")
    end; repeat split; try assumption; try discriminate.
Qed.

Lemma lookup_entry_mkdir (k n : string) (b : Z) (l : Listing) :
  lookup_entry k (mkdir n b l)
  = match lookup_entry k l with
    | Some e => Some e
    | None => if String.eqb n k
              then Some {| isDirectory := true; birthtime := b; files := [] |}
              else None
    end.
Proof.
  unfold mkdir. induction l as [|[m e] l IH]; cbn [app lookup_entry]; [reflexivity|].
  destruct (String.eqb m k); [reflexivity | exact IH].
Qed.

Lemma ensureDir_entry (o : Oracle) (j : Job) (w : World) :
  exists_entry (cacheKey j) (cache (ensureDir o j w)) = true /\
  has_file (cacheKey j) "doomsav0.dsg" (cache (ensureDir o j w))
  = has_file (cacheKey j) "doomsav0.dsg" (cache w).
Proof.
  unfold ensureDir. destruct (exists_entry (cacheKey j) (cache w)) eqn:Hex; cbn [negb].
  - auto.
  - cbn [emit apply_event set_area set_cache cache].
    unfold exists_entry, has_file in *. rewrite lookup_entry_mkdir.
    destruct (lookup_entry (cacheKey j) (cache w)); [discriminate|].
    rewrite String.eqb_refl. auto.
Qed.

(** C10.  In a render that succeeds and writes the preview of its key, the
    effects of the [try] block end with the write of [output.webp]
    followed by the rename of the snapshot into the entry, and nothing
    before them touches the snapshot.  Hence the world [w_mid] between the
    two holds the preview of the key and not its snapshot, and in that
    world a request for the key extended by one token, not cached itself,
    is answered with the 500 of the continuity check. *)
Theorem preview_before_snapshot (env : bool -> Oracle) (req : Request)
    (retry : bool) (w w0 w' : World) (t : string) (l : Locals) :
  let o := env retry in
  let j := job_of (pathname req) in
  let key := cacheKey j in
  entersTry o req w = Some (t, w0) ->
  has_file key "doomsav0.dsg" (cache w) = false ->
  o_ffwebp o = None ->
  tryBlock o j t w0 = (l, None, w') ->
  exists (pre : list Event) (w_mid : World),
    forallb early_event pre = true /\
    w_mid = replay (pre ++ [EvWrite Cache key "output.webp"]) w0 /\
    w' = emit (EvRename t "doomsav0.dsg" key "doomsav0.dsg") w_mid /\
    trace w' = trace w0 ++ pre ++ [EvWrite Cache key "output.webp";
                                   EvRename t "doomsav0.dsg" key "doomsav0.dsg"] /\
    has_file key "output.webp" (cache w_mid) = true /\
    has_file key "doomsav0.dsg" (cache w_mid) = false /\
    has_file key "doomsav0.dsg" (cache w') = true /\
    forall (fuel' : nat) (env' : bool -> Oracle) (req' : Request) (retry' : bool)
           (c : ascii) (t' : string) (w1' : World),
      let j' := job_of (pathname req') in
      staticResponse (pathname req') = None ->
      em j' = em j ->
      inputs j' = inputs j +:+ String c "" ->
      has_file (cacheKey j') "output.webp" (cache w_mid) = false ->
      createTempDir (o_tmpnames (env' retry')) (o_birth (env' retry'))
        (count_request w_mid) = Some (t', w1') ->
      fst (handleRequest (S fuel') env' req' retry' w_mid) = Ret continuity_response.
Proof.
  intros o j key Henter Hnosnap Hwebp Htry.
  apply entersTry_inv in Henter as (_ & _ & _ & _ & _ & Hw0). fold j o in Hw0.
  pose proof (ensureDir_entry o j
                (emit (EvMkdir Tmp t (o_birth o)) (count_request w))) as [Hdir Hsnap0].
  rewrite <- Hw0 in Hdir, Hsnap0. fold key in Hdir, Hsnap0.
  change (cache (emit (EvMkdir Tmp t (o_birth o)) (count_request w)))
    with (cache w) in Hsnap0. rewrite Hnosnap in Hsnap0.
  apply tryBlock_success in Htry as (wa & wb & wc & wd & H1 & H2 & H3 & H4 & H5).
  assert (Hearly : early w0 wc).
  { pose proof (early_forging o j t w0) as E1. rewrite H1 in E1.
    pose proof (early_simulating o t wa) as E2. rewrite H2 in E2.
    pose proof (early_concatenating o j t wb) as E3. rewrite H3 in E3.
    cbn [snd] in *. eauto using early_trans. }
  destruct Hearly as (pre & Hpre & ->).
  destruct (early_replay pre key w0 Hpre) as [Hsnapc Hdirc].
  rewrite Hsnap0 in Hsnapc. rewrite Hdir in Hdirc.
  unfold transcoding in H4. rewrite Hwebp in H4. injection H4 as <-. fold key in H5 |- *.
  unfold promoting in H5. fold key in H5.
  destruct (has_file t "doomsav0.dsg" (tmp _)); [|discriminate]. injection H5 as <-.
  set (w_mid := emit (EvWrite Cache key "output.webp") (replay pre w0)).
  assert (Hmid_webp : has_file key "output.webp" (cache w_mid) = true).
  { subst w_mid. cbn [emit apply_event set_area set_cache cache].
    rewrite has_file_with_file, !String.eqb_refl, Hdirc. reflexivity. }
  assert (Hmid_snap : has_file key "doomsav0.dsg" (cache w_mid) = false).
  { subst w_mid. cbn [emit apply_event set_area set_cache cache].
    rewrite has_file_with_file, Hsnapc.
    change (String.eqb "doomsav0.dsg" "output.webp") with false.
    now rewrite andb_false_r. }
  exists pre, w_mid. split; [exact Hpre|]. split; [now rewrite replay_app|].
  split; [reflexivity|]. split.
  { subst w_mid. cbn [emit trace]. rewrite trace_replay, <- !app_assoc. reflexivity. }
  split; [exact Hmid_webp|]. split; [exact Hmid_snap|]. split.
  { assert (Hex : exists_entry key (cache w_mid) = true).
    { subst w_mid. cbn [emit apply_event set_area set_cache cache].
      now rewrite exists_entry_update. }
    clearbody w_mid. cbn [emit apply_event set_cache set_tmp cache].
    now rewrite has_file_with_file, !String.eqb_refl, Hex. }
  intros fuel' env' req' retry' c t' w1' j' Hstatic Hem Hin Hmiss Htmp.
  destruct (inputs_job_of (pathname req)) as (Hne & _ & _).
  destruct (inputs_job_of (pathname req')) as (_ & _ & Hsave').
  fold j in Hne. fold j' in Hsave'. rewrite Hin, slice_drop_last in Hsave'.
  assert (Hkey' : saveKey j' = key) by (unfold saveKey, key, cacheKey; congruence).
  erewrite gate_closed; try eassumption; [reflexivity | |].
  - fold j'. rewrite Hsave'. unfold truthy.
    destruct (String.eqb_spec (inputs j) ""); [contradiction | reflexivity].
  - fold j'. rewrite Hkey'. exact Hmid_snap.
Qed.

Lemma tryBlock_with_ffwebp (o : Oracle) (j : Job) (t : string)
    (w0 wa wb wc : World) (l : Locals) :
  forging o j t w0 = (None, wa) ->
  simulating o t wa = (l, None, wb) ->
  concatenating o j t wb = (None, wc) ->
  fst (tryBlock (with_ffwebp None o) j t w0)
  = fst (match promoting j t wc with
         | (Some e', w') => (l, Some e', w')
         | (None, w') => (l, None, w')
         end).
Proof.
  intros H1 H2 H3. unfold tryBlock.
  change (forging (with_ffwebp None o) j t w0) with (forging o j t w0).
  rewrite H1.
  change (simulating (with_ffwebp None o) t wa) with (simulating o t wa).
  rewrite H2.
  change (concatenating (with_ffwebp None o) j t wb) with (concatenating o j t wb).
  rewrite H3. unfold transcoding. cbn [with_ffwebp o_ffwebp]. unfold promoting.
  change (tmp (emit (EvWrite Cache (cacheKey j) "output.webp") wc)) with (tmp wc).
  destruct (has_file t "doomsav0.dsg" (tmp wc)); reflexivity.
Qed.

(** C6.  When the transcoder fails after the earlier stages succeeded: if
    the failure carries an output that contains "already exists.
    Overwrite?" (the target exists), the stage ends without error and
    without effect, the [try] block goes on with the promotion of the
    snapshot, and it ends with the same locals and the same completion
    (normal, or the exception of the promotion) as when the transcoder
    succeeds; if the failure carries no output, or an output without
    these words, the [try] block ends there with that exception, recorded
    in [err2], and the [catch] block logs it and answers with the error
    image ([retry = true]) or with the answer of the second invocation
    ([retry = false]). *)
Theorem race_suppression (o : Oracle) (j : Job) (t : string)
    (w0 wa wb wc : World) (l : Locals) (e : Err) :
  o_ffwebp o = Some e ->
  forging o j t w0 = (None, wa) ->
  simulating o t wa = (l, None, wb) ->
  concatenating o j t wb = (None, wc) ->
  ((exists out, e_stdout e = Some out /\
                includes out "already exists. Overwrite?" = true) ->
   transcoding o j wc = (None, wc) /\
   tryBlock o j t w0
   = match promoting j t wc with
     | (Some e', w') => (l, Some e', w')
     | (None, w') => (l, None, w')
     end /\
   fst (tryBlock o j t w0) = fst (tryBlock (with_ffwebp None o) j t w0)) /\
  ((e_stdout e = None \/
    exists out, e_stdout e = Some out /\
                includes out "already exists. Overwrite?" = false) ->
   transcoding o j wc = (Some e, wc) /\
   tryBlock o j t w0 = (set_err2 e l, Some e, wc) /\
   (forall (again : World -> Outcome Response * World) (w5 : World),
       finallyBlock o t (emit (EvAppendLog (errstr o true (set_err2 e l))) wc)
       = (Ret tt, w5) ->
       render o true j t again w0 = (Ret (Some error_response, set_err2 e l), w5)) /\
   (forall (again : World -> Outcome Response * World) (r : Response)
           (w4 w5 : World),
       again (emit (EvAppendLog (errstr o false (set_err2 e l))) wc) = (Ret r, w4) ->
       finallyBlock o t w4 = (Ret tt, w5) ->
       render o false j t again w0 = (Ret (Some r, set_err2 e l), w5))).
Proof.
  intros Hwebp H1 H2 H3. split.
  - intros (out & Hout & Hrace).
    assert (H4 : transcoding o j wc = (None, wc)).
    { unfold transcoding, raceCollision. now rewrite Hwebp, Hout, Hrace. }
    assert (Htry : tryBlock o j t w0
                   = match promoting j t wc with
                     | (Some e', w') => (l, Some e', w')
                     | (None, w') => (l, None, w')
                     end).
    { unfold tryBlock. now rewrite H1, H2, H3, H4. }
    split; [exact H4|]. split; [exact Htry|].
    now rewrite Htry, (tryBlock_with_ffwebp o j t w0 wa wb wc l H1 H2 H3).
  - intros Hother.
    assert (H4 : transcoding o j wc = (Some e, wc)).
    { unfold transcoding, raceCollision. rewrite Hwebp.
      destruct Hother as [-> | (out & -> & ->)]; reflexivity. }
    assert (Htry : tryBlock o j t w0 = (set_err2 e l, Some e, wc)).
    { unfold tryBlock. now rewrite H1, H2, H3, H4. }
    split; [exact H4|]. split; [exact Htry|]. split.
    + intros again w5 Hfin. rewrite (render_catch _ _ _ _ _ _ _ _ _ Htry).
      cbv zeta. now rewrite Hfin.
    + intros again r w4 w5 Hagain Hfin. rewrite (render_catch _ _ _ _ _ _ _ _ _ Htry).
      cbv zeta. now rewrite Hagain, Hfin.
Qed.

(** * Path decoding *)

(** C8.  The path [/5i.webp]: its token part is the single character [5],
    not two digits, so the specification decodes episode 1, map 1 and the
    placeholder [e] ([decode_spec]).  The handler takes the prefix for a
    number, consumes it, and computes episode 3 and map [NaN]: the map is
    not in [1,8] and the cache entry is named [3NaNe]. *)
Theorem decode_single_digit :
  decode "/5i.webp" = (JInt 3, JNaN, "e") /\
  cacheKey (job_of "/5i.webp") = "3NaNe" /\
  decode_spec "/5i.webp" = (1, 1, "e").
Proof. repeat split; vm_compute; reflexivity. Qed.

Lemma decode_scenario : decode "/wwwi.webp" = (JInt 1, JInt 1, "www").
Proof. vm_compute. reflexivity. Qed.

Lemma decode_clamps : decode "/99wai.webp" = (JInt 3, JInt 8, "wa").
Proof. vm_compute. reflexivity. Qed.

Lemma substring_all (s : string) : substring 0 (String.length s) s = s.
Proof. induction s as [|c s IH]; [reflexivity|]. cbn. now rewrite IH. Qed.

Lemma slice_from_2 (c1 c2 : ascii) (r : string) :
  slice (String c1 (String c2 r)) 2 None = r.
Proof.
  unfold slice. cbn [String.length].
  destruct (Z.ltb_spec 2 0); [lia|].
  replace (Z.to_nat (Z.min 2 (Z.of_nat (S (S (String.length r)))))) with 2%nat by lia.
  replace (Z.to_nat _) with (String.length r) by lia.
  cbn [substring]. apply substring_all.
Qed.

(** Where the test of the code and the test of the specification agree,
    the decoding is the one of the specification. *)
Lemma decode_refines_spec (path : string) :
  let tokens := toLowerCase (slice path 1 (Some (-6))) in
  negb (isNaN (slice tokens 0 (Some 2))) = two_digits tokens ->
  decode path
  = (let '(episode, map, sequence) := decode_spec path in
     (JInt episode, JInt map, sequence)).
Proof.
  intros tokens Hagree. unfold decode, decode_spec. fold tokens. rewrite Hagree.
  destruct tokens as [|c1 [|c2 r]]; cbn [two_digits]; try reflexivity.
  destruct (is_digit c1) eqn:H1; [|reflexivity].
  destruct (is_digit c2) eqn:H2; [|reflexivity].
  cbn [andb]. rewrite slice_from_2.
  unfold charAt. cbn [String.get toNumber_char]. rewrite H1, H2.
  unfold Math_min, Math_max, clamp, digit_value.
  rewrite (Z.max_comm 1), (Z.min_comm 3), (Z.max_comm 1), (Z.min_comm 8).
  reflexivity.
Qed.

(** * The statements on concrete worlds *)

Lemma clearOldCache_protects_witness :
  In ("11www", complete_entry 5)
     (cache (snd (clearOldCache (tight_disk 0 "") (world_of three_entries)))).
Proof.
  apply (clearOldCache_protects (tight_disk 0 "") (world_of three_entries)).
  - left. reflexivity.
  - cbn. lia.
Defined.

Lemma continuity_gate_witness :
  exists w' : World,
    handleRequest 1 fair_env {| pathname := "/wwi.webp" |} false empty_world
    = (Ret {| body := BText ""; status := 500; headers := NOCACHE_HEADERS |}, w') /\
    cache w' = [] /\ tmp w' = [].
Proof.
  edestruct (continuity_gate 0 fair_env {| pathname := "/wwi.webp" |} false
               empty_world) as (w' & H & Hc & _ & Ht & _).
  - vm_compute; reflexivity.
  - vm_compute; reflexivity.
  - vm_compute; reflexivity.
  - vm_compute; reflexivity.
  - vm_compute; reflexivity.
  - exists w'. split; [exact H|]. split; [exact Hc | exact Ht].
Defined.

Lemma retry_once_witness :
  fst (handleRequest 2 foul_env {| pathname := "/wi.webp" |} false empty_world)
  = Ret error_response.
Proof.
  edestruct (retry_once 0 foul_env {| pathname := "/wi.webp" |} empty_world)
    as (_ & _ & _ & _ & H).
  - vm_compute; reflexivity.
  - vm_compute; reflexivity.
  - edestruct H as [H' _].
    + vm_compute; reflexivity.
    + vm_compute; reflexivity.
    + vm_compute; reflexivity.
    + vm_compute; reflexivity.
    + rewrite H'. reflexivity.
Defined.

Lemma retry_raises_witness :
  exists (thrown : Err) (w5 : World),
    handleRequest 2 stranded_env {| pathname := "/wi.webp" |} false empty_world
    = (Throw thrown, w5) /\
    length (errors_log w5) = 2%nat.
Proof.
  edestruct (retry_raises 0 stranded_env {| pathname := "/wi.webp" |} empty_world)
    as (thrown & w5 & H & Hlog).
  - vm_compute; reflexivity.
  - vm_compute; reflexivity.
  - vm_compute; reflexivity.
  - vm_compute; reflexivity.
  - vm_compute; reflexivity.
  - exists thrown, w5. split; [exact H|]. rewrite Hlog. reflexivity.
Defined.

Lemma clearOldCache_throws_witness :
  exists e : Err,
    clearOldCache unreadable_disk (world_of three_entries)
    = (Throw e, world_of three_entries).
Proof.
  apply (clearOldCache_throws unreadable_disk (world_of three_entries)).
  left. reflexivity.
Defined.

Lemma clearOldCache_eviction_witness :
  clearOldCache_fs roomy_disk three_entries
  = Ret {| ev_cache := three_entries; ev_deleted := []; ev_free := 4 * GB |}.
Proof.
  apply (clearOldCache_eviction roomy_disk three_entries (4 * GB) eq_refl).
  vm_compute. reflexivity.
Defined.

(** C5 as stated fails twice.  With exactly 1 GB free, which is not below
    the high threshold, both deep entries are deleted.  With no free space
    and a deep entry that cannot be deleted, the function returns with
    less than the low threshold free and that evictable entry still
    there. *)
Lemma eviction_at_threshold_and_stuck :
  (d_free (tight_disk GB "") 0 = Some CACHE_CLEAR_HIGH_THRESHOLD /\
   clearOldCache_fs (tight_disk GB "") three_entries
   = Ret {| ev_cache := [("11www", complete_entry 5)];
            ev_deleted := [{| fullPath := "11wwwwwwww"; c_birthtime := 10 |};
                           {| fullPath := "11wwwwwwwd"; c_birthtime := 20 |}];
            ev_free := GB |}) /\
  (d_free (tight_disk 0 "11wwwwwwwd") 0 = Some 0 /\
   clearOldCache_fs (tight_disk 0 "11wwwwwwwd") three_entries
   = Ret {| ev_cache := [("11www", complete_entry 5);
                         ("11wwwwwwwd", complete_entry 20)];
            ev_deleted := [{| fullPath := "11wwwwwwww"; c_birthtime := 10 |}];
            ev_free := 0 |} /\
   0 < CACHE_CLEAR_LOW_THRESHOLD /\
   evictable "11wwwwwwwd" (complete_entry 20) = true).
Proof. repeat split; vm_compute; reflexivity. Qed.

Lemma race_suppression_witness :
  let j := job_of "/wi.webp" in
  let w0 := ensureDir (oracle_with "tmp1" good_run None) j
              (emit (EvMkdir Tmp "tmp1" 100) empty_world) in
  (exists (l : Locals) (w' : World),
      tryBlock (oracle_with "tmp1" good_run (Some race_error)) j "tmp1" w0
      = (l, None, w') /\
      has_file "11w" "doomsav0.dsg" (cache w') = true) /\
  (exists (l : Locals) (w' : World),
      tryBlock (oracle_with "tmp1" good_run (Some codec_error)) j "tmp1" w0
      = (l, Some codec_error, w') /\
      err2 l = Some codec_error) /\
  (exists (l : Locals) (w' : World),
      tryBlock (oracle_with "tmp1" good_run (Some spawn_error)) j "tmp1" w0
      = (l, Some spawn_error, w') /\
      err2 l = Some spawn_error).
Proof.
  intros j w0. split; [|split].
  - edestruct (race_suppression (oracle_with "tmp1" good_run (Some race_error))
                 j "tmp1" w0) as [H _].
    + vm_compute; reflexivity.
    + vm_compute; reflexivity.
    + vm_compute; reflexivity.
    + vm_compute; reflexivity.
    + destruct H as (_ & -> & _).
      * eexists. split; vm_compute; reflexivity.
      * eexists _, _. split; vm_compute; reflexivity.
  - edestruct (race_suppression (oracle_with "tmp1" good_run (Some codec_error))
                 j "tmp1" w0) as [_ H].
    + vm_compute; reflexivity.
    + vm_compute; reflexivity.
    + vm_compute; reflexivity.
    + vm_compute; reflexivity.
    + destruct H as (_ & -> & _).
      * right. eexists. split; vm_compute; reflexivity.
      * eexists _, _. split; reflexivity.
  - edestruct (race_suppression (oracle_with "tmp1" good_run (Some spawn_error))
                 j "tmp1" w0) as [_ H].
    + vm_compute; reflexivity.
    + vm_compute; reflexivity.
    + vm_compute; reflexivity.
    + vm_compute; reflexivity.
    + destruct H as (_ & -> & _).
      * left. vm_compute; reflexivity.
      * eexists _, _. split; reflexivity.
Defined.

Lemma preview_before_snapshot_witness :
  exists w_mid : World,
    has_file "11w" "output.webp" (cache w_mid) = true /\
    has_file "11w" "doomsav0.dsg" (cache w_mid) = false.
Proof.
  edestruct (preview_before_snapshot fair_env {| pathname := "/wi.webp" |} false
               empty_world) as (pre & w_mid & _ & _ & _ & _ & Hp & Hs & _).
  - vm_compute; reflexivity.
  - vm_compute; reflexivity.
  - vm_compute; reflexivity.
  - vm_compute; reflexivity.
  - exists w_mid. split; [exact Hp | exact Hs].
Defined.

(** The same state is met without any concurrency when the engine leaves
    a video and no snapshot: the first attempt writes the preview and
    fails at the promotion, the second attempt finds the preview and
    answers with it; the next token then finds no snapshot. *)
Example orphan_preview :
  let '(r1, w1) :=
    handleRequest 2 nosave_env {| pathname := "/wi.webp" |} false empty_world in
  r1 = Ret (webp_response (job_of "/wi.webp")) /\
  has_file "11w" "output.webp" (cache w1) = true /\
  has_file "11w" "doomsav0.dsg" (cache w1) = false /\
  fst (handleRequest 2 fair_env {| pathname := "/wwi.webp" |} false w1)
  = Ret continuity_response.
Proof. vm_compute. repeat split; reflexivity. Qed.

(** Scenario 4 of the specification: 900 MB free, entries at depth 3 and
    depth 8; only the deep entries go. *)
Example eviction_scenario :
  clearOldCache_fs (tight_disk (900 * 1024 * 1024) "") three_entries
  = Ret {| ev_cache := [("11www", complete_entry 5)];
           ev_deleted := [{| fullPath := "11wwwwwwww"; c_birthtime := 10 |};
                          {| fullPath := "11wwwwwwwd"; c_birthtime := 20 |}];
           ev_free := 900 * 1024 * 1024 |}.
Proof. vm_compute. reflexivity. Qed.

(** A successful first render, effect by effect. *)
Example first_render_trace :
  trace (snd (handleRequest 2 fair_env {| pathname := "/wi.webp" |} false
                empty_world))
  = [EvMkdir Tmp "tmp1" 100; EvMkdir Cache "11w" 100;
     EvWrite Tmp "tmp1" "demo.lmp"; EvWrite Tmp "tmp1" "render.mp4";
     EvWrite Tmp "tmp1" "doomsav0.dsg";
     EvRename "tmp1" "render.mp4" "11w" "output.mp4";
     EvWrite Cache "11w" "output.webp";
     EvRename "tmp1" "doomsav0.dsg" "11w" "doomsav0.dsg";
     EvRm Tmp "tmp1";
     EvStats ("requests: 1" +:+ nl +:+ "renders: 1")].
Proof. vm_compute. reflexivity. Qed.

(** * Further properties of [forgeDemo] *)

Lemma tic_of_foreign (c : ascii) : is_token c = false -> tic_of c = None.
Proof. destruct c as [[] [] [] [] [] [] [] []]; simpl; intros H; try discriminate H; reflexivity. Qed.

Lemma forge_loop_foreign (rest : string) :
  tokens_only rest = false ->
  forall (i : nat) (buffer : list Z), forge_loop i rest buffer = None.
Proof.
  induction rest as [|c rest IH]; cbn [tokens_only]; [discriminate|].
  intros H i buffer. cbn [forge_loop].
  destruct (is_token c) eqn:Hc.
  - cbn [andb] in H. destruct (set_tics _ _ _ _); [now apply IH | reflexivity].
  - rewrite (tic_of_foreign c Hc). reflexivity.
Qed.

Lemma replaceAll_foreign (s : string) :
  tokens_only s = false -> tokens_only (replaceAll_char "e" "eee" s) = false.
Proof.
  induction s as [|c s IH]; cbn [tokens_only replaceAll_char]; [discriminate|].
  intros H. destruct (Ascii.eqb_spec c "e") as [->|Hne].
  - rewrite !append_cons, append_nil_l. cbn [tokens_only is_token andb] in *. auto.
  - cbn [tokens_only]. destruct (is_token c); [cbn [andb] in *; auto | reflexivity].
Qed.

(** [forgeDemo] returns a buffer exactly when every character of its input
    is one of w, a, s, d, q, e: any other character reaches the [default]
    case of the [switch], the tic stays [undefined] and [buffer.set]
    throws. *)
Theorem forgeDemo_defined (inputs : string) (episode map : JNum) :
  (exists buffer, forgeDemo inputs episode map = Some buffer)
  <-> tokens_only inputs = true.
Proof.
  split.
  - intros [buffer H]. destruct (tokens_only inputs) eqn:Htok; [reflexivity|].
    unfold forgeDemo in H. cbv zeta in H.
    rewrite forge_loop_foreign in H; [discriminate | now apply replaceAll_foreign].
  - intros H. eexists. now apply forgeDemo_closed.
Qed.

(** * Further properties of the path decoding *)

Lemma slice_0_2 (s : string) :
  slice s 0 (Some 2)
  = match s with
    | String c1 (String c2 _) => String c1 (String c2 "")
    | _ => s
    end.
Proof.
  unfold slice.
  destruct (Z.ltb_spec 0 0); [lia|]. destruct (Z.ltb_spec 2 0); [lia|].
  destruct s as [|c1 [|c2 r]]; [reflexivity | reflexivity |].
  cbn [String.length].
  replace (Z.to_nat (Z.min 0 _)) with 0%nat by lia.
  replace (Z.to_nat _) with 2%nat by lia. now destruct r.
Qed.

Lemma is_digit_cases (c : ascii) :
  is_digit c = true ->
  In c ["0"; "1"; "2"; "3"; "4"; "5"; "6"; "7"; "8"; "9"]%char.
Proof.
  destruct c as [[] [] [] [] [] [] [] []]; vm_compute; intros H;
    try discriminate H; tauto.
Qed.

Lemma isNaN_two_digits (c1 c2 : ascii) :
  is_digit c1 = true -> is_digit c2 = true ->
  isNaN (String c1 (String c2 "")) = false.
Proof.
  intros H1 H2. apply is_digit_cases in H1, H2. cbn [In] in H1, H2.
  repeat (destruct H1 as [<-|H1]); try contradiction;
    repeat (destruct H2 as [<-|H2]); try contradiction; vm_compute; reflexivity.
Qed.

Lemma isNaN_token_first (c : ascii) (rest : string) :
  is_token c = true -> (String.length rest <= 1)%nat ->
  isNaN (String c rest) = true.
Proof.
  intros Hc Hlen.
  destruct rest as [|c2 [|c3 r]]; [| |cbn in Hlen; lia].
  - destruct (token_cases c Hc) as [-> | [-> | [-> | [-> | [-> | ->]]]]];
      vm_compute; reflexivity.
  - unfold isNaN, trim. 
    assert (Hsp : is_space c = false).
    { destruct (token_cases c Hc) as [-> | [-> | [-> | [-> | [-> | ->]]]]]; reflexivity. }
    cbn [trimStart]. rewrite Hsp. cbn [trimEnd].
    destruct (is_space c2); rewrite ?Hsp;
      destruct (token_cases c Hc) as [-> | [-> | [-> | [-> | [-> | ->]]]]];
      reflexivity.
Qed.

(** When the lower-cased token part of the path begins with two decimal
    digits, they are consumed: the episode is the first digit clamped into
    [1,3], the map the second digit clamped into [1,8], and the sequence is
    what remains after filtering, or the placeholder [e]. *)
Theorem decode_two_digits (path : string) (c1 c2 : ascii) (r : string) :
  toLowerCase (slice path 1 (Some (-6))) = String c1 (String c2 r) ->
  is_digit c1 = true -> is_digit c2 = true ->
  decode path
  = (JInt (clamp 1 3 (digit_value c1)), JInt (clamp 1 8 (digit_value c2)),
     or_placeholder (keep_tokens r)).
Proof.
  intros Htok H1 H2. rewrite decode_refines_spec.
  - unfold decode_spec. rewrite Htok, H1, H2. reflexivity.
  - cbv zeta. rewrite Htok, slice_0_2. cbn [two_digits]. rewrite H1, H2.
    now rewrite isNaN_two_digits.
Qed.

(** When the token part of the path begins with a token, nothing is taken
    for a numeric prefix whatever follows: episode and map are 1 and the
    sequence is the filtered token part. *)
Theorem decode_token_first (path : string) (c : ascii) (r : string) :
  toLowerCase (slice path 1 (Some (-6))) = String c r ->
  is_token c = true ->
  decode path = (JInt 1, JInt 1, String c (keep_tokens r)).
Proof.
  intros Htok Hc. unfold decode. rewrite Htok, slice_0_2.
  assert (Hnan : isNaN match String c r with
                       | String c1 (String c2 _) => String c1 (String c2 "")
                       | _ => String c r
                       end = true).
  { destruct r as [|c2 r]; apply isNaN_token_first; cbn; auto. }
  rewrite Hnan. cbn [negb keep_tokens]. rewrite Hc. reflexivity.
Qed.

(** Whatever the path, the decoded sequence is not empty and holds tokens
    only, and the episode and the map, when they are numbers, lie in [1,3]
    and in [1,8]. *)
Theorem decode_invariants (path : string) :
  let '(episode, map, inputs) := decode path in
  tokens_only inputs = true /\ inputs <> "" /\
  within 1 3 episode /\ within 1 8 map.
Proof.
  unfold decode.
  set (tokens := toLowerCase (slice path 1 (Some (-6)))).
  assert (Hk : forall s, tokens_only (if String.eqb (keep_tokens s) "" then "e" else keep_tokens s) = true /\
                         (if String.eqb (keep_tokens s) "" then "e" else keep_tokens s) <> "").
  { intros s. destruct (String.eqb_spec (keep_tokens s) ""); split; try easy.
    apply keep_tokens_tokens. }
  assert (Hr : forall x lo hi, lo <= hi -> within lo hi (Math_max (Math_min x hi) lo)).
  { intros [|z] lo hi Hle; cbn; lia. }
  destruct (negb (isNaN _)).
  - destruct (Hk (slice tokens 2 None)) as [H1 H2]. repeat split; auto; apply Hr; lia.
  - destruct (Hk tokens) as [H1 H2]. repeat split; auto; cbn; lia.
Qed.

(** * Scratch directories *)

(** When one of the names drawn is free, [createTempDir] returns the first
    free one, skipping the names that are taken; it creates that directory
    in the scratch root and leaves the cache root alone. *)
Theorem createTempDir_first_free (names : list string) (birth : Z) (w : World) :
  (exists name, In name names /\ exists_entry name (tmp w) = false) ->
  exists (taken : list string) (t : string) (rest : list string),
    names = taken ++ t :: rest /\
    Forall (fun n => exists_entry n (tmp w) = true) taken /\
    exists_entry t (tmp w) = false /\
    createTempDir names birth w = Some (t, emit (EvMkdir Tmp t birth) w) /\
    exists_entry t (tmp (emit (EvMkdir Tmp t birth) w)) = true /\
    cache (emit (EvMkdir Tmp t birth) w) = cache w.
Proof.
  induction names as [|n names IH]; intros (name & Hin & Hfree); [destruct Hin|].
  cbn [createTempDir]. destruct (exists_entry n (tmp w)) eqn:Hn.
  - destruct Hin as [->|Hin]; [congruence|].
    destruct IH as (taken & t & rest & -> & Htaken & Ht & Hc & Hex & Hcache); [eauto|].
    exists (n :: taken), t, rest. repeat split; auto.
  - exists [], n, names. repeat split; auto.
    cbn [emit apply_event set_area set_tmp tmp]. unfold exists_entry.
    rewrite lookup_entry_mkdir. destruct (lookup_entry n (tmp w)); [reflexivity|].
    now rewrite String.eqb_refl.
Qed.

Lemma createTempDir_None (names : list string) (birth : Z) (w : World) :
  createTempDir names birth w = None <->
  Forall (fun n => exists_entry n (tmp w) = true) names.
Proof.
  induction names as [|n names IH]; cbn [createTempDir].
  - split; [constructor | reflexivity].
  - destruct (exists_entry n (tmp w)) eqn:Hn.
    + rewrite IH. split; [now constructor | now inversion 1].
    + split; [discriminate | inversion 1; congruence].
Qed.

(** * Size of a sequence *)

Lemma length_substring_le (n m : nat) (s : string) :
  (String.length (substring n m s) <= m)%nat /\
  (String.length (substring n m s) <= String.length s - n)%nat.
Proof.
  revert n m. induction s as [|c s IH]; intros n m.
  - destruct n, m; cbn; lia.
  - destruct n as [|n].
    + destruct m as [|m]; [cbn; lia|]. cbn [substring String.length].
      destruct (IH 0%nat m). lia.
    + cbn [substring String.length]. destruct (IH n m). lia.
Qed.

Lemma length_toLowerCase (s : string) :
  String.length (toLowerCase s) = String.length s.
Proof. induction s; cbn; congruence. Qed.

Lemma length_keep_tokens (s : string) :
  (String.length (keep_tokens s) <= String.length s)%nat.
Proof.
  induction s as [|c s IH]; [reflexivity|]. cbn [keep_tokens].
  destruct (is_token c); cbn [String.length]; lia.
Qed.

Lemma length_slice_le (s : string) (a : Z) (b : option Z) :
  (String.length (slice s a b) <= String.length s)%nat.
Proof.
  unfold slice.
  match goal with |- (String.length (substring ?n ?m _) <= _)%nat =>
    destruct (length_substring_le n m s)
  end. lia.
Qed.

Lemma length_token_part (path : string) :
  (String.length (slice path 1 (Some (-6)%Z)) <= String.length path - 7)%nat.
Proof.
  unfold slice.
  match goal with |- (String.length (substring ?n ?m _) <= _)%nat =>
    destruct (length_substring_le n m path) as [H _]; revert H
  end.
  destruct (Z.ltb_spec 1 0); [lia|]. destruct (Z.ltb_spec (-6) 0); [|lia]. lia.
Qed.

(** A path that passes the static checks has at most 220 characters, of
    which 7 are the slash and the marker: its sequence has between 1 and
    213 tokens. *)
Theorem sequence_length (path : string) :
  staticResponse path = None ->
  (1 <= String.length (inputs (job_of path)) <= 213)%nat /\
  (String.length (inputs (job_of path)) <= Nat.max 1 (String.length path - 7))%nat.
Proof.
  intros Hs.
  assert (Hlen : (String.length path <= 220)%nat).
  { unfold staticResponse in Hs.
    destruct (Nat.ltb_spec 220 (String.length path)); [discriminate | assumption]. }
  assert (Hmain : (1 <= String.length (inputs (job_of path))
                   <= Nat.max 1 (String.length path - 7))%nat).
  { unfold job_of, decode.
    pose proof (length_token_part path) as Hp.
    set (tokens := toLowerCase (slice path 1 (Some (-6)))).
    assert (Ht : (String.length tokens <= String.length path - 7)%nat)
      by (unfold tokens; now rewrite length_toLowerCase).
    assert (Hk : forall s, (String.length s <= String.length tokens)%nat ->
               (1 <= String.length (if String.eqb (keep_tokens s) "" then "e" else keep_tokens s)
                <= Nat.max 1 (String.length path - 7))%nat).
    { intros s Hle. pose proof (length_keep_tokens s).
      destruct (String.eqb_spec (keep_tokens s) "") as [|Hne]; [cbn; lia|].
      destruct (keep_tokens s); [contradiction | cbn [String.length] in *; lia]. }
    destruct (negb (isNaN _)); cbn [inputs]; apply Hk; [apply length_slice_le | lia]. }
  split; lia.
Qed.

(** * The demo the handler forges *)

Lemma slice_last (s : string) :
  s <> "" -> tokens_only s = true ->
  exists c, is_token c = true /\ slice s (- SAVE_THRESHOLD) None = String c "".
Proof.
  intros Hne Htok. unfold slice, SAVE_THRESHOLD.
  destruct (Z.ltb_spec (- (1)) 0); [|lia].
  assert (Hgen : forall s, s <> "" -> tokens_only s = true ->
            exists c, is_token c = true /\
                      substring (String.length s - 1) 1 s = String c "").
  { clear. induction s as [|c s IH]; [contradiction|]. intros _ Htok.
    cbn [tokens_only] in Htok. apply andb_prop in Htok as [Hc Hs].
    destruct s as [|c' s'].
    - exists c. auto.
    - destruct IH as (x & Hx & Hsub); [discriminate | assumption |].
      exists x. split; [assumption|].
      cbn [String.length] in *.
      replace (S (S (String.length s')) - 1)%nat with (S (S (String.length s') - 1)) by lia.
      exact Hsub. }
  destruct (Hgen s Hne Htok) as (c & Hc & Hsub). exists c. split; [assumption|].
  destruct s as [|c0 s0]; [contradiction|]. cbn [String.length] in *.
  replace (Z.to_nat (Z.max _ 0)) with (S (String.length s0) - 1)%nat by lia.
  replace (Z.to_nat _) with 1%nat by lia. exact Hsub.
Qed.

(** The demo the handler forges holds the last token of the sequence only:
    [forgeDemo] does not throw on it, the buffer has 74 bytes, or 194 when
    the token is [e], and the forging stage fails only when the write of
    the file fails.  This holds for every path, also when the episode or
    the map is [NaN]. *)
Theorem handler_demo (path : string) :
  let j := job_of path in
  exists (c : ascii) (buffer : list Z),
    is_token c = true /\
    slice (inputs j) (- SAVE_THRESHOLD) None = String c "" /\
    forgeDemo (slice (inputs j) (- SAVE_THRESHOLD) None) (episode j) (map j)
    = Some buffer /\
    length buffer = (if Ascii.eqb c "e" then 194 else 74)%nat /\
    forall (o : Oracle) (t : string) (w : World),
      forging o j t w
      = match o_write_demo o with
        | Some e => (Some e, w)
        | None => (None, emit (EvWrite Tmp t "demo.lmp") w)
        end.
Proof.
  intros j. destruct (inputs_job_of path) as (Hne & Htok & _). fold j in Hne, Htok.
  destruct (slice_last (inputs j) Hne Htok) as (c & Hc & Hlast).
  assert (Hone : tokens_only (String c "") = true) by (cbn; now rewrite Hc).
  pose proof (forgeDemo_closed (String c "") (episode j) (map j) Hone) as Hf.
  eexists c, _. split; [exact Hc|]. split; [exact Hlast|].
  rewrite Hlast. split; [exact Hf|]. split.
  - clear Hf Hone Hlast.
    destruct (token_cases c Hc) as [-> | [-> | [-> | [-> | [-> | ->]]]]];
      reflexivity.
  - intros o t w. unfold forging. fold j. now rewrite Hlast, Hf.
Qed.

(** * Further properties of the eviction *)

Lemma evict_loop_rm_ok (disk : Disk) (dirs : list Candidate) (k : nat) (st : Evicted) :
  Forall (fun c => d_rm_fails disk (fullPath c) = false) (ev_deleted st) ->
  Forall (fun c => d_rm_fails disk (fullPath c) = false)
         (ev_deleted (evict_loop disk dirs k st)).
Proof.
  revert k st. induction dirs as [|c dirs IH]; intros k st Hst; cbn [evict_loop];
    [assumption|].
  destruct (d_rm_fails disk (fullPath c)) eqn:Hrm; [now apply IH|].
  assert (Hst' : Forall (fun c => d_rm_fails disk (fullPath c) = false)
                        (ev_deleted st ++ [c])).
  { apply Forall_app. split; [assumption | now constructor]. }
  destruct (d_free disk k) as [free|]; [|now apply IH].
  destruct (CACHE_CLEAR_LOW_THRESHOLD <? free); [assumption | now apply IH].
Qed.

Lemma deleted_rm_ok (disk : Disk) (entries : Listing) (r : Evicted) :
  clearOldCache_fs disk entries = Ret r ->
  Forall (fun c => d_rm_fails disk (fullPath c) = false) (ev_deleted r).
Proof.
  unfold clearOldCache_fs. destruct (d_free disk 0) as [free|]; [|discriminate].
  destruct (CACHE_CLEAR_HIGH_THRESHOLD <? free); [intros [= <-]; constructor|].
  destruct (d_readdir_fails disk); [discriminate|].
  destruct (length (scan disk entries) =? 0)%nat; [intros [= <-]; constructor|].
  intros [= <-]. apply evict_loop_rm_ok. constructor.
Qed.

Lemma NoDup_names_entry (l : Listing) (name : string) (e1 e2 : Entry) :
  NoDup (List.map fst l) -> In (name, e1) l -> In (name, e2) l -> e1 = e2.
Proof.
  induction l as [|[n e] l IH]; cbn [List.map fst]; intros Hnd H1 H2; [destruct H1|].
  apply NoDup_cons in Hnd as [Hn Hnd].
  assert (Hfst : forall x, In (n, x) l -> n ∈ List.map fst l).
  { intros x Hx. apply list_elem_of_In, in_map_iff. exists (n, x). auto. }
  destruct H1 as [H1|H1], H2 as [H2|H2].
  - congruence.
  - inversion H1; subst. exfalso. eauto.
  - inversion H2; subst. exfalso. eauto.
  - auto.
Qed.

(** In a cache root with distinct names, [clearOldCache] keeps every child
    that is not evictable (a regular file, a short name), every child whose
    [stat] fails and every child whose deletion fails. *)
Theorem clearOldCache_keeps (disk : Disk) (w : World) (name : string) (entry : Entry) :
  NoDup (List.map fst (cache w)) ->
  In (name, entry) (cache w) ->
  evictable name entry = false \/ d_stat_fails disk name = true \/
  d_rm_fails disk name = true ->
  In (name, entry) (cache (snd (clearOldCache disk w))).
Proof.
  intros Hnd Hin Hkeep. unfold clearOldCache.
  destruct (clearOldCache_fs disk (cache w)) as [r| |] eqn:Hr; cbn [snd]; try assumption.
  rewrite cache_replay_rm. apply In_rm_all; [assumption|].
  intros Hdel. apply in_map_iff in Hdel as (c & <- & Hc).
  pose proof (deleted_rm_ok disk (cache w) r Hr) as Hok.
  rewrite Forall_forall in Hok. specialize (Hok c (proj2 (list_elem_of_In _ _) Hc)).
  apply clearOldCache_fs_spec in Hr as [Hsub _].
  assert (Hs : In c (scan disk (cache w))).
  { apply list_elem_of_In. rewrite <- (sort_dirs_perm (scan disk (cache w))).
    eapply elem_of_sublist; [|exact Hsub]. now apply list_elem_of_In. }
  apply In_scan in Hs as (entry' & Hin' & Hev & Hst & _).
  rewrite (NoDup_names_entry _ _ _ _ Hnd Hin Hin') in Hkeep.
  destruct Hkeep as [H|[H|H]]; congruence.
Qed.

Lemma In_rm_all_inv (del : list Candidate) (p : string * Entry) (l : Listing) :
  In p (rm_all del l) -> In p l.
Proof.
  revert l. induction del as [|c del IH]; intros l; cbn [rm_all fold_left]; [auto|].
  intros H. apply IH in H. unfold rm_rf in H. now apply filter_In in H as [H _].
Qed.

Lemma tmp_replay_rm (del : list Candidate) (w : World) :
  tmp (replay (List.map (fun c => EvRm Cache (fullPath c)) del) w) = tmp w.
Proof.
  revert w. induction del as [|c del IH]; intros w; [reflexivity|].
  cbn [List.map replay fold_left].
  fold (replay (List.map (fun c => EvRm Cache (fullPath c)) del)). now rewrite IH.
Qed.

Lemma tmp_clearOldCache (disk : Disk) (w : World) :
  tmp (snd (clearOldCache disk w)) = tmp w.
Proof.
  unfold clearOldCache. destruct (clearOldCache_fs disk (cache w)); cbn [snd];
    [apply tmp_replay_rm | reflexivity | reflexivity].
Qed.

(** [clearOldCache] only removes children of the cache root: what is in the
    cache root afterwards was there before, unchanged, and the scratch
    root, the error log, the statistics and the counters are untouched. *)
Theorem clearOldCache_only_removes (disk : Disk) (w : World) :
  let w' := snd (clearOldCache disk w) in
  (forall p, In p (cache w') -> In p (cache w)) /\
  tmp w' = tmp w /\ errors_log w' = errors_log w /\ stats_txt w' = stats_txt w /\
  requestCount w' = requestCount w /\ renderCount w' = renderCount w.
Proof.
  intros w'. destruct (frame_clearOldCache disk w) as (Hq & Hr & Hl). fold w' in Hq, Hr, Hl.
  split; [|split; [apply tmp_clearOldCache|]]; [|repeat split; auto].
  - subst w'. unfold clearOldCache.
    destruct (clearOldCache_fs disk (cache w)); cbn [snd]; auto.
    intros p. rewrite cache_replay_rm. apply In_rm_all_inv.
  - subst w'. unfold clearOldCache.
    destruct (clearOldCache_fs disk (cache w)) as [r| |]; cbn [snd]; auto.
    induction (ev_deleted r) as [|c del IH] using rev_ind; [reflexivity|].
    rewrite map_app, replay_app. exact IH.
Qed.

(** With free space at or below the high threshold, no failing call and at
    least one candidate: when the probe after the first deletion reports
    more than the low threshold, exactly one entry is deleted, and no
    candidate is older than it. *)
Theorem clearOldCache_oldest_first (disk : Disk) (entries : Listing) (free free1 : Z) :
  d_free disk 0 = Some free -> free <= CACHE_CLEAR_HIGH_THRESHOLD ->
  d_readdir_fails disk = false ->
  (forall name, d_rm_fails disk name = false) ->
  scan disk entries <> [] ->
  d_free disk 1 = Some free1 -> CACHE_CLEAR_LOW_THRESHOLD < free1 ->
  exists oldest : Candidate,
    In oldest (scan disk entries) /\
    Forall (older oldest) (scan disk entries) /\
    clearOldCache_fs disk entries
    = Ret {| ev_cache := rm_rf (fullPath oldest) entries;
             ev_deleted := [oldest]; ev_free := free1 |}.
Proof.
  intros Hfree Hhigh Hrd Hrm Hne Hfree1 Hlow.
  pose proof (sort_dirs_perm (scan disk entries)) as Hperm.
  pose proof (sort_dirs_sorted (scan disk entries)) as Hsorted.
  destruct (sort_dirs (scan disk entries)) as [|oldest rest] eqn:Hsort.
  { apply Permutation_nil in Hperm. congruence. }
  exists oldest. split; [|split].
  - apply list_elem_of_In. rewrite <- Hperm. left.
  - apply StronglySorted_inv in Hsorted as [_ Hall].
    rewrite <- Hperm. constructor; [unfold older; lia | exact Hall].
  - unfold clearOldCache_fs. rewrite Hfree.
    destruct (Z.ltb_spec CACHE_CLEAR_HIGH_THRESHOLD free); [lia|]. rewrite Hrd.
    destruct (scan disk entries) as [|c cs] eqn:Hscan; [contradiction|].
    cbn [length Nat.eqb]. rewrite Hsort. cbn [evict_loop]. rewrite Hrm, Hfree1.
    destruct (Z.ltb_spec CACHE_CLEAR_LOW_THRESHOLD free1); [reflexivity | lia].
Qed.

(** * Further properties of the handler *)

Lemma finallyBlock_healthy (o : Oracle) (t : string) (w : World) :
  healthy (o_disk o) -> fst (finallyBlock o t w) = Ret tt.
Proof.
  intros (free & Hfree & Hok). unfold finallyBlock.
  eapply clearOldCache_returns; eassumption.
Qed.

(** ** The scratch root *)

Lemma rm_rf_update_entry (t : string) (f : Entry -> Entry) (l : Listing) :
  rm_rf t (update_entry t f l) = rm_rf t l.
Proof.
  unfold rm_rf. induction l as [|[n e] l IH]; [reflexivity|].
  cbn [update_entry]. destruct (String.eqb n t) eqn:Hn; cbn [List.filter fst];
    rewrite Hn; cbn [negb]; now rewrite IH.
Qed.

Lemma scratch_refl t w : scratch t w w.
Proof. reflexivity. Qed.

Lemma scratch_trans t w1 w2 w3 : scratch t w1 w2 -> scratch t w2 w3 -> scratch t w1 w3.
Proof. unfold scratch. congruence. Qed.

Lemma scratch_write t f w w' :
  scratch t w w' -> scratch t w (emit (EvWrite Tmp t f) w').
Proof.
  unfold scratch. intros <-. cbn [emit apply_event set_area set_tmp tmp].
  apply rm_rf_update_entry.
Qed.

Lemma scratch_write_cache t k f w w' :
  scratch t w w' -> scratch t w (emit (EvWrite Cache k f) w').
Proof. unfold scratch. intros <-. reflexivity. Qed.

Lemma scratch_rename t f k f' w w' :
  scratch t w w' -> scratch t w (emit (EvRename t f k f') w').
Proof.
  unfold scratch. intros <-. cbn [emit apply_event set_cache set_tmp tmp].
  apply rm_rf_update_entry.
Qed.

Ltac scratch_steps :=
  repeat first [ apply scratch_refl | apply scratch_write
               | apply scratch_write_cache | apply scratch_rename ].

Lemma scratch_forging o j t w : scratch t w (snd (forging o j t w)).
Proof.
  unfold forging. destruct (forgeDemo _ _ _); [|apply scratch_refl].
  destruct (o_write_demo o); cbn [snd]; scratch_steps.
Qed.

Lemma scratch_simulating o t w : scratch t w (snd (simulating o t w)).
Proof.
  unfold simulating.
  destruct (doom_render (o_doom o)), (doom_save (o_doom o)),
    (doom_exit (o_doom o)) as [e|]; try destruct (e_stdout e); cbn [snd];
    scratch_steps.
Qed.

Lemma scratch_concatenating o j t w : scratch t w (snd (concatenating o j t w)).
Proof.
  unfold concatenating.
  destruct (truthy (save j)).
  - destruct (o_write_concat o); [apply scratch_refl|].
    destruct (o_ffconcat o); [cbn [snd]; scratch_steps|].
    destruct (o_fftrim o); cbn [snd]; scratch_steps.
  - destruct (has_file t "render.mp4" (tmp w)); cbn [snd]; scratch_steps.
Qed.

Lemma scratch_transcoding o j t w : scratch t w (snd (transcoding o j w)).
Proof.
  unfold transcoding. destruct (o_ffwebp o) as [e|]; [destruct (raceCollision e)|];
    cbn [snd]; scratch_steps.
Qed.

Lemma scratch_promoting j t w : scratch t w (snd (promoting j t w)).
Proof.
  unfold promoting. destruct (has_file t "doomsav0.dsg" (tmp w)); cbn [snd];
    scratch_steps.
Qed.

Lemma scratch_tryBlock o j t w : scratch t w (snd (tryBlock o j t w)).
Proof.
  unfold tryBlock.
  pose proof (scratch_forging o j t w) as H1.
  destruct (forging o j t w) as [[e1|] w1]; cbn [snd] in *; [exact H1|].
  pose proof (scratch_simulating o t w1) as H2.
  destruct (simulating o t w1) as [[l [e2|]] w2]; cbn [snd] in *;
    [eauto using scratch_trans|].
  pose proof (scratch_concatenating o j t w2) as H3.
  destruct (concatenating o j t w2) as [[e3|] w3]; cbn [snd] in *;
    [eauto using scratch_trans|].
  pose proof (scratch_transcoding o j t w3) as H4.
  destruct (transcoding o j w3) as [[e4|] w4]; cbn [snd] in *;
    [eauto using scratch_trans|].
  pose proof (scratch_promoting j t w4) as H5.
  destruct (promoting j t w4) as [[e5|] w5]; cbn [snd] in *;
    eauto 6 using scratch_trans.
Qed.

Lemma tmp_finallyBlock o t w : tmp (snd (finallyBlock o t w)) = rm_rf t (tmp w).
Proof. unfold finallyBlock. now rewrite tmp_clearOldCache. Qed.

Lemma tmp_epilogue o j l w : tmp (epilogue o j l w) = tmp w.
Proof. unfold epilogue. now destruct (includes _ _ && o_mapinfo o). Qed.

(** ** Counters and log *)

Lemma frame_epilogue o j l w :
  requestCount (epilogue o j l w) = requestCount w /\
  renderCount (epilogue o j l w) = renderCount w + 1 /\
  errors_log (epilogue o j l w) = errors_log w.
Proof. unfold epilogue. destruct (includes _ _ && o_mapinfo o); repeat split. Qed.

Lemma frame_ensureDir o j w : frame w (ensureDir o j w).
Proof.
  unfold ensureDir. destruct (negb _); [now apply frame_emit | apply frame_refl].
Qed.

Lemma accounted_frame (k : Z) (w w' : World) :
  0 <= k -> frame w w' -> accounted k w w'.
Proof.
  intros Hk (Hq & Hr & Hl). unfold accounted. rewrite Hq, Hr, Hl. split; [|lia].
  exists []. rewrite app_nil_r. split; [reflexivity | cbn; lia].
Qed.

Lemma accounted_counted (k : Z) (w w' : World) :
  1 <= k -> frame (count_request w) w' ->
  accounted k w w' /\ requestCount w + 1 <= requestCount w'.
Proof.
  intros Hk (Hq & Hr & Hl).
  cbn [count_request requestCount renderCount errors_log] in Hq, Hr, Hl.
  unfold accounted. rewrite Hq, Hr, Hl. split; [|lia]. split; [|lia].
  exists []. rewrite app_nil_r. split; [reflexivity | cbn; lia].
Qed.

Lemma handleRequest_accounted (env : bool -> Oracle) (fuel : nat) :
  forall (req : Request) (retry : bool) (w : World),
    let w' := snd (handleRequest fuel env req retry w) in
    accounted (if retry then 1 else 2) w w' /\
    ((0 < fuel)%nat -> requestCount w + 1 <= requestCount w').
Proof.
  induction fuel as [|fuel IH]; intros req retry w; cbn [handleRequest].
  { split; [apply accounted_frame; [destruct retry; lia | apply frame_refl] | lia]. }
  assert (Hk : 1 <= (if retry then 1 else 2)) by (destruct retry; lia).
  assert (Hcount : forall w', frame (count_request w) w' ->
             accounted (if retry then 1 else 2) w w' /\
             ((0 < S fuel)%nat -> requestCount w + 1 <= requestCount w')).
  { intros w' Hf. destruct (accounted_counted _ w w' Hk Hf). auto. }
  destruct (negb (checkRequestOrigin req)) eqn:Horigin; [discriminate Horigin|].
  cbv zeta.
  destruct (staticResponse (pathname req)); [apply Hcount, frame_refl|].
  destruct (negb (has_file _ _ _)); [|apply Hcount, frame_refl].
  destruct (createTempDir _ _ _) as [[t w1]|] eqn:Htmp; [|apply Hcount, frame_refl].
  apply createTempDir_Some in Htmp as [_ ->].
  destruct (truthy _ && negb _).
  { cbn [snd]. apply Hcount. apply frame_emit_r; [reflexivity | now apply frame_emit]. }
  unfold render.
  set (w0 := ensureDir _ _ _).
  assert (H0 : frame (count_request w) w0).
  { unfold w0. eapply frame_trans; [|apply frame_ensureDir]. now apply frame_emit. }
  pose proof (frame_tryBlock (env retry) (job_of (pathname req)) t w0) as Htry.
  destruct (tryBlock _ _ _ _) as [[l thrown] w2]. cbn [snd] in Htry.
  pose proof (frame_trans _ _ _ H0 Htry) as H2. clear H0 Htry.
  destruct thrown as [e'|].
  - assert (Hlogged : forall (k : Z) (recs : list string) (w3 : World),
              errors_log w3 = (errors_log w2 ++ [errstr (env retry) retry l]) ++ recs ->
              Z.of_nat (length recs) <= k - 1 ->
              requestCount w2 <= requestCount w3 <= requestCount w2 + (k - 1) ->
              renderCount w2 <= renderCount w3 <= renderCount w2 + 1 ->
              forall w4, w4 = snd (finallyBlock (env retry) t w3) ->
              accounted k w w4 /\
              ((0 < S fuel)%nat -> requestCount w + 1 <= requestCount w4)).
    { intros k recs w3 Hl3 Hn3 Hq3 Hr3 w4 ->.
      destruct (frame_finallyBlock (env retry) t w3) as (Hq & Hr & Hl).
      destruct H2 as (Hq2 & Hr2 & Hl2).
      cbn [count_request requestCount renderCount errors_log] in Hq2, Hr2, Hl2.
      split; [split; [|rewrite Hq, Hr; lia] | rewrite Hq; lia].
      exists (errstr (env retry) retry l :: recs).
      rewrite Hl, Hl3, Hl2, <- app_assoc. split; [reflexivity | cbn [length]; lia]. }
    destruct retry.
    + set (w3 := emit (EvAppendLog (errstr (env true) true l)) w2).
      assert (H3 : accounted 1 w (snd (finallyBlock (env true) t w3)) /\
                   ((0 < S fuel)%nat ->
                    requestCount w + 1 <= requestCount (snd (finallyBlock (env true) t w3)))).
      { apply (Hlogged 1 [] w3); [now rewrite app_nil_r | cbn; lia | cbn; lia | cbn; lia
                                 | reflexivity]. }
      destruct (finallyBlock (env true) t w3) as [[u|e2|] w4]; exact H3.
    + destruct (IH req true (emit (EvAppendLog (errstr (env false) false l)) w2))
        as [((recs & Hl3 & Hn3) & Hq3 & Hr3) _].
      cbn [emit apply_event requestCount renderCount errors_log] in Hl3, Hq3, Hr3.
      destruct (handleRequest fuel env req true _) as [out w3]. cbn [snd] in *.
      assert (H3 : accounted 2 w (snd (finallyBlock (env false) t w3)) /\
                   ((0 < S fuel)%nat ->
                    requestCount w + 1 <= requestCount (snd (finallyBlock (env false) t w3)))).
      { apply (Hlogged 2 recs w3); [assumption | lia | lia | lia | reflexivity]. }
      destruct out as [r|e2|]; destruct (finallyBlock (env false) t w3) as [[u|e3|] w4];
        exact H3.
  - pose proof (frame_finallyBlock (env retry) t w2) as Hfin.
    pose proof (frame_trans _ _ _ H2 Hfin) as H3.
    destruct (finallyBlock _ _ _) as [[u|e2|] w3]; cbn [snd] in *;
      [|now apply Hcount | now apply Hcount].
    destruct (frame_epilogue (env retry) (job_of (pathname req)) l w3) as (Hqe & Hre & Hle).
    destruct H3 as (Hq3 & Hr3 & Hl3).
    cbn [count_request requestCount renderCount errors_log] in Hq3, Hr3, Hl3.
    split; [split; [|rewrite Hqe, Hre, Hq3, Hr3; lia] | rewrite Hqe, Hq3; lia].
    exists []. rewrite app_nil_r, Hle, Hl3. split; [reflexivity | cbn; lia].
Qed.

(** One call of [handleRequest] counts the request once or twice (once
    when [retry] is set), counts at most one render, and appends at most
    two records (at most one when [retry] is set) to the error log, whose
    earlier records it keeps. *)
Theorem handleRequest_accounting (env : bool -> Oracle) (fuel : nat)
    (req : Request) (retry : bool) (w : World) :
  let w' := snd (handleRequest (S fuel) env req retry w) in
  accounted (if retry then 1 else 2) w w' /\
  requestCount w + 1 <= requestCount w'.
Proof.
  destruct (handleRequest_accounted env (S fuel) req retry w) as [H1 H2].
  split; [exact H1 | apply H2; lia].
Qed.

(** ** A finished render *)

Lemma handleRequest_success (fuel : nat) (env : bool -> Oracle) (req : Request)
    (retry : bool) (w w0 w' : World) (t : string) (l : Locals) :
  entersTry (env retry) req w = Some (t, w0) ->
  tryBlock (env retry) (job_of (pathname req)) t w0 = (l, None, w') ->
  handleRequest (S fuel) env req retry w
  = match finallyBlock (env retry) t w' with
    | (Ret _, wf) =>
        (Ret (webp_response (job_of (pathname req))),
         epilogue (env retry) (job_of (pathname req)) l wf)
    | (Throw e, wf) => (Throw e, wf)
    | (NoFuel, wf) => (NoFuel, wf)
    end.
Proof.
  intros Henter Htry. rewrite (handleRequest_enters fuel env req retry w w0 t Henter).
  unfold render. rewrite Htry.
  destruct (finallyBlock _ _ _) as [[u|e|] wf]; reflexivity.
Qed.

Lemma lookup_entry_rm_rf (k n : string) (l : Listing) :
  k <> n -> lookup_entry k (rm_rf n l) = lookup_entry k l.
Proof.
  intros Hne. unfold rm_rf. induction l as [|[m e] l IH]; [reflexivity|].
  cbn [List.filter fst lookup_entry].
  destruct (String.eqb_spec m n) as [->|Hmn]; cbn [negb lookup_entry].
  - destruct (String.eqb_spec n k); [congruence | exact IH].
  - destruct (String.eqb m k); [reflexivity | exact IH].
Qed.

Lemma lookup_entry_rm_all (k : string) (del : list Candidate) (l : Listing) :
  ~ In k (List.map fullPath del) -> lookup_entry k (rm_all del l) = lookup_entry k l.
Proof.
  revert l. induction del as [|c del IH]; intros l Hnot; [reflexivity|].
  cbn [rm_all fold_left]. fold (rm_all del). rewrite IH.
  - apply lookup_entry_rm_rf. intros ->. apply Hnot. now left.
  - intros H. apply Hnot. now right.
Qed.

(** The entries that an eviction cannot reach: a short name, or a disk
    with room to spare. *)
Lemma lookup_clearOldCache (disk : Disk) (w : World) (k : string) :
  (String.length k <= CACHE_DEPTH_THRESHOLD + 2)%nat \/
  (exists free, d_free disk 0 = Some free /\ CACHE_CLEAR_HIGH_THRESHOLD < free) ->
  lookup_entry k (cache (snd (clearOldCache disk w))) = lookup_entry k (cache w).
Proof.
  intros Hsafe. unfold clearOldCache.
  destruct (clearOldCache_fs disk (cache w)) as [r| |] eqn:Hr; cbn [snd]; try reflexivity.
  rewrite cache_replay_rm. apply lookup_entry_rm_all.
  intros Hdel. apply in_map_iff in Hdel as (c & <- & Hc).
  destruct Hsafe as [Hshort|(free & Hfree & Hhigh)].
  - destruct (deleted_evictable disk (cache w) r c Hr Hc) as (e & _ & Hev & _).
    unfold evictable in Hev. apply andb_prop in Hev as [_ Hlong].
    apply Nat.ltb_lt in Hlong. lia.
  - unfold clearOldCache_fs in Hr. rewrite Hfree in Hr.
    destruct (Z.ltb_spec CACHE_CLEAR_HIGH_THRESHOLD free); [|lia].
    injection Hr as <-. destruct Hc.
Qed.

Lemma tryBlock_success_entry (o : Oracle) (j : Job) (t : string) (w0 w' : World)
    (l : Locals) :
  exists_entry (cacheKey j) (cache w0) = true ->
  o_ffwebp o = None ->
  tryBlock o j t w0 = (l, None, w') ->
  has_file (cacheKey j) "output.webp" (cache w') = true /\
  has_file (cacheKey j) "doomsav0.dsg" (cache w') = true.
Proof.
  intros Hdir Hwebp Htry.
  apply tryBlock_success in Htry as (wa & wb & wc & wd & H1 & H2 & H3 & H4 & H5).
  assert (Hearly : early w0 wc).
  { pose proof (early_forging o j t w0) as E1. rewrite H1 in E1.
    pose proof (early_simulating o t wa) as E2. rewrite H2 in E2.
    pose proof (early_concatenating o j t wb) as E3. rewrite H3 in E3.
    cbn [snd] in *. eauto using early_trans. }
  destruct Hearly as (pre & Hpre & ->).
  destruct (early_replay pre (cacheKey j) w0 Hpre) as [_ Hdirc]. rewrite Hdir in Hdirc.
  unfold transcoding in H4. rewrite Hwebp in H4. injection H4 as <-.
  unfold promoting in H5.
  destruct (has_file t "doomsav0.dsg" (tmp _)); [|discriminate]. injection H5 as <-.
  cbn [emit apply_event set_area set_cache set_tmp cache].
  rewrite !has_file_with_file, !exists_entry_update, !String.eqb_refl, Hdirc.
  split; [now rewrite orb_true_r | reflexivity].
Qed.

Lemma has_file_epilogue o j l w (k f : string) :
  has_file k f (cache w) = true -> has_file k f (cache (epilogue o j l w)) = true.
Proof.
  intros H. unfold epilogue. destruct (includes _ _ && o_mapinfo o);
    cbn [emit apply_event set_area set_cache cache]; [|exact H].
  rewrite has_file_with_file, H. apply orb_true_r.
Qed.

(** After a render that succeeds and writes the preview, with a disk that
    can be probed, and when the entry is out of reach of the eviction (a
    name of at most 7 characters, or more free space than the high
    threshold): the handler returns the preview, the entry holds preview
    and snapshot, the same request is from then on answered from the cache
    with the same response and no effect but the request counter, and a
    request for the key extended by one token passes the continuity
    check. *)
Theorem rendered_entry_served (fuel : nat) (env : bool -> Oracle) (req : Request)
    (retry : bool) (w w0 w' : World) (t : string) (l : Locals) :
  let o := env retry in
  let j := job_of (pathname req) in
  let key := cacheKey j in
  entersTry o req w = Some (t, w0) ->
  tryBlock o j t w0 = (l, None, w') ->
  o_ffwebp o = None ->
  healthy (o_disk o) ->
  (String.length key <= CACHE_DEPTH_THRESHOLD + 2)%nat \/
  (exists free, d_free (o_disk o) 0 = Some free /\ CACHE_CLEAR_HIGH_THRESHOLD < free) ->
  exists wf : World,
    handleRequest (S fuel) env req retry w = (Ret (webp_response j), wf) /\
    has_file key "output.webp" (cache wf) = true /\
    has_file key "doomsav0.dsg" (cache wf) = true /\
    (forall (fuel' : nat) (env' : bool -> Oracle) (retry' : bool),
        handleRequest (S fuel') env' req retry' wf
        = (Ret (webp_response j), count_request wf)) /\
    (forall (req' : Request) (c : ascii),
        let j' := job_of (pathname req') in
        em j' = em j -> inputs j' = inputs j +:+ String c "" ->
        truthy (save j') && negb (has_file (saveKey j') "doomsav0.dsg" (cache wf))
        = false).
Proof.
  intros o j key Henter Htry Hwebp Hdisk Hsafe.
  pose proof (entersTry_inv _ _ _ _ _ Henter) as (Hstatic & _ & _ & _ & _ & Hw0).
  fold j o in Hw0.
  assert (Hdir : exists_entry key (cache w0) = true).
  { rewrite Hw0. apply ensureDir_entry. }
  destruct (tryBlock_success_entry o j t w0 w' l Hdir Hwebp Htry) as [Hp Hs].
  rewrite (handleRequest_success fuel env req retry w w0 w' t l Henter Htry).
  fold o j. pose proof (finallyBlock_healthy o t w' Hdisk) as Hfin.
  assert (Hlook : lookup_entry key (cache (snd (finallyBlock o t w')))
                  = lookup_entry key (cache w')).
  { unfold finallyBlock. now rewrite lookup_clearOldCache. }
  destruct (finallyBlock o t w') as [[u|e|] wf]; cbn [fst snd] in *; try discriminate.
  assert (Hp' : has_file key "output.webp" (cache (epilogue o j l wf)) = true).
  { apply has_file_epilogue. unfold has_file in *. now rewrite Hlook. }
  assert (Hs' : has_file key "doomsav0.dsg" (cache (epilogue o j l wf)) = true).
  { apply has_file_epilogue. unfold has_file in *. now rewrite Hlook. }
  eexists. split; [reflexivity|]. split; [exact Hp'|]. split; [exact Hs'|]. split.
  - intros fuel' env' retry'. cbn [handleRequest]. unfold checkRequestOrigin. cbn [negb].
    rewrite Hstatic. fold j key.
    change (cache (count_request (epilogue o j l wf))) with (cache (epilogue o j l wf)).
    now rewrite Hp'.
  - intros req' c. cbv zeta. set (j' := job_of (pathname req')). intros Hem Hin.
    destruct (inputs_job_of (pathname req')) as (_ & _ & Hsave'). fold j' in Hsave'.
    rewrite Hin, slice_drop_last in Hsave'.
    assert (Hkey' : saveKey j' = key) by (unfold saveKey, key, cacheKey; congruence).
    rewrite Hkey', Hs'. apply andb_false_r.
Qed.

(** ** The exit status of the engine *)

Lemma epilogue_stdout (o o' : Oracle) (j : Job) (l l' : Locals) (w : World) :
  stdout l = stdout l' -> o_mapinfo o = o_mapinfo o' ->
  epilogue o j l w = epilogue o' j l' w.
Proof. intros Hs Hm. unfold epilogue. now rewrite Hs, Hm. Qed.

Lemma tryBlock_resolved (o : Oracle) (e : Err) (out : string) (j : Job)
    (t : string) (w : World) :
  doom_exit (o_doom o) = Some e -> e_stdout e = Some out ->
  snd (tryBlock o j t w) = snd (tryBlock (resolved o out) j t w) /\
  snd (fst (tryBlock o j t w)) = snd (fst (tryBlock (resolved o out) j t w)) /\
  stdout (fst (fst (tryBlock o j t w)))
  = stdout (fst (fst (tryBlock (resolved o out) j t w))) /\
  err2 (fst (fst (tryBlock o j t w)))
  = err2 (fst (fst (tryBlock (resolved o out) j t w))).
Proof.
  intros Hexit Hout. unfold tryBlock.
  change (forging (resolved o out) j t w) with (forging o j t w).
  destruct (forging o j t w) as [[e1|] w1]; [repeat split|].
  assert (Hsim : simulating o t w1
                 = (let '(l, r, w2) := simulating (resolved o out) t w1 in
                    ({| err := Some e; err2 := err2 l; stdout := stdout l |}, r, w2))).
  { unfold simulating. cbn [resolved o_doom doom_exit doom_stdout doom_render doom_save].
    rewrite Hexit, Hout. reflexivity. }
  rewrite Hsim. destruct (simulating (resolved o out) t w1) as [[l [e2|]] w2];
    [repeat split|].
  change (concatenating (resolved o out) j t w2) with (concatenating o j t w2).
  destruct (concatenating o j t w2) as [[e3|] w3]; [repeat split|].
  change (transcoding (resolved o out) j w3) with (transcoding o j w3).
  destruct (transcoding o j w3) as [[e4|] w4]; [repeat split|].
  destruct (promoting j t w4) as [[e5|] w5]; repeat split.
Qed.

(** The exit status of the engine is not what decides: when the engine
    rejects but its error carries the output text, and the [try] block
    succeeds with the files it left, the handler returns exactly what it
    returns when the engine resolves with that text (same response, same
    world), and logs nothing. *)
Theorem engine_status_ignored (fuel : nat) (env env' : bool -> Oracle)
    (req : Request) (retry : bool) (w w0 w' : World) (t : string) (l' : Locals)
    (e : Err) (out : string) :
  let j := job_of (pathname req) in
  doom_exit (o_doom (env retry)) = Some e -> e_stdout e = Some out ->
  env' retry = resolved (env retry) out ->
  entersTry (env' retry) req w = Some (t, w0) ->
  tryBlock (env' retry) j t w0 = (l', None, w') ->
  handleRequest (S fuel) env req retry w = handleRequest (S fuel) env' req retry w /\
  errors_log (snd (handleRequest (S fuel) env req retry w)) = errors_log w.
Proof.
  intros j Hexit Hout Henv' Henter' Htry'.
  assert (Henter : entersTry (env retry) req w = Some (t, w0)).
  { rewrite <- Henter'. rewrite Henv'. reflexivity. }
  destruct (tryBlock_resolved (env retry) e out j t w0 Hexit Hout)
    as (Hw & Hthrown & Hstd & _).
  rewrite <- Henv', Htry' in Hw, Hthrown, Hstd. cbn [fst snd] in Hw, Hthrown, Hstd.
  destruct (tryBlock (env retry) j t w0) as [[l thrown] w1] eqn:Htry.
  cbn [fst snd] in Hw, Hthrown, Hstd. subst w1 thrown.
  rewrite (handleRequest_success fuel env req retry w w0 w' t l Henter Htry).
  rewrite (handleRequest_success fuel env' req retry w w0 w' t l' Henter' Htry').
  fold j. rewrite Henv'.
  change (finallyBlock (resolved (env retry) out) t w') with (finallyBlock (env retry) t w').
  pose proof (frame_finallyBlock (env retry) t w') as (_ & _ & Hl).
  pose proof (frame_tryBlock (env retry) j t w0) as (_ & _ & Hl1). rewrite Htry in Hl1.
  pose proof (errors_log_entersTry _ _ _ _ _ Henter) as [Hl0 _]. cbn [snd] in Hl1.
  destruct (finallyBlock (env retry) t w') as [[u|e2|] wf]; cbn [snd] in *.
  - rewrite (epilogue_stdout (env retry) (resolved (env retry) out) j l l' wf Hstd eq_refl).
    split; [reflexivity|].
    destruct (frame_epilogue (resolved (env retry) out) j l' wf) as (_ & _ & ->). congruence.
  - split; [reflexivity | congruence].
  - split; [reflexivity | congruence].
Qed.

(** * Size and range of a demo *)

Lemma length_expand_spec (s : string) :
  length (expand_spec s) = (String.length s + 2 * count_char "e" s)%nat.
Proof.
  induction s as [|c s IH]; [reflexivity|]. cbn [expand_spec count_char String.length].
  destruct (Ascii.eqb c "e"); cbn [length]; lia.
Qed.

Lemma toInt8_range (x : JNum) : -128 <= toInt8 x <= 127.
Proof.
  destruct x as [|z]; cbn [toInt8]; [lia|].
  pose proof (Z.mod_pos_bound (z + 128) 256). lia.
Qed.

Lemma ticks_spec_range (cs : list ascii) :
  Forall (fun c => is_token c = true) cs ->
  Forall (fun b => -128 <= b <= 127) (ticks_spec cs).
Proof.
  induction 1 as [|c cs Hc _ IH]; [constructor|].
  rewrite ticks_spec_cons. apply Forall_app. split; [|exact IH].
  destruct (token_cases c Hc) as [-> | [-> | [-> | [-> | [-> | ->]]]]];
    cbn; repeat constructor; lia.
Qed.

(** For an input of tokens, the buffer of [forgeDemo] has
    [14 + 60 * (length + 2 * number of e)] bytes, each in [-128, 127],
    whatever the episode and the map (also [NaN]). *)
Theorem forgeDemo_size (inputs : string) (episode map : JNum) :
  tokens_only inputs = true ->
  exists buffer : list Z,
    forgeDemo inputs episode map = Some buffer /\
    length buffer
    = (14 + 60 * (String.length inputs + 2 * count_char "e" inputs))%nat /\
    Forall (fun b => -128 <= b <= 127) buffer.
Proof.
  intros Htok. eexists. split; [now apply forgeDemo_closed|].
  assert (Hall : Forall (fun c => is_token c = true) (expand_spec inputs)).
  { rewrite <- replaceAll_expand. apply tokens_only_Forall. now apply replaceAll_tokens. }
  split.
  - rewrite !length_app, (length_ticks_spec _ Hall), length_expand_spec.
    cbn [header_spec length]. lia.
  - apply Forall_app. split; [|apply Forall_app; split].
    + pose proof (toInt8_range episode). pose proof (toInt8_range map).
      unfold header_spec. repeat constructor; lia.
    + now apply ticks_spec_range.
    + repeat constructor; lia.
Qed.

(** * Answers that need no render *)

(** A path of more than 220 characters is answered with the character
    limit image whatever else it holds; the request is counted and nothing
    else happens: no effect on the cache root, the scratch root or the log,
    no recursion. *)
Theorem oversized_path (fuel : nat) (env : bool -> Oracle) (req : Request)
    (retry : bool) (w : World) :
  (220 < String.length (pathname req))%nat ->
  exists w' : World,
    handleRequest (S fuel) env req retry w
    = (Ret (file_response "messages/charlimit.webp"), w') /\
    cache w' = cache w /\ tmp w' = tmp w /\ trace w' = trace w /\
    errors_log w' = errors_log w /\ requestCount w' = requestCount w + 1.
Proof.
  intros Hlen. exists (count_request w). split; [|repeat split].
  cbn [handleRequest]. unfold checkRequestOrigin, staticResponse. cbn [negb].
  destruct (Nat.ltb_spec 220 (String.length (pathname req))); [reflexivity | lia].
Qed.

(** * The further properties on concrete worlds *)

Lemma forgeDemo_size_witness :
  exists buffer : list Z,
    forgeDemo "we" JNaN (JInt 1) = Some buffer /\ length buffer = 254%nat.
Proof.
  destruct (forgeDemo_size "we" JNaN (JInt 1) eq_refl) as (buffer & H & Hlen & _).
  exists buffer. split; [exact H | exact Hlen].
Defined.

Lemma decode_two_digits_witness : decode "/29WDi.webp" = (JInt 2, JInt 8, "wd").
Proof.
  rewrite (decode_two_digits "/29WDi.webp" "2" "9" "wd");
    vm_compute; reflexivity.
Defined.

Lemma decode_token_first_witness : decode "/w1xAi.webp" = (JInt 1, JInt 1, "wa").
Proof.
  rewrite (decode_token_first "/w1xAi.webp" "w" "1xa");
    vm_compute; reflexivity.
Defined.

Lemma sequence_length_witness :
  (1 <= String.length (inputs (job_of "/wwi.webp")) <= 213)%nat.
Proof.
  apply (sequence_length "/wwi.webp"). vm_compute. reflexivity.
Defined.

Lemma createTempDir_first_free_witness :
  createTempDir ["tmp1"; "tmp2"] 7 busy_world
  = Some ("tmp2", emit (EvMkdir Tmp "tmp2" 7) busy_world).
Proof.
  destruct (createTempDir_first_free ["tmp1"; "tmp2"] 7 busy_world)
    as (taken & t & rest & Hsplit & Htaken & Hfree & Hc & _).
  - exists "tmp2". split; [right; left; reflexivity | vm_compute; reflexivity].
  - rewrite Hc. destruct taken as [|n [|n' taken]].
    + injection Hsplit as <- _. vm_compute in Hfree. discriminate Hfree.
    + injection Hsplit as _ <- _. reflexivity.
    + exfalso. injection Hsplit as _ _ Hrest. now destruct taken.
Defined.

Lemma clearOldCache_keeps_witness :
  In ("11wwwwwwwd", complete_entry 20)
     (cache (snd (clearOldCache (tight_disk 0 "11wwwwwwwd") (world_of three_entries)))).
Proof.
  apply (clearOldCache_keeps (tight_disk 0 "11wwwwwwwd") (world_of three_entries)).
  - apply (bool_decide_unpack _). vm_compute. exact I.
  - right. right. left. reflexivity.
  - right. right. vm_compute. reflexivity.
Defined.

Lemma clearOldCache_oldest_first_witness :
  exists oldest : Candidate,
    clearOldCache_fs relieved_disk three_entries
    = Ret {| ev_cache := rm_rf (fullPath oldest) three_entries;
             ev_deleted := [oldest]; ev_free := 3 * GB |}.
Proof.
  destruct (clearOldCache_oldest_first relieved_disk three_entries 0 (3 * GB))
    as (oldest & _ & _ & H).
  - reflexivity.
  - vm_compute. discriminate.
  - reflexivity.
  - reflexivity.
  - vm_compute. discriminate.
  - reflexivity.
  - vm_compute. reflexivity.
  - exists oldest. exact H.
Defined.

Lemma rendered_entry_served_witness :
  exists wf : World,
    handleRequest 1 fair_env {| pathname := "/wi.webp" |} false empty_world
    = (Ret (webp_response (job_of "/wi.webp")), wf) /\
    handleRequest 1 fair_env {| pathname := "/wi.webp" |} false wf
    = (Ret (webp_response (job_of "/wi.webp")), count_request wf).
Proof.
  edestruct (rendered_entry_served 0 fair_env {| pathname := "/wi.webp" |} false
               empty_world) as (wf & H & _ & _ & Hhit & _).
  - vm_compute; reflexivity.
  - vm_compute; reflexivity.
  - vm_compute; reflexivity.
  - exists (4 * GB). split; [reflexivity|]. left. vm_compute. reflexivity.
  - left. vm_compute. lia.
  - exists wf. split; [exact H | apply Hhit].
Defined.

Lemma engine_status_ignored_witness :
  handleRequest 1 noisy_env {| pathname := "/wi.webp" |} false empty_world
  = handleRequest 1 quiet_env {| pathname := "/wi.webp" |} false empty_world.
Proof.
  edestruct (engine_status_ignored 0 noisy_env quiet_env {| pathname := "/wi.webp" |}
               false empty_world) as [H _].
  - vm_compute; reflexivity.
  - vm_compute; reflexivity.
  - reflexivity.
  - vm_compute; reflexivity.
  - vm_compute; reflexivity.
  - exact H.
Defined.

Lemma oversized_path_witness :
  exists w' : World,
    handleRequest 1 fair_env {| pathname := long_path |} false empty_world
    = (Ret (file_response "messages/charlimit.webp"), w') /\
    trace w' = [].
Proof.
  destruct (oversized_path 0 fair_env {| pathname := long_path |} false empty_world)
    as (w' & H & _ & _ & Ht & _).
  - vm_compute. lia.
  - exists w'. split; [exact H | exact Ht].
Defined.

(** * The handler with the failures of its unguarded calls *)

Lemma createTempDir_io_inv (f : Faults) (names : list string) (birth : Z)
    (w w1 : World) (out : Outcome string) :
  createTempDir_io f names birth w = (out, w1) ->
  match out with
  | Ret t =>
      exists_entry t (tmp w) = false /\ In t names /\ f_mktmp f = None /\
      w1 = emit (EvMkdir Tmp t birth) w
  | _ => w1 = w
  end.
Proof.
  induction names as [|n names IH]; cbn [createTempDir_io].
  - now intros [= <- <-].
  - destruct (exists_entry n (tmp w)) eqn:Hn.
    + intros H. apply IH in H. destruct out as [t| |]; [|exact H..].
      destruct H as (H1 & H2 & H3 & H4). repeat split; [assumption | now right | assumption..].
    + destruct (f_mktmp f) as [e|] eqn:Hf; intros [= <- <-]; [reflexivity|].
      repeat split; [assumption | now left].
Qed.

Lemma createTempDir_io_calm (f : Faults) (names : list string) (birth : Z)
    (w : World) :
  f_mktmp f = None ->
  createTempDir_io f names birth w
  = match createTempDir names birth w with
    | Some (t, w1) => (Ret t, w1)
    | None => (NoFuel, w)
    end.
Proof.
  intros Hf. induction names as [|n names IH]; cbn [createTempDir_io createTempDir];
    [reflexivity|].
  destruct (exists_entry n (tmp w)); [exact IH|]. now rewrite Hf.
Qed.

Lemma createTempDir_fresh (names : list string) (birth : Z) (w : World) :
  fresh_in names w ->
  exists t, In t names /\ exists_entry t (tmp w) = false /\
            createTempDir names birth w = Some (t, emit (EvMkdir Tmp t birth) w).
Proof.
  intros (n & Hin & Hn). induction names as [|m names IH]; [destruct Hin|].
  cbn [createTempDir]. destruct (exists_entry m (tmp w)) eqn:Hm.
  - destruct Hin as [-> | Hin]; [congruence|].
    destruct (IH Hin) as (t & Ht & Hfree & Heq). exists t. auto using in_cons.
  - exists m. repeat split; [now left | assumption].
Qed.

Lemma ensureDir_io_ok (f : Faults) (o : Oracle) (j : Job) (w : World) :
  f_mkdir f = None -> ensureDir_io f o j w = (Ret tt, ensureDir o j w).
Proof.
  intros Hf. unfold ensureDir_io, ensureDir. rewrite Hf. now destruct (negb _).
Qed.

Lemma finallyBlock_io_ok (f : Faults) (o : Oracle) (t : string) (w : World) :
  f_rm f = None -> finallyBlock_io f o t w = finallyBlock o t w.
Proof. intros Hf. unfold finallyBlock_io. now rewrite Hf. Qed.

Lemma tmp_epilogue_io f o j l w : tmp (snd (epilogue_io f o j l w)) = tmp w.
Proof.
  unfold epilogue_io. destruct (includes _ _ && o_mapinfo o); cbn [snd];
    [|apply tmp_epilogue].
  destruct (negb _); [reflexivity|].
  destruct (f_copy f); [reflexivity | apply tmp_epilogue].
Qed.

(** The handler once it has reached the [try] statement. *)
Lemma handleRequest_io_enters (fuel : nat) (env : bool -> Oracle)
    (faults : bool -> Faults) (req : Request) (retry : bool) (w w0 : World)
    (t : string) :
  f_mktmp (faults retry) = None -> f_mkdir (faults retry) = None ->
  entersTry (env retry) req w = Some (t, w0) ->
  handleRequest_io (S fuel) env faults req retry w
  = match render_io (faults retry) (env retry) retry (job_of (pathname req)) t
            (handleRequest_io fuel env faults req true) w0 with
    | (Ret (Some r, _), w') => (Ret r, w')
    | (Ret (None, l), w') =>
        match epilogue_io (faults retry) (env retry) (job_of (pathname req)) l w' with
        | (Ret _, w'') => (Ret (webp_response (job_of (pathname req))), w'')
        | (Throw e, w'') => (Throw e, w'')
        | (NoFuel, w'') => (NoFuel, w'')
        end
    | (Throw e, w') => (Throw e, w')
    | (NoFuel, w') => (NoFuel, w')
    end.
Proof.
  intros Hmk Hdir H. apply entersTry_inv in H as (Hs & Hmiss & Htmp & _ & Hgate & ->).
  cbn [handleRequest_io]. unfold checkRequestOrigin. cbn [negb].
  rewrite Hs. change (cache (count_request w)) with (cache w). rewrite Hmiss. cbn [negb].
  rewrite (createTempDir_io_calm _ _ _ _ Hmk), Htmp.
  change (cache (emit (EvMkdir Tmp t (o_birth (env retry))) (count_request w)))
    with (cache w).
  rewrite Hgate. now rewrite (ensureDir_io_ok _ _ _ _ Hdir).
Qed.

(** ** The scratch root when calls around the [try] block reject *)

(** When [fs.rm(tmp)] and [fs.mkdir(cachePath)] do not reject, then
    whatever else happens (a static answer, a cache hit, a continuity
    failure, a render, one or two failed attempts, a rejection of
    [createTempDir], of the log append, of the clean-up or of the copy of
    the transition image), the scratch root after [handleRequest] is what
    it was before: every scratch directory made is removed. *)
Theorem handleRequest_io_scratch (env : bool -> Oracle) (faults : bool -> Faults)
    (fuel : nat) :
  (forall retry, tidy (faults retry)) ->
  forall (req : Request) (retry : bool) (w : World),
    tmp (snd (handleRequest_io fuel env faults req retry w)) = tmp w.
Proof.
  intros Htidy.
  induction fuel as [|fuel IH]; intros req retry w; cbn [handleRequest_io];
    [reflexivity|].
  destruct (Htidy retry) as [Hrm Hdir].
  destruct (negb (checkRequestOrigin req)); [reflexivity|].
  destruct (staticResponse (pathname req)); [reflexivity|].
  destruct (negb (has_file _ _ _)); [|reflexivity].
  destruct (createTempDir_io _ _ _ _) as [out w1] eqn:Htmp.
  apply createTempDir_io_inv in Htmp.
  destruct out as [t| |]; [|now subst w1..].
  destruct Htmp as (Hfresh & _ & _ & ->).
  assert (Hback : forall l, rm_rf t l = rm_rf t (tmp (ensureDir (env retry)
                    (job_of (pathname req))
                    (emit (EvMkdir Tmp t (o_birth (env retry))) (count_request w)))) ->
                  rm_rf t l = tmp w).
  { intros l ->. unfold ensureDir. destruct (negb _);
      cbn [emit apply_event set_area set_cache set_tmp tmp count_request];
      now apply rm_rf_mkdir_fresh. }
  destruct (truthy _ && negb _).
  { rewrite Hrm. cbn [snd emit apply_event set_area set_tmp tmp count_request].
    now apply rm_rf_mkdir_fresh. }
  rewrite (ensureDir_io_ok _ _ _ _ Hdir).
  unfold render_io.
  pose proof (scratch_tryBlock (env retry) (job_of (pathname req)) t
                (ensureDir (env retry) (job_of (pathname req))
                   (emit (EvMkdir Tmp t (o_birth (env retry))) (count_request w))))
    as Htry.
  destruct (tryBlock _ _ _ _) as [[l thrown] w2]. cbn [snd] in Htry.
  unfold scratch in Htry.
  assert (Hfin : forall w3, tmp w3 = tmp w2 ->
                   tmp (snd (finallyBlock_io (faults retry) (env retry) t w3)) = tmp w).
  { intros w3 H3. rewrite (finallyBlock_io_ok _ _ _ _ Hrm), tmp_finallyBlock, H3.
    now apply Hback. }
  destruct thrown as [e'|].
  - destruct (f_append (faults retry)) as [ea|].
    { specialize (Hfin w2 eq_refl).
      destruct (finallyBlock_io _ _ _ _) as [[u|e2|] w3]; exact Hfin. }
    destruct retry.
    + specialize (Hfin (emit (EvAppendLog (errstr (env true) true l)) w2) eq_refl).
      destruct (finallyBlock_io _ _ _ _) as [[u|e2|] w3]; exact Hfin.
    + specialize (IH req true (emit (EvAppendLog (errstr (env false) false l)) w2)).
      destruct (handleRequest_io fuel env faults req true _) as [out w3].
      cbn [snd] in IH. specialize (Hfin w3 IH).
      destruct out as [r|e2|]; destruct (finallyBlock_io _ _ _ _) as [[u|e3|] w4];
        exact Hfin.
  - specialize (Hfin w2 eq_refl).
    destruct (finallyBlock_io _ _ _ _) as [[u|e2|] w3]; cbn [snd] in *;
      [|exact Hfin..].
    pose proof (tmp_epilogue_io (faults retry) (env retry) (job_of (pathname req)) l w3)
      as Hep.
    destruct (epilogue_io _ _ _ _ _) as [[u'|e3|] w4]; cbn [snd] in *; congruence.
Qed.

Lemma handleRequest_io_scratch_witness :
  tmp (snd (handleRequest_io 2 foul_env (fun _ => no_faults)
              {| pathname := "/wi.webp" |} false empty_world))
  = tmp empty_world.
Proof.
  apply (handleRequest_io_scratch foul_env (fun _ => no_faults) 2).
  intros retry. split; reflexivity.
Defined.

(** ** A rejection of [fs.mkdir(cachePath)] *)

(** When [fs.mkdir(cachePath)] rejects, the handler rejects with that
    error before the [try] statement: the scratch directory it has just
    made stays behind. *)
Theorem mkdir_rejection_strands_scratch (fuel : nat) (env : bool -> Oracle)
    (faults : bool -> Faults) (req : Request) (retry : bool) (w w1 : World)
    (t : string) (e : Err) :
  let j := job_of (pathname req) in
  let o := env retry in
  let f := faults retry in
  staticResponse (pathname req) = None ->
  exists_entry (cacheKey j) (cache w) = false ->
  (truthy (save j) && negb (has_file (saveKey j) "doomsav0.dsg" (cache w)))
  = false ->
  createTempDir (o_tmpnames o) (o_birth o) (count_request w) = Some (t, w1) ->
  f_mktmp f = None ->
  f_mkdir f = Some e ->
  handleRequest_io (S fuel) env faults req retry w = (Throw e, w1) /\
  exists_entry t (tmp w) = false /\
  exists_entry t (tmp w1) = true /\
  cache w1 = cache w.
Proof.
  intros j o f Hs Hnew Hgate Htmp Hmk Hdir.
  pose proof (createTempDir_Some _ _ _ _ _ Htmp) as [Hfresh ->].
  assert (Hmiss : has_file (cacheKey j) "output.webp" (cache w) = false).
  { unfold has_file, exists_entry in *.
    now destruct (lookup_entry (cacheKey j) (cache w)). }
  split; [|split; [exact Hfresh | split; [|reflexivity]]].
  - cbn [handleRequest_io]. unfold checkRequestOrigin. cbn [negb].
    rewrite Hs. change (cache (count_request w)) with (cache w). fold j.
    rewrite Hmiss. cbn [negb]. fold o f.
    rewrite (createTempDir_io_calm _ _ _ _ Hmk), Htmp.
    change (cache (emit (EvMkdir Tmp t (o_birth o)) (count_request w)))
      with (cache w).
    rewrite Hgate. unfold ensureDir_io.
    change (cache (emit (EvMkdir Tmp t (o_birth o)) (count_request w)))
      with (cache w).
    now rewrite Hnew, Hdir.
  - cbn [emit apply_event set_area set_tmp tmp count_request].
    unfold exists_entry. rewrite lookup_entry_mkdir.
    destruct (lookup_entry t (tmp w)); [reflexivity|]. now rewrite String.eqb_refl.
Qed.

Lemma mkdir_rejection_strands_scratch_witness :
  exists w1,
    handleRequest_io 2 fair_env readonly_cache {| pathname := "/wi.webp" |}
      false empty_world
    = (Throw (plain_error "EACCES"), w1) /\
    exists_entry "tmp1" (tmp w1) = true.
Proof.
  edestruct (mkdir_rejection_strands_scratch 1 fair_env readonly_cache
               {| pathname := "/wi.webp" |} false empty_world)
    as (H & _ & Hthere & _).
  - vm_compute; reflexivity.
  - vm_compute; reflexivity.
  - vm_compute; reflexivity.
  - vm_compute; reflexivity.
  - vm_compute; reflexivity.
  - vm_compute; reflexivity.
  - eexists. split; [exact H | exact Hthere].
Defined.

(** ** A rejection of [fs.appendFile] *)

(** When the [try] block throws and [fs.appendFile] rejects, there is no
    retry and no answer: after the clean-up the handler rejects with the
    error of the append, the log is unchanged and the request is counted
    once. *)
Theorem appendFile_rejection_raises (fuel : nat) (env : bool -> Oracle)
    (faults : bool -> Faults) (req : Request) (retry : bool) (w w0 w2 : World)
    (t : string) (l : Locals) (e ea : Err) :
  let j := job_of (pathname req) in
  let o := env retry in
  let f := faults retry in
  entersTry o req w = Some (t, w0) ->
  tryBlock o j t w0 = (l, Some e, w2) ->
  f_mktmp f = None -> f_mkdir f = None -> f_rm f = None ->
  f_append f = Some ea ->
  healthy (o_disk o) ->
  exists wf,
    handleRequest_io (S fuel) env faults req retry w = (Throw ea, wf) /\
    errors_log wf = errors_log w /\
    requestCount wf = requestCount w + 1.
Proof.
  intros j o f Henter Htry Hmk Hdir Hrm Happ Hdisk.
  pose proof (errors_log_entersTry _ _ _ _ _ Henter) as [Hlog0 Hcnt0].
  pose proof (frame_tryBlock o j t w0) as Hf. rewrite Htry in Hf. cbn [snd] in Hf.
  destruct Hf as (Hcnt2 & _ & Hlog2).
  pose proof (frame_finallyBlock o t w2) as (Hcnt3 & _ & Hlog3).
  pose proof (finallyBlock_healthy o t w2 Hdisk) as Hfin.
  exists (snd (finallyBlock o t w2)). split; [|split; congruence].
  rewrite (handleRequest_io_enters fuel env faults req retry w w0 t Hmk Hdir Henter).
  fold j. fold o. fold f. unfold render_io. rewrite Htry, Happ.
  rewrite (finallyBlock_io_ok _ _ _ _ Hrm).
  destruct (finallyBlock o t w2) as [[u|e2|] w3]; cbn [fst snd] in *;
    [reflexivity | discriminate..].
Qed.

Lemma appendFile_rejection_raises_witness :
  exists wf,
    handleRequest_io 2 foul_env readonly_log {| pathname := "/wi.webp" |}
      false empty_world
    = (Throw (plain_error "EACCES"), wf) /\
    errors_log wf = [].
Proof.
  edestruct (appendFile_rejection_raises 1 foul_env readonly_log
               {| pathname := "/wi.webp" |} false empty_world)
    as (wf & H & Hlog & _).
  - vm_compute; reflexivity.
  - vm_compute; reflexivity.
  - vm_compute; reflexivity.
  - vm_compute; reflexivity.
  - vm_compute; reflexivity.
  - vm_compute; reflexivity.
  - eexists. split; [vm_compute; reflexivity | right; reflexivity].
  - exists wf. split; [exact H | exact Hlog].
Defined.

(** ** The directories of the cache root during a render *)

Lemma dirs_write (a : Area) (n f k : string) (w : World) :
  exists_entry k (cache (emit (EvWrite a n f) w)) = exists_entry k (cache w).
Proof.
  destruct a; cbn [emit apply_event set_area set_cache set_tmp cache];
    [apply exists_entry_update | reflexivity].
Qed.

Lemma dirs_rename (t f n f' k : string) (w : World) :
  exists_entry k (cache (emit (EvRename t f n f') w)) = exists_entry k (cache w).
Proof.
  cbn [emit apply_event set_area set_cache set_tmp cache]. apply exists_entry_update.
Qed.

Lemma dirs_forging o j t w k :
  exists_entry k (cache (snd (forging o j t w))) = exists_entry k (cache w).
Proof.
  unfold forging. destruct (forgeDemo _ _ _); [|reflexivity].
  destruct (o_write_demo o); cbn [snd]; now rewrite ?dirs_write.
Qed.

Lemma dirs_simulating o t w k :
  exists_entry k (cache (snd (simulating o t w))) = exists_entry k (cache w).
Proof.
  unfold simulating.
  destruct (doom_render (o_doom o)), (doom_save (o_doom o)),
    (doom_exit (o_doom o)) as [e|]; try destruct (e_stdout e); cbn [snd];
    now rewrite ?dirs_write.
Qed.

Lemma dirs_concatenating o j t w k :
  exists_entry k (cache (snd (concatenating o j t w))) = exists_entry k (cache w).
Proof.
  unfold concatenating.
  destruct (truthy (save j)).
  - destruct (o_write_concat o); [reflexivity|].
    destruct (o_ffconcat o); [cbn [snd]; now rewrite ?dirs_write|].
    destruct (o_fftrim o); cbn [snd]; now rewrite ?dirs_write.
  - destruct (has_file t "render.mp4" (tmp w)); cbn [snd];
      now rewrite ?dirs_rename.
Qed.

Lemma dirs_transcoding o j w k :
  exists_entry k (cache (snd (transcoding o j w))) = exists_entry k (cache w).
Proof.
  unfold transcoding. destruct (o_ffwebp o) as [e|]; [destruct (raceCollision e)|];
    cbn [snd]; now rewrite ?dirs_write.
Qed.

Lemma dirs_promoting j t w k :
  exists_entry k (cache (snd (promoting j t w))) = exists_entry k (cache w).
Proof.
  unfold promoting. destruct (has_file t "doomsav0.dsg" (tmp w)); cbn [snd];
    now rewrite ?dirs_rename.
Qed.

Lemma dirs_tryBlock o j t w k :
  exists_entry k (cache (snd (tryBlock o j t w))) = exists_entry k (cache w).
Proof.
  unfold tryBlock.
  pose proof (dirs_forging o j t w k) as H1.
  destruct (forging o j t w) as [[e1|] w1]; cbn [snd] in *; [exact H1|].
  pose proof (dirs_simulating o t w1 k) as H2.
  destruct (simulating o t w1) as [[l [e2|]] w2]; cbn [snd] in *; [congruence|].
  pose proof (dirs_concatenating o j t w2 k) as H3.
  destruct (concatenating o j t w2) as [[e3|] w3]; cbn [snd] in *; [congruence|].
  pose proof (dirs_transcoding o j w3 k) as H4.
  destruct (transcoding o j w3) as [[e4|] w4]; cbn [snd] in *; [congruence|].
  pose proof (dirs_promoting j t w4 k) as H5.
  destruct (promoting j t w4) as [[e5|] w5]; cbn [snd] in *; congruence.
Qed.

(** The copy of the transition image after a render. *)
Lemma epilogue_io_after (f : Faults) (o : Oracle) (j : Job) (t : string)
    (w1 w2 : World) (l : Locals) (thrown : option Err) :
  copy_ok f o ->
  tryBlock o j t (ensureDir o j w1) = (l, thrown, w2) ->
  epilogue_io f o j l (snd (finallyBlock o t w2))
  = (Ret tt, epilogue o j l (snd (finallyBlock o t w2))).
Proof.
  intros Hcopy Htry. unfold epilogue_io.
  destruct Hcopy as [-> | (-> & Hroom)]; [now rewrite andb_false_r|].
  destruct (includes _ _ && o_mapinfo o); [|reflexivity].
  assert (Hdir : exists_entry (cacheKey j) (cache (snd (finallyBlock o t w2))) = true).
  { unfold finallyBlock, exists_entry.
    rewrite (lookup_clearOldCache _ _ _ (or_intror Hroom)).
    change (cache (emit (EvRm Tmp t) w2)) with (cache w2).
    fold (exists_entry (cacheKey j) (cache w2)).
    pose proof (dirs_tryBlock o j t (ensureDir o j w1) (cacheKey j)) as H.
    rewrite Htry in H. cbn [snd] in H. rewrite H.
    apply ensureDir_entry. }
  now rewrite Hdir.
Qed.

(** ** Every failure of a stage ends in a response *)

Lemma exists_entry_mkdir_other (n t : string) (b : Z) (l : Listing) :
  n <> t -> exists_entry n (mkdir t b l) = exists_entry n l.
Proof.
  intros Hne. unfold exists_entry. rewrite lookup_entry_mkdir.
  destruct (lookup_entry n l); [reflexivity|].
  destruct (String.eqb_spec t n); [congruence | reflexivity].
Qed.

Lemma fresh_after_try (o : Oracle) (j : Job) (t n : string) (w : World) :
  n <> t ->
  exists_entry n (tmp (snd (tryBlock o j t
                             (ensureDir o j (emit (EvMkdir Tmp t (o_birth o)) w)))))
  = exists_entry n (tmp w).
Proof.
  intros Hne.
  pose proof (scratch_tryBlock o j t
                (ensureDir o j (emit (EvMkdir Tmp t (o_birth o)) w))) as H.
  unfold scratch in H.
  assert (Hn : forall l, exists_entry n l = exists_entry n (rm_rf t l)).
  { intros l. rewrite exists_entry_rm_rf.
    destruct (String.eqb_spec n t); [contradiction | reflexivity]. }
  rewrite Hn, H, <- Hn.
  assert (Htmp : tmp (ensureDir o j (emit (EvMkdir Tmp t (o_birth o)) w))
                 = mkdir t (o_birth o) (tmp w))
    by (unfold ensureDir; now destruct (negb _)).
  rewrite Htmp. now apply exists_entry_mkdir_other.
Qed.

Lemma attempt_answers (fuel : nat) (env : bool -> Oracle)
    (faults : bool -> Faults) (req : Request) (w : World) :
  calm (faults true) ->
  healthy (o_disk (env true)) ->
  copy_ok (faults true) (env true) ->
  fresh_in (o_tmpnames (env true)) w ->
  exists (r : Response) (w' : World),
    handleRequest_io (S fuel) env faults req true w = (Ret r, w') /\
    answer_of req r.
Proof.
  intros (Hmk & Hrm & Hdir & Happ) Hdisk Hcopy Hfresh. unfold answer_of.
  cbn [handleRequest_io]. unfold checkRequestOrigin. cbn [negb].
  destruct (staticResponse (pathname req)) as [r|].
  { eexists _, _. split; [reflexivity|]. now left. }
  destruct (negb (has_file _ _ _)).
  2:{ eexists _, _. split; [reflexivity|]. right. right. now left. }
  rewrite (createTempDir_io_calm _ _ _ _ Hmk).
  destruct (createTempDir_fresh _ (o_birth (env true)) (count_request w) Hfresh)
    as (t & _ & _ & ->).
  destruct (truthy _ && negb _).
  { rewrite Hrm. eexists _, _. split; [reflexivity|]. right. now left. }
  rewrite (ensureDir_io_ok _ _ _ _ Hdir). unfold render_io.
  destruct (tryBlock _ _ _ _) as [[l thrown] w2] eqn:Htry.
  destruct thrown as [e|].
  - rewrite Happ. cbv beta iota zeta. rewrite (finallyBlock_io_ok _ _ _ _ Hrm).
    pose proof (finallyBlock_healthy (env true) t
                  (emit (EvAppendLog (errstr (env true) true l)) w2) Hdisk) as Hfin.
    destruct (finallyBlock _ _ _) as [[u|e2|] w3]; cbn [fst] in Hfin;
      [|discriminate..].
    eexists _, _. split; [reflexivity|]. right. right. now right.
  - cbv beta iota zeta. rewrite (finallyBlock_io_ok _ _ _ _ Hrm).
    pose proof (finallyBlock_healthy (env true) t w2 Hdisk) as Hfin.
    pose proof (epilogue_io_after _ _ _ _ _ _ _ _ Hcopy Htry) as Hep.
    destruct (finallyBlock _ _ _) as [[u|e2|] w3]; cbn [fst snd] in *;
      [|discriminate..].
    rewrite Hep. eexists _, _. split; [reflexivity|]. right. right. now left.
Qed.

(** When no call around the [try] block rejects, the disk can be probed at
    each clean-up, the transition image is out of play or safe to copy and
    [createTempDir] finds a free name in each attempt, [handleRequest]
    returns a response: a static answer, the 500 of the continuity check,
    the preview or the error image.  Every failure of a stage (forging,
    simulating, concatenating, transcoding, promoting), in one attempt or
    in both, ends in one of these. *)
Theorem handleRequest_io_answers (fuel : nat) (env : bool -> Oracle)
    (faults : bool -> Faults) (req : Request) (w : World) :
  (forall retry, calm (faults retry)) ->
  (forall retry, healthy (o_disk (env retry))) ->
  (forall retry, copy_ok (faults retry) (env retry)) ->
  fresh_in (o_tmpnames (env false)) w ->
  (exists n, In n (o_tmpnames (env true)) /\
             ~ In n (o_tmpnames (env false)) /\
             exists_entry n (tmp w) = false) ->
  exists (r : Response) (w' : World),
    handleRequest_io (S (S fuel)) env faults req false w = (Ret r, w') /\
    answer_of req r.
Proof.
  intros Hcalm Hdisk Hcopy Hfresh (n & Hn & Hnot & Hfree).
  destruct (Hcalm false) as (Hmk & Hrm & Hdir & Happ).
  set (k := S fuel). cbn [handleRequest_io]. unfold checkRequestOrigin. cbn [negb].
  destruct (staticResponse (pathname req)) as [r|] eqn:Hstatic.
  { exists r, (count_request w). split; [reflexivity|]. left. exact Hstatic. }
  destruct (negb (has_file _ _ _)).
  2:{ eexists _, _. split; [reflexivity|]. right. right. now left. }
  rewrite (createTempDir_io_calm _ _ _ _ Hmk).
  destruct (createTempDir_fresh _ (o_birth (env false)) (count_request w) Hfresh)
    as (t & Ht & _ & ->).
  destruct (truthy _ && negb _).
  { rewrite Hrm. eexists _, _. split; [reflexivity|]. right. now left. }
  rewrite (ensureDir_io_ok _ _ _ _ Hdir). unfold render_io.
  pose proof (fresh_after_try (env false) (job_of (pathname req)) t n
                (count_request w)) as Hlater.
  destruct (tryBlock _ _ _ _) as [[l thrown] w2] eqn:Htry. cbn [snd] in Hlater.
  destruct thrown as [e|].
  - rewrite Happ. cbv zeta.
    set (w3 := emit (EvAppendLog (errstr (env false) false l)) w2).
    assert (Hfresh' : fresh_in (o_tmpnames (env true)) w3).
    { exists n. split; [exact Hn|]. subst w3.
      cbn [emit apply_event tmp]. rewrite Hlater; [exact Hfree|].
      intros ->. contradiction. }
    subst k.
    destruct (attempt_answers fuel env faults req w3 (Hcalm true) (Hdisk true)
                (Hcopy true) Hfresh') as (r & w4 & -> & Hr).
    rewrite (finallyBlock_io_ok _ _ _ _ Hrm).
    pose proof (finallyBlock_healthy (env false) t w4 (Hdisk false)) as Hfin.
    destruct (finallyBlock _ _ _) as [[u|e2|] w5]; cbn [fst] in Hfin;
      [|discriminate..].
    exists r, w5. split; [reflexivity | exact Hr].
  - cbv beta iota zeta. rewrite (finallyBlock_io_ok _ _ _ _ Hrm).
    pose proof (finallyBlock_healthy (env false) t w2 (Hdisk false)) as Hfin.
    pose proof (epilogue_io_after _ _ _ _ _ _ _ _ (Hcopy false) Htry) as Hep.
    destruct (finallyBlock _ _ _) as [[u|e2|] w3]; cbn [fst snd] in *;
      [|discriminate..].
    rewrite Hep. eexists _, _. split; [reflexivity|]. right. right. now left.
Qed.

Lemma handleRequest_io_answers_witness :
  exists (r : Response) (w' : World),
    handleRequest_io 2 foul_env (fun _ => no_faults) {| pathname := "/wi.webp" |}
      false empty_world
    = (Ret r, w').
Proof.
  edestruct (handleRequest_io_answers 0 foul_env (fun _ => no_faults)
               {| pathname := "/wi.webp" |} empty_world) as (r & w' & H & _).
  - intros retry. repeat split.
  - intros retry. eexists. split; [vm_compute; reflexivity | right; reflexivity].
  - intros retry. left. reflexivity.
  - exists "tmp1". split; [now left | vm_compute; reflexivity].
  - exists "tmp2". split; [now left|]. split; [|vm_compute; reflexivity].
    intros [H|[]]. discriminate.
  - exists r, w'. exact H.
Defined.

(** ** The retry that finds the preview *)

(** When the [try] block of the first attempt throws after the preview of
    the key exists (a failed promotion of the snapshot, for one), while
    the calls around the [try] block succeed and the disk can be probed at
    the clean-up, the second attempt finds the preview and the handler
    answers with it: one record logged, the request counted twice, no
    render counted. *)
Theorem retry_finds_preview (fuel : nat) (env : bool -> Oracle)
    (faults : bool -> Faults) (req : Request) (w w0 w2 : World) (t : string)
    (l : Locals) (e : Err) :
  let o := env false in
  let j := job_of (pathname req) in
  calm (faults false) ->
  healthy (o_disk o) ->
  entersTry o req w = Some (t, w0) ->
  tryBlock o j t w0 = (l, Some e, w2) ->
  has_file (cacheKey j) "output.webp" (cache w2) = true ->
  exists wf : World,
    handleRequest_io (S (S fuel)) env faults req false w
    = (Ret (webp_response j), wf) /\
    errors_log wf = errors_log w ++ [errstr o false l] /\
    requestCount wf = requestCount w + 2 /\
    renderCount wf = renderCount w.
Proof.
  intros o j (Hmk & Hrm & Hdir & Happ) Hdisk Henter Htry Hprev.
  pose proof (entersTry_inv _ _ _ _ _ Henter) as (Hstatic & _ & _ & _ & _ & Hw0).
  assert (Hr0 : renderCount w0 = renderCount w)
    by (rewrite Hw0; unfold ensureDir; destruct (negb _); reflexivity).
  clear Hw0.
  pose proof (errors_log_entersTry _ _ _ _ _ Henter) as [Hl0 Hq0].
  pose proof (frame_tryBlock o j t w0) as Hf. rewrite Htry in Hf. cbn [snd] in Hf.
  destruct Hf as (Hq2 & Hr2 & Hl2).
  rewrite (handleRequest_io_enters (S fuel) env faults req false w w0 t Hmk Hdir Henter).
  fold j o. unfold render_io. rewrite Htry, Happ. cbv zeta.
  set (w3 := emit (EvAppendLog (errstr o false l)) w2).
  assert (Hagain : handleRequest_io (S fuel) env faults req true w3
                   = (Ret (webp_response j), count_request w3)).
  { cbn [handleRequest_io]. unfold checkRequestOrigin. cbn [negb]. rewrite Hstatic.
    fold j. change (cache (count_request w3)) with (cache w2). now rewrite Hprev. }
  rewrite Hagain, (finallyBlock_io_ok _ _ _ _ Hrm).
  pose proof (finallyBlock_healthy o t (count_request w3) Hdisk) as Hfin.
  pose proof (frame_finallyBlock o t (count_request w3)) as (Hq & Hr & Hl).
  destruct (finallyBlock o t (count_request w3)) as [[u|e2|] wf]; cbn [fst snd] in *;
    try discriminate.
  exists wf. split; [reflexivity|].
  subst w3.
  cbn [count_request emit apply_event requestCount renderCount errors_log] in Hq, Hr, Hl.
  rewrite Hq, Hr, Hl, Hq2, Hr2, Hl2, Hq0, Hl0, Hr0. repeat split; lia.
Qed.

Lemma retry_finds_preview_witness :
  exists wf : World,
    handleRequest_io 2 nosave_env (fun _ => no_faults) {| pathname := "/wi.webp" |}
      false empty_world
    = (Ret (webp_response (job_of "/wi.webp")), wf) /\
    length (errors_log wf) = 1%nat /\
    requestCount wf = 2 /\ renderCount wf = 0.
Proof.
  edestruct (retry_finds_preview 0 nosave_env (fun _ => no_faults)
               {| pathname := "/wi.webp" |} empty_world)
    as (wf & H & Hlog & Hq & Hr).
  - repeat split.
  - eexists. split; [vm_compute; reflexivity | right; reflexivity].
  - vm_compute; reflexivity.
  - vm_compute; reflexivity.
  - vm_compute; reflexivity.
  - exists wf. split; [exact H|]. split; [now rewrite Hlog|]. split; assumption.
Defined.

(** ** The transition image after an eviction *)

(** When a render succeeds at the end of a level whose transition image
    exists, and the clean-up has evicted the entry just rendered, the copy
    of the image finds no directory: the handler rejects although the
    render succeeded, and the render is not counted. *)
Theorem copyFile_after_eviction (fuel : nat) (env : bool -> Oracle)
    (faults : bool -> Faults) (req : Request) (retry : bool)
    (w w0 w2 wf : World) (t : string) (l : Locals) :
  let o := env retry in
  let f := faults retry in
  let j := job_of (pathname req) in
  f_mktmp f = None -> f_mkdir f = None -> f_rm f = None ->
  entersTry o req w = Some (t, w0) ->
  tryBlock o j t w0 = (l, None, w2) ->
  includes (stdout l) "DOOMCORD G_ExitLevel" = true ->
  o_mapinfo o = true ->
  finallyBlock o t w2 = (Ret tt, wf) ->
  exists_entry (cacheKey j) (cache wf) = false ->
  handleRequest_io (S fuel) env faults req retry w
  = (Throw (plain_error "ENOENT"), wf) /\
  renderCount wf = renderCount w.
Proof.
  intros o f j Hmk Hdir Hrm Henter Htry Hexit Hmap Hfin Hgone.
  pose proof (entersTry_inv _ _ _ _ _ Henter) as (_ & _ & _ & _ & _ & Hw0).
  assert (Hr0 : renderCount w0 = renderCount w)
    by (rewrite Hw0; unfold ensureDir; destruct (negb _); reflexivity).
  pose proof (frame_tryBlock o j t w0) as Hf. rewrite Htry in Hf. cbn [snd] in Hf.
  destruct Hf as (_ & Hr2 & _).
  pose proof (frame_finallyBlock o t w2) as (_ & Hr3 & _).
  rewrite Hfin in Hr3. cbn [snd] in Hr3.
  split; [|congruence].
  rewrite (handleRequest_io_enters fuel env faults req retry w w0 t Hmk Hdir Henter).
  fold j o f. unfold render_io. rewrite Htry. cbv beta iota zeta.
  rewrite (finallyBlock_io_ok _ _ _ _ Hrm), Hfin.
  unfold epilogue_io. now rewrite Hexit, Hmap, Hgone.
Qed.

Lemma copyFile_after_eviction_witness :
  exists wf : World,
    handleRequest_io 2 exit_env (fun _ => no_faults)
      {| pathname := "/wwwwwwi.webp" |} false deep_world
    = (Throw (plain_error "ENOENT"), wf) /\
    renderCount wf = 0.
Proof.
  edestruct (copyFile_after_eviction 1 exit_env (fun _ => no_faults)
               {| pathname := "/wwwwwwi.webp" |} false deep_world)
    as (H & Hr).
  - reflexivity.
  - reflexivity.
  - reflexivity.
  - vm_compute; reflexivity.
  - vm_compute; reflexivity.
  - vm_compute; reflexivity.
  - reflexivity.
  - vm_compute; reflexivity.
  - vm_compute; reflexivity.
  - eexists. split; [exact H | exact Hr].
Defined.

(** ** The two models of the handler *)

Lemma render_None (o : Oracle) (retry : bool) (j : Job) (t : string)
    (again : World -> Outcome Response * World) (w wf : World) (l : Locals) :
  render o retry j t again w = (Ret (None, l), wf) ->
  exists w2, tryBlock o j t w = (l, None, w2) /\ wf = snd (finallyBlock o t w2).
Proof.
  unfold render. destruct (tryBlock o j t w) as [[l' [e|]] w2].
  - destruct retry.
    + destruct (finallyBlock _ _ _) as [[u|e2|] w3]; discriminate.
    + destruct (again _) as [[r|e2|] w3];
        destruct (finallyBlock _ _ _) as [[u|e3|] w4]; discriminate.
  - destruct (finallyBlock o t w2) as [[u|e2|] w3] eqn:Hfin; try discriminate.
    intros [= -> <-]. exists w2. split; [reflexivity | now rewrite Hfin].
Qed.

Lemma render_io_ok (f : Faults) (o : Oracle) (retry : bool) (j : Job)
    (t : string) (again again' : World -> Outcome Response * World) (w : World) :
  f_append f = None -> f_rm f = None ->
  (forall w', again w' = again' w') ->
  render_io f o retry j t again w = render o retry j t again' w.
Proof.
  intros Happ Hrm Hagain. unfold render_io, render.
  destruct (tryBlock o j t w) as [[l [e|]] w2].
  - rewrite Happ. cbv zeta. rewrite Hagain.
    destruct retry; [now rewrite (finallyBlock_io_ok _ _ _ _ Hrm)|].
    destruct (again' _) as [[r|e2|] w3]; now rewrite (finallyBlock_io_ok _ _ _ _ Hrm).
  - now rewrite (finallyBlock_io_ok _ _ _ _ Hrm).
Qed.

(** When no call around the [try] block rejects and the transition image
    is out of play or safe to copy, the handler with the failures of these
    calls is the handler without them: what is proved of [handleRequest]
    holds of [handleRequest_io] in such runs. *)
Lemma handleRequest_io_agrees (env : bool -> Oracle) (faults : bool -> Faults)
    (fuel : nat) :
  (forall retry, calm (faults retry)) ->
  (forall retry, copy_ok (faults retry) (env retry)) ->
  forall (req : Request) (retry : bool) (w : World),
    handleRequest_io fuel env faults req retry w
    = handleRequest fuel env req retry w.
Proof.
  intros Hcalm Hcopy.
  induction fuel as [|fuel IH]; intros req retry w;
    cbn [handleRequest_io handleRequest]; [reflexivity|].
  destruct (Hcalm retry) as (Hmk & Hrm & Hdir & Happ).
  destruct (negb (checkRequestOrigin req)); [reflexivity|].
  destruct (staticResponse (pathname req)); [reflexivity|].
  destruct (negb (has_file _ _ _)); [|reflexivity].
  rewrite (createTempDir_io_calm _ _ _ _ Hmk).
  destruct (createTempDir _ _ _) as [[t w1]|]; [|reflexivity].
  destruct (truthy _ && negb _); [now rewrite Hrm|].
  rewrite (ensureDir_io_ok _ _ _ _ Hdir).
  rewrite (render_io_ok _ _ _ _ _ _ (handleRequest fuel env req true) _ Happ Hrm
             (fun w' => IH req true w')).
  destruct (render _ _ _ _ _ _) as [[[[r|] l]|e|] wf] eqn:Hrender; try reflexivity.
  apply render_None in Hrender as (w2 & Htry & ->).
  now rewrite (epilogue_io_after _ _ _ _ _ _ _ _ (Hcopy retry) Htry).
Qed.
